(** * Subtitle translation backend: batching, retry and response parsing

    A shallow embedding of [backend/app/services.py], [backend/app/models.py]
    and [backend/app/main.py], followed by the properties of the
    batched-translation-with-retry pipeline.

    Conventions of the embedding.
    - A Python [str] is a [string]; every [ascii] stands for one code point
      below 256.
    - A Python exception is a [PyExc]: its class name and [str(e)].
    - Code that may raise returns a sum [PyExc + A]; code that also talks to
      the provider or sleeps threads a state [St] (the provider's world and a
      trace of the calls and sleeps made so far).
    - The libraries the code calls but does not define ([json], the Gemini
      SDK, pydantic's coercion of field values) are the fields of the class
      [Runtime]; the HTTP client of the Chipp integration is the class [Web].
    - Logging is left out: no property reads the log. *)

From Stdlib Require Import Ascii String DecimalString List ZArith Lia Bool Floats.
Import ListNotations.

Set Implicit Arguments.
Set Warnings "-register-all".

Open Scope string_scope.

(* ================================================================== *)
(** * Python strings *)
(* ================================================================== *)

Module PyStr.

(** [str.isspace] on one code point below 256; this is also the class [\s]
    of [re] on [str] patterns. *)
Definition is_space (c : ascii) : bool :=
  let n := nat_of_ascii c in
  (((9 <=? n) && (n <=? 13)) || ((28 <=? n) && (n <=? 32))
   || (n =? 133) || (n =? 160))%nat.

Definition LF : ascii := ascii_of_nat 10.
Definition nl : string := String LF "".

(** [s.lstrip()] *)
Fixpoint lstrip (s : string) : string :=
  match s with
  | String c t => if is_space c then lstrip t else s
  | EmptyString => s
  end.

(** [s.rstrip()] *)
Fixpoint rstrip (s : string) : string :=
  match s with
  | String c t =>
      match rstrip t with
      | EmptyString => if is_space c then "" else String c ""
      | r => String c r
      end
  | EmptyString => ""
  end.

(** [s.strip()] *)
Definition strip (s : string) : string := rstrip (lstrip s).

(** [Some rest] when [s = pre ++ rest]. *)
Fixpoint strip_prefix (pre s : string) : option string :=
  match pre, s with
  | EmptyString, _ => Some s
  | String a p, String b t => if Ascii.eqb a b then strip_prefix p t else None
  | String _ _, EmptyString => None
  end.

(** [s.startswith(pre)] *)
Definition startswith (s pre : string) : bool :=
  match strip_prefix pre s with Some _ => true | None => false end.

(** [s.endswith(suf)] *)
Fixpoint endswith (s suf : string) : bool :=
  String.eqb s suf
  || match s with String _ t => endswith t suf | EmptyString => false end.

(** [needle in hay] *)
Fixpoint contains (needle hay : string) : bool :=
  startswith hay needle
  || match hay with String _ t => contains needle t | EmptyString => false end.

Fixpoint all_space (s : string) : bool :=
  match s with
  | String c t => is_space c && all_space t
  | EmptyString => true
  end.

(** [str(n)] for a non-negative integer. *)
Definition str_of_nat (n : nat) : string :=
  NilEmpty.string_of_uint (Nat.to_uint n).

End PyStr.

(* ================================================================== *)
(** * The fragment of [re] the parsers use *)
(* ================================================================== *)

Module Re.
Import PyStr.

(** One item of a pattern; the quantifiers are greedy, as in [re]. *)
Inductive item : Type :=
| Bol                              (* ^ *)
| Eol                              (* $ *)
| Lit (l : string)                 (* literal text *)
| OptLit (l : string)              (* (?:l)? *)
| StarCls (p : ascii -> bool).     (* c* for a character class c *)

Definition pattern := list item.

(** [$] without MULTILINE: the end of the string, or just before a newline
    that ends the string. *)
Definition at_eol (s : string) : bool :=
  String.eqb s "" || String.eqb s nl.

Section Star.
Variable p : ascii -> bool.
Variable k : nat -> string -> option string.

(** Longest run first, then one character less at a time. *)
Fixpoint star (pos : nat) (s : string) : option string :=
  match s with
  | String c t =>
      if p c then
        match star (S pos) t with
        | Some r => Some r
        | None => k pos s
        end
      else k pos s
  | EmptyString => k pos s
  end.
End Star.

(** Backtracking match of [pat] at offset [pos], where the text from [pos] on
    is [s]; the result is the text after the match. *)
Fixpoint match_here (pat : pattern) (pos : nat) (s : string) : option string :=
  match pat with
  | [] => Some s
  | Bol :: pat' => if (pos =? 0)%nat then match_here pat' pos s else None
  | Eol :: pat' => if at_eol s then match_here pat' pos s else None
  | Lit l :: pat' =>
      match strip_prefix l s with
      | Some r => match_here pat' (pos + String.length l) r
      | None => None
      end
  | OptLit l :: pat' =>
      match strip_prefix l s with
      | Some r =>
          match match_here pat' (pos + String.length l) r with
          | Some x => Some x
          | None => match_here pat' pos s
          end
      | None => match_here pat' pos s
      end
  | StarCls p :: pat' => star p (match_here pat') pos s
  end.

(** [re.sub(pat, "", s)] from offset [pos]: every leftmost non-overlapping
    match is deleted.  [skip] counts the characters of the current match that
    are still to be dropped. *)
Fixpoint sub_from (pat : pattern) (pos skip : nat) (s : string) : string :=
  match skip with
  | S k =>
      match s with
      | String _ t => sub_from pat (S pos) k t
      | EmptyString => ""
      end
  | 0 =>
      match s with
      | String c t =>
          match match_here pat pos s with
          | Some rest =>
              match String.length s - String.length rest with
              | S k => sub_from pat (S pos) k t
              | 0 => String c (sub_from pat (S pos) 0 t)
              end
          | None => String c (sub_from pat (S pos) 0 t)
          end
      | EmptyString => ""
      end
  end.

Definition sub_empty (pat : pattern) (s : string) : string :=
  sub_from pat 0 0 s.

(** [r"^```(?:json)?\s*\n?"] *)
Definition LEADING_FENCE : pattern :=
  [Bol; Lit "```"; OptLit "json"; StarCls is_space; OptLit nl].

(** [r"\n?```\s*$"] *)
Definition TRAILING_FENCE : pattern :=
  [OptLit nl; Lit "```"; StarCls is_space; Eol].

(** What [LEADING_FENCE] leaves of a text that starts with three backticks,
    given the text after them. *)
Definition after_leading_fence (r : string) : string :=
  lstrip (match strip_prefix "json" r with Some r' => r' | None => r end).

(** The texts [TRAILING_FENCE] matches in full: an optional newline, the
    three backticks, then white space only. *)
Definition is_trailing_fence (s : string) : bool :=
  match strip_prefix "```"
          (match strip_prefix nl s with Some r => r | None => s end) with
  | Some w => all_space w
  | None => false
  end.

End Re.

Import PyStr.

(* ================================================================== *)
(** * Python values, exceptions and the libraries behind the code *)
(* ================================================================== *)

(** An exception object: its class and [str(e)]. *)
Record PyExc : Type := mkExc { exc_class : string; exc_str : string }.

Definition ValueError (msg : string) : PyExc := mkExc "ValueError" msg.
Definition RuntimeError (msg : string) : PyExc := mkExc "RuntimeError" msg.

(** The values [json.loads] produces and the code passes around. *)
Inductive PyVal : Type :=
| PyNone
| PyBool (b : bool)
| PyInt (z : Z)
| PyFloat (f : float)
| PyStr (s : string)
| PyList (items : list PyVal)
| PyDict (members : list (string * PyVal)).

(** [isinstance(v, list)] and [isinstance(v, dict)] *)
Definition is_list (v : PyVal) : bool :=
  match v with PyList _ => true | _ => false end.
Definition is_dict (v : PyVal) : bool :=
  match v with PyDict _ => true | _ => false end.

(** [d[key]] on the members of a dict. *)
Fixpoint dict_get (members : list (string * PyVal)) (key : string)
  : option PyVal :=
  match members with
  | (k, v) :: rest => if String.eqb k key then Some v else dict_get rest key
  | [] => None
  end.

(** [key in v] for a value [v] known to be a dict. *)
Definition has_key (key : string) (v : PyVal) : bool :=
  match v with
  | PyDict members =>
      match dict_get members key with Some _ => true | None => false end
  | _ => false
  end.

(** [v[key]] for a dict [v] that has the key. *)
Definition getitem (v : PyVal) (key : string) : PyVal :=
  match v with
  | PyDict members =>
      match dict_get members key with Some x => x | None => PyNone end
  | _ => PyNone
  end.

(** Truth value of an object, as [or] tests it. *)
Definition truthy (v : PyVal) : bool :=
  match v with
  | PyNone => false
  | PyBool b => b
  | PyInt z => negb (Z.eqb z 0)
  | PyFloat f => negb (PrimFloat.eqb f 0%float)
  | PyStr s => negb (String.eqb s "")
  | PyList items => match items with [] => false | _ => true end
  | PyDict members => match members with [] => false | _ => true end
  end.

(** [a or b] *)
Definition py_or (a b : PyVal) : PyVal := if truthy a then a else b.

(** pydantic reports a failed validation as a list of (field, message). *)
Definition ErrorDetails : Type := list (string * string).

(** What the code gets from the libraries it imports: the provider's SDK,
    [json] and pydantic's handling of field values. *)
Class Runtime : Type := {
  (** the state of the provider *)
  World : Type;
  (** [self.model.generate_content(prompt)] followed by [response.text]:
      the text of the response, or the exception either of them raises *)
  generate_content : string -> World -> (PyExc + string) * World;
  (** [json.loads] *)
  json_loads : string -> PyExc + PyVal;
  (** [json.dumps(texts, ensure_ascii=False, indent=2)] *)
  json_dumps : list string -> string;
  (** pydantic's validation of a value for a field of type [str] *)
  str_field : PyVal -> option string;
  (** pydantic's validation of a value for a field of type [float] *)
  float_field : PyVal -> option float;
  (** [str(e)] of the ValidationError of a model *)
  validation_str : string -> ErrorDetails -> string;
  str_field_str : forall s, str_field (PyStr s) = Some s;
  float_field_float : forall f, float_field (PyFloat f) = Some f
}.

(** ** Effects: provider calls and sleeps *)

Inductive Event : Type :=
| Generate (prompt : string)        (* one call of generate_content *)
| Sleep (seconds : nat).            (* one asyncio.sleep *)

Section Effects.
Context {R : Runtime}.

Record St : Type := mkSt { world : World; trace : list Event }.

(** A computation that may raise and may call the provider or sleep. *)
Definition M (A : Type) : Type := St -> (PyExc + A) * St.

Definition ret {A} (a : A) : M A := fun st => (inr a, st).
Definition raise {A} (e : PyExc) : M A := fun st => (inl e, st).
Definition bind {A B} (m : M A) (f : A -> M B) : M B :=
  fun st =>
    match m st with
    | (inr a, st') => f a st'
    | (inl e, st') => (inl e, st')
    end.
(** [try: m except Exception as e: h e] *)
Definition try_except {A} (m : M A) (h : PyExc -> M A) : M A :=
  fun st =>
    match m st with
    | (inr a, st') => (inr a, st')
    | (inl e, st') => h e st'
    end.
Definition lift {A} (r : PyExc + A) : M A := fun st => (r, st).

(** The state after a sleep. *)
Definition slept (seconds : nat) (st : St) : St :=
  mkSt (world st) (trace st ++ [Sleep seconds]).

(** [await asyncio.sleep(seconds)] *)
Definition asyncio_sleep (seconds : nat) : M unit :=
  fun st => (inr tt, slept seconds st).

(** [(await asyncio.to_thread(self.model.generate_content, prompt)).text] *)
Definition generate_text (prompt : string) : M string :=
  fun st =>
    let (r, w) := generate_content prompt (world st) in
    (r, mkSt w (trace st ++ [Generate prompt])).

(** A ValidationError of [model] as the exception the caller sees. *)
Definition validated {A} (model : string) (r : ErrorDetails + A)
  : PyExc + A :=
  match r with
  | inr a => inr a
  | inl errs => inl (mkExc "ValidationError" (validation_str model errs))
  end.
End Effects.

Notation "x <- m ;; k" := (bind m (fun x => k))
  (at level 61, m at next level, right associativity).


(* ================================================================== *)
(** * Operations on values of any type, and the HTTP client *)
(* ================================================================== *)

(** [str(n)] for an integer. *)
Definition str_of_Z (z : Z) : string := NilEmpty.string_of_int (Z.to_int z).

(** An httpx response, as the code reads it: [status_code], [text] and the
    outcome of [json()]. *)
Module Httpx.
Record Response : Type := mkResponse {
  status_code : Z;
  text : string;
  json : PyExc + PyVal
}.
End Httpx.

(** What the Chipp integration gets from the libraries it imports. *)
Class Web : Type := {
  (** the state of the network *)
  Net : Type;
  (** [client.post(url, headers=headers, json=data)] on a client made with
      [httpx.AsyncClient(timeout=timeout)] *)
  post : string -> float -> list (string * string) -> PyVal -> Net
         -> (PyExc + Httpx.Response) * Net;
  (** [isinstance(e, httpx.TimeoutException)] *)
  is_timeout_exception : PyExc -> bool;
  (** [isinstance(e, httpx.RequestError)] *)
  is_request_error : PyExc -> bool;
  (** [str(v)], as an f-string formats a value *)
  format_value : PyVal -> string;
  (** [str(e)] of the exception of class [cls] that the operation [op]
      raises on the operand [v] *)
  builtin_error_str : string -> string -> PyVal -> string
}.

Section DynamicOperations.
Context {W : Web}.

Definition TypeError (op : string) (v : PyVal) : PyExc :=
  mkExc "TypeError" (builtin_error_str "TypeError" op v).
Definition KeyError (op : string) (v : PyVal) : PyExc :=
  mkExc "KeyError" (builtin_error_str "KeyError" op v).
Definition IndexError (op : string) (v : PyVal) : PyExc :=
  mkExc "IndexError" (builtin_error_str "IndexError" op v).
Definition AttributeError (op : string) (v : PyVal) : PyExc :=
  mkExc "AttributeError" (builtin_error_str "AttributeError" op v).

(** [key in v] for a string [key]: a key of a dict, an element of a list, a
    substring of a string; no other value is a container. *)
Definition py_in (key : string) (v : PyVal) : PyExc + bool :=
  match v with
  | PyDict _ => inr (has_key key v)
  | PyList items =>
      inr (existsb (fun x => match x with
                             | PyStr s => String.eqb s key
                             | _ => false
                             end) items)
  | PyStr s => inr (contains key s)
  | _ => inl (TypeError "in" v)
  end.

(** [v[key]] for a string [key]. *)
Definition subscript_key (v : PyVal) (key : string) : PyExc + PyVal :=
  match v with
  | PyDict members =>
      match dict_get members key with
      | Some x => inr x
      | None => inl (KeyError "[]" (PyStr key))
      end
  | _ => inl (TypeError "[]" v)
  end.

(** [v[i]] for a non-negative integer [i]; the keys of a decoded JSON object
    are strings, so an integer is never one of them. *)
Definition subscript_index (v : PyVal) (i : nat) : PyExc + PyVal :=
  match v with
  | PyList items =>
      match nth_error items i with
      | Some x => inr x
      | None => inl (IndexError "[]" v)
      end
  | PyStr s =>
      match String.get i s with
      | Some c => inr (PyStr (String c ""))
      | None => inl (IndexError "[]" v)
      end
  | PyDict _ => inl (KeyError "[]" (PyInt (Z.of_nat i)))
  | _ => inl (TypeError "[]" v)
  end.

(** [len(v)] *)
Definition py_len (v : PyVal) : PyExc + nat :=
  match v with
  | PyStr s => inr (String.length s)
  | PyList items => inr (List.length items)
  | PyDict members => inr (List.length members)
  | _ => inl (TypeError "len" v)
  end.

(** [v.get(key, default)] *)
Definition method_get (v : PyVal) (key : string) (default : PyVal)
  : PyExc + PyVal :=
  match v with
  | PyDict members =>
      inr (match dict_get members key with Some x => x | None => default end)
  | _ => inl (AttributeError "get" v)
  end.

(** [v.strip()] *)
Definition method_strip (v : PyVal) : PyExc + string :=
  match v with
  | PyStr s => inr (strip s)
  | _ => inl (AttributeError "strip" v)
  end.
End DynamicOperations.

(** Sequencing of steps that may raise. *)
Definition and_so {A B} (r : PyExc + A) (f : A -> PyExc + B) : PyExc + B :=
  match r with inr a => f a | inl e => inl e end.

(* ================================================================== *)
(** * models.py: request and response schemas *)
(* ================================================================== *)

(** ** Field validation, as pydantic runs it *)

(** [Field(min_length=lo, max_length=hi)] on a [str]. *)
Definition check_length (field : string) (lo hi : nat) (v : string)
  : ErrorDetails + string :=
  if (String.length v <? lo)%nat then
    inl [(field, "String should have at least " ++ str_of_nat lo ++ " character")]
  else if (hi <? String.length v)%nat then
    inl [(field, "String should have at most " ++ str_of_nat hi ++ " characters")]
  else inr v.

(** A [@validator] that raises [ValueError(msg)] on blank input and returns
    [v.strip()] otherwise. *)
Definition strip_validator (field msg : string) (v : string)
  : ErrorDetails + string :=
  if String.eqb (strip v) "" then inl [(field, "Value error, " ++ msg)]
  else inr (strip v).

(** A field with constraints and then a validator. *)
Definition and_then {A B} (r : ErrorDetails + A) (f : A -> ErrorDetails + B)
  : ErrorDetails + B :=
  match r with inr a => f a | inl e => inl e end.

(** pydantic validates every field and reports all failures together. *)
Definition both {A B} (ra : ErrorDetails + A) (rb : ErrorDetails + B)
  : ErrorDetails + (A * B) :=
  match ra, rb with
  | inr a, inr b => inr (a, b)
  | inl ea, inl eb => inl (ea ++ eb)%list
  | inl ea, inr _ => inl ea
  | inr _, inl eb => inl eb
  end.

(** A field given in the request, or its default. *)
Definition with_default (v : option string) (default : string) : string :=
  match v with Some x => x | None => default end.

Module TranslationRequest.
Record t : Type := mk {
  text : string;
  source_language : string;
  target_language : string
}.

Definition validate_text (v : string) : ErrorDetails + string :=
  strip_validator "text" "Text cannot be empty or only whitespace" v.

Definition validate_language (field : string) (v : string)
  : ErrorDetails + string :=
  strip_validator field "Language cannot be empty" v.

(** [TranslationRequest(text=..., source_language=..., target_language=...)];
    an absent language takes its default, which pydantic does not validate. *)
Definition new (text_ : string) (source_language_ target_language_ : option string)
  : ErrorDetails + t :=
  let lang field v default :=
    match v with
    | Some x => validate_language field x
    | None => inr default
    end in
  match both (and_then (check_length "text" 1 5000 text_) validate_text)
             (both (lang "source_language" source_language_ "English")
                   (lang "target_language" target_language_ "Telugu")) with
  | inr (x, (s, g)) => inr (mk x s g)
  | inl e => inl e
  end.
End TranslationRequest.

Module SubtitleCue.
Record t : Type := mk { id : string; text : string }.

(** [SubtitleCue(id=..., text=...)]: two plain [str] fields. *)
Definition new (id_ text_ : string) : ErrorDetails + t := inr (mk id_ text_).
End SubtitleCue.

Module SubtitleTranslationRequest.
Record t : Type := mk {
  cues : list SubtitleCue.t;
  source_language : string;
  target_language : string;
  batch_size : Z
}.

Definition check_cues (v : list SubtitleCue.t)
  : ErrorDetails + list SubtitleCue.t :=
  if (List.length v <? 1)%nat
  then inl [("cues", "List should have at least 1 item after validation")]
  else inr v.

Definition check_batch_size (v : Z) : ErrorDetails + Z :=
  if (v <? 1)%Z then
    inl [("batch_size", "Input should be greater than or equal to 1")]
  else if (100 <? v)%Z then
    inl [("batch_size", "Input should be less than or equal to 100")]
  else inr v.

Definition new (cues_ : list (string * string))
    (source_language_ target_language_ : option string)
    (batch_size_ : option Z) : ErrorDetails + t :=
  match both (check_cues (map (fun c => SubtitleCue.mk (fst c) (snd c)) cues_))
             (match batch_size_ with
              | Some b => check_batch_size b
              | None => inr 25%Z
              end) with
  | inr (c, b) =>
      inr (mk c (with_default source_language_ "English")
                (with_default target_language_ "Spanish") b)
  | inl e => inl e
  end.
End SubtitleTranslationRequest.

Module TextTranslationRequest.
Record t : Type := mk {
  text : string;
  source_language : string;
  target_language : string
}.

Definition validate_text (v : string) : ErrorDetails + string :=
  strip_validator "text" "Text cannot be empty or only whitespace" v.

Definition validate_target_language (v : string) : ErrorDetails + string :=
  strip_validator "target_language" "Target language cannot be empty" v.

Definition new (text_ : string) (source_language_ : option string)
    (target_language_ : string) : ErrorDetails + t :=
  match both (and_then (check_length "text" 1 5000 text_) validate_text)
             (validate_target_language target_language_) with
  | inr (x, g) => inr (mk x (with_default source_language_ "Auto-detect") g)
  | inl e => inl e
  end.
End TextTranslationRequest.

Module LanguageDetectionRequest.
Record t : Type := mk { text : string }.

Definition validate_text (v : string) : ErrorDetails + string :=
  strip_validator "text" "Text cannot be empty or only whitespace" v.

Definition new (text_ : string) : ErrorDetails + t :=
  match and_then (check_length "text" 1 5000 text_) validate_text with
  | inr x => inr (mk x)
  | inl e => inl e
  end.
End LanguageDetectionRequest.

(** ** Models built by the code from values it computed *)

Section FieldTypes.
Context {R : Runtime}.

(** A required field of type [str]. *)
Definition required_str (field : string) (v : PyVal) : ErrorDetails + string :=
  match str_field v with
  | Some x => inr x
  | None => inl [(field, "Input should be a valid string")]
  end.

(** A field of type [Optional[str]]. *)
Definition optional_str (field : string) (v : PyVal)
  : ErrorDetails + option string :=
  match v with
  | PyNone => inr None
  | _ => match str_field v with
         | Some x => inr (Some x)
         | None => inl [(field, "Input should be a valid string")]
         end
  end.

(** A field of type [Optional[float]] with [Field(None, ge=0, le=1)]. *)
Definition optional_unit_float (field : string) (v : PyVal)
  : ErrorDetails + option float :=
  match v with
  | PyNone => inr None
  | _ => match float_field v with
         | Some x =>
             if negb (PrimFloat.leb 0%float x) then
               inl [(field, "Input should be greater than or equal to 0")]
             else if negb (PrimFloat.leb x 1%float) then
               inl [(field, "Input should be less than or equal to 1")]
             else inr (Some x)
         | None => inl [(field, "Input should be a valid number")]
         end
  end.
End FieldTypes.

Module TranslatedCue.
Record t : Type := mk { id : string; text : string; translated_text : string }.

Definition new {R : Runtime} (id_ text_ translated_text_ : PyVal)
  : ErrorDetails + t :=
  match both (required_str "id" id_)
             (both (required_str "text" text_)
                   (required_str "translated_text" translated_text_)) with
  | inr (i, (x, y)) => inr (mk i x y)
  | inl e => inl e
  end.
End TranslatedCue.

Module SubtitleTranslationResponse.
Record t : Type := mk {
  success : bool;
  translated_cues : list TranslatedCue.t;
  error_message : option string
}.

(** [translated_cues] defaults to [[]], [error_message] to [None]. *)
Definition new {R : Runtime} (success_ : bool)
    (translated_cues_ : option (list TranslatedCue.t))
    (error_message_ : PyVal) : ErrorDetails + t :=
  match optional_str "error_message" error_message_ with
  | inr m =>
      inr (mk success_
              (match translated_cues_ with Some l => l | None => [] end) m)
  | inl e => inl e
  end.
End SubtitleTranslationResponse.

Module LanguageDetectionResponse.
Record t : Type := mk {
  success : bool;
  detected_language : option string;
  confidence : option float;
  error_message : option string
}.

Definition new {R : Runtime} (success_ : bool)
    (detected_language_ confidence_ error_message_ : PyVal)
  : ErrorDetails + t :=
  match both (optional_str "detected_language" detected_language_)
             (both (optional_unit_float "confidence" confidence_)
                   (optional_str "error_message" error_message_)) with
  | inr (l, (c, m)) => inr (mk success_ l c m)
  | inl e => inl e
  end.
End LanguageDetectionResponse.

Module TranslationResponse.
Record t : Type := mk {
  success : bool;
  translated_text : option string;
  source_language : string;
  target_language : string;
  original_text : string;
  error_message : option string
}.

Definition new {R : Runtime} (success_ : bool)
    (translated_text_ source_language_ target_language_ original_text_
       error_message_ : PyVal) : ErrorDetails + t :=
  match both (optional_str "translated_text" translated_text_)
             (both (required_str "source_language" source_language_)
                   (both (required_str "target_language" target_language_)
                         (both (required_str "original_text" original_text_)
                               (optional_str "error_message" error_message_)))) with
  | inr (x, (s, (g, (o, m)))) => inr (mk success_ x s g o m)
  | inl e => inl e
  end.
End TranslationResponse.

Module TextTranslationResponse.
Record t : Type := mk {
  success : bool;
  translated_text : option string;
  source_language : string;
  target_language : string;
  error_message : option string
}.

Definition new {R : Runtime} (success_ : bool)
    (translated_text_ source_language_ target_language_ error_message_ : PyVal)
  : ErrorDetails + t :=
  match both (optional_str "translated_text" translated_text_)
             (both (required_str "source_language" source_language_)
                   (both (required_str "target_language" target_language_)
                         (optional_str "error_message" error_message_))) with
  | inr (x, (s, (g, m))) => inr (mk success_ x s g m)
  | inl e => inl e
  end.
End TextTranslationResponse.

(** Modelled from the spec: [TransliterationRequest] is imported by main.py
    from app.models, but its declaration is not among the sources.  The spec
    gives the request of /transliterate as
    [{text(1-5000), source_script, target_script}]. *)
Module TransliterationRequest.
Record t : Type := mk {
  text : string;
  source_script : string;
  target_script : string
}.
End TransliterationRequest.

(** Modelled from the spec: [TransliterationResponse] is imported by main.py
    from app.models, but its declaration is not among the sources.  The spec
    gives the response of /transliterate as
    [{success, transliterated_text?, source_script, target_script,
    error_message?}]: the fields marked [?] are optional strings, the two
    scripts are required strings. *)
Module TransliterationResponse.
Record t : Type := mk {
  success : bool;
  transliterated_text : option string;
  source_script : string;
  target_script : string;
  error_message : option string
}.

Definition new {R : Runtime} (success_ : bool)
    (transliterated_text_ source_script_ target_script_ error_message_ : PyVal)
  : ErrorDetails + t :=
  match both (optional_str "transliterated_text" transliterated_text_)
             (both (required_str "source_script" source_script_)
                   (both (required_str "target_script" target_script_)
                         (optional_str "error_message" error_message_))) with
  | inr (x, (s, (g, m))) => inr (mk success_ x s g m)
  | inl e => inl e
  end.
End TransliterationResponse.

(* ================================================================== *)
(** * Python lists: [range], slices, [enumerate] *)
(* ================================================================== *)

(** [list(range(start, stop, step))]; the length is the one CPython
    computes for the range object. *)
Definition py_range (start stop step : Z) : PyExc + list Z :=
  if (step =? 0)%Z then inl (ValueError "range() arg 3 must not be zero")
  else
    let len :=
      if (0 <? step)%Z
      then (if (start <? stop)%Z then (stop - start - 1) / step + 1 else 0)%Z
      else (if (stop <? start)%Z then (start - stop - 1) / (- step) + 1 else 0)%Z
    in
    inr (map (fun k => (start + Z.of_nat k * step)%Z) (seq 0 (Z.to_nat len))).

(** A slice bound brought into [0, len], a negative one counting from the
    end. *)
Definition clamp_index (len i : Z) : Z :=
  let j := if (i <? 0)%Z then (i + len)%Z else i in
  Z.max 0 (Z.min len j).

(** [l[a:b]] *)
Definition py_slice {A} (l : list A) (a b : Z) : list A :=
  let len := Z.of_nat (List.length l) in
  let lo := clamp_index len a in
  let hi := clamp_index len b in
  firstn (Z.to_nat (hi - lo)) (skipn (Z.to_nat lo) l).

(** [list(enumerate(l))] *)
Definition enumerate {A} (l : list A) : list (nat * A) :=
  combine (seq 0 (List.length l)) l.

(* ================================================================== *)
(** * config.py: the settings the services read *)
(* ================================================================== *)

Module Settings.
Record t : Type := mk {
  api_key : string;
  chipp_base_url : string;
  chipp_model : string;
  gemini_api_key : string
}.
End Settings.

(* ================================================================== *)
(** * services.py *)
(* ================================================================== *)

(** A payload wrapped in markdown fences, as the model tends to answer:
    the opening fence with or without the language tag, a newline, the
    payload, a newline, the closing fence. *)
Definition fenced (tag : bool) (payload : string) : string :=
  "```" ++ (if tag then "json" else "") ++ nl ++ payload ++ nl ++ "```".

(** A payload that carries no fence of its own. *)
Definition bare (payload : string) : Prop :=
  startswith (strip payload) "```" = false
  /\ endswith (strip payload) "```" = false.

(** The double quote, for the prompts. *)
Definition dq : string := String (ascii_of_nat 34) "".

(** The four lines the three [_parse_response] methods share: strip, drop
    the markdown fences, strip again. *)
Definition clean_response (response_text : string) : string :=
  let cleaned := strip response_text in
  let cleaned := Re.sub_empty Re.LEADING_FENCE cleaned in
  let cleaned := Re.sub_empty Re.TRAILING_FENCE cleaned in
  strip cleaned.

(** Service for handling text translation requests via Chipp AI. *)
Module TranslationService.
Section Service.
Context {W : Web}.

Record t : Type := mk {
  api_key : string;
  base_url : string;
  model : string;
  timeout : float
}.

(** [__init__] *)
Definition init (settings : Settings.t) : PyExc + t :=
  if String.eqb (Settings.api_key settings) ""
  then inl (ValueError "API key is required but not provided")
  else inr (mk (Settings.api_key settings) (Settings.chipp_base_url settings)
               (Settings.chipp_model settings) 30%float).

Definition headers (self : t) : list (string * string) :=
  [("Authorization", "Bearer " ++ api_key self);
   ("Content-Type", "application/json")].

Definition prompt (text source_language target_language : string) : string :=
  "Translate the following text from " ++ source_language ++ " to "
  ++ target_language ++ "." ++ nl
  ++ "        Only provide the translation, no explanations or additional text."
  ++ nl ++ nl
  ++ "        Text to translate: " ++ text.

Definition data (self : t) (text source_language target_language : string)
  : PyVal :=
  PyDict [("model", PyStr (model self));
          ("messages",
           PyList [PyDict [("role", PyStr "user");
                           ("content",
                            PyStr (prompt text source_language target_language))]]);
          ("stream", PyBool false)].

(** [result["choices"][0].get("message", {}).get("content", "").strip()] *)
Definition first_content (result : PyVal) : PyExc + string :=
  and_so (subscript_key result "choices") (fun choices =>
  and_so (subscript_index choices 0) (fun choice =>
  and_so (method_get choice "message" (PyDict [])) (fun message =>
  and_so (method_get message "content" (PyStr "")) method_strip))).

(** ["choices" in result and len(result["choices"]) > 0] *)
Definition has_choices (result : PyVal) : PyExc + bool :=
  and_so (py_in "choices" result) (fun present =>
  if present then
    and_so (subscript_key result "choices") (fun choices =>
    and_so (py_len choices) (fun n => inr (0 <? n)%nat))
  else inr false).

(** The body of the [async with] block, once the response is there. *)
Definition read_response (response : Httpx.Response)
  : PyExc + (bool * PyVal * PyVal) :=
  if (Httpx.status_code response =? 200)%Z then
    and_so (Httpx.json response) (fun result =>
    and_so (has_choices result) (fun ok =>
    if ok then
      and_so (first_content result) (fun translation =>
      inr (true, PyStr translation, PyNone))
    else
      let error_msg := "No translation in response: " ++ format_value result in
      inr (false, PyNone, PyStr error_msg)))
  else
    let error_msg :=
      "API call failed with status " ++ str_of_Z (Httpx.status_code response)
      ++ ": " ++ Httpx.text response in
    inr (false, PyNone, PyStr error_msg).

(** The three [except] clauses, in their order. *)
Definition on_exception (e : PyExc) : bool * PyVal * PyVal :=
  if is_timeout_exception e then
    (false, PyNone, PyStr "Translation request timed out")
  else if is_request_error e then
    (false, PyNone, PyStr ("Request error: " ++ exc_str e))
  else
    (false, PyNone, PyStr ("Unexpected error: " ++ exc_str e)).

(** Returns (success, translated_text, error_message). *)
Definition translate (self : t) (text source_language target_language : string)
    (net : Net) : (PyExc + (bool * PyVal * PyVal)) * Net :=
  match post (base_url self) (timeout self) (headers self)
          (data self text source_language target_language) net with
  | (inr response, net') =>
      match read_response response with
      | inr r => (inr r, net')
      | inl e => (inr (on_exception e), net')
      end
  | (inl e, net') => (inr (on_exception e), net')
  end.
End Service.
End TranslationService.

Module SubtitleTranslationService.
Section Service.
Context {R : Runtime}.

(** The class attributes. *)
Record t : Type := mk { MODEL : string; MAX_RETRIES : nat }.

Definition instance : t := mk "gemini-2.5-flash-lite" 3.

(** [__init__]; [genai.configure] and [genai.GenerativeModel] only record
    the key and the name of the model. *)
Definition init (settings : Settings.t) : PyExc + t :=
  if String.eqb (Settings.gemini_api_key settings) ""
  then inl (ValueError "GEMINI_API_KEY is required but not provided")
  else inr instance.

Definition _build_prompt (texts : list string) (source_lang target_lang : string)
  : string :=
  "You are a professional subtitle translator. "
  ++ "Translate the following subtitle texts from " ++ source_lang
  ++ " to " ++ target_lang ++ "." ++ nl ++ nl
  ++ "CRITICAL INSTRUCTIONS:" ++ nl
  ++ "- Translate ONLY the text content" ++ nl
  ++ "- Maintain the EXACT same number of lines as the original" ++ nl
  ++ "- Preserve line breaks within each subtitle" ++ nl
  ++ "- Keep the same tone and context" ++ nl
  ++ "- Do NOT add explanations or comments" ++ nl
  ++ "- Return ONLY a JSON array of translated strings" ++ nl ++ nl
  ++ "Input (" ++ str_of_nat (List.length texts) ++ " subtitles):" ++ nl
  ++ json_dumps texts ++ nl ++ nl
  ++ "Output format:" ++ nl
  ++ "Return a JSON array with " ++ str_of_nat (List.length texts)
  ++ " translated strings in the same order." ++ nl ++ nl
  ++ "Example:" ++ nl
  ++ "[" ++ dq ++ "Translated text 1" ++ dq ++ ", "
  ++ dq ++ "Translated text 2" ++ dq ++ ", ...]".

(** Parse JSON array from Gemini response, stripping markdown fences. *)
Definition _parse_response (response_text : string) : PyExc + list PyVal :=
  let cleaned := clean_response response_text in
  match json_loads cleaned with
  | inl e => inl e
  | inr parsed =>
      match parsed with
      | PyList items => inr items
      | _ => inl (ValueError "Response is not a JSON array")
      end
  end.

(** [translated_texts[idx] if idx < len(translated_texts) else cue.text] *)
Definition pick_text (translated_texts : list PyVal) (idx : nat)
    (cue : SubtitleCue.t) : PyVal :=
  if (idx <? List.length translated_texts)%nat
  then nth idx translated_texts PyNone
  else PyStr (SubtitleCue.text cue).

(** The loop at the end of [_translate_batch]: one TranslatedCue per cue,
    falling back to the original text where the parsed array has no entry.
    [items] is what is left of [enumerate(cues)], [result] the list built
    so far. *)
Fixpoint build_result (items : list (nat * SubtitleCue.t))
    (translated_texts : list PyVal) (result : list TranslatedCue.t)
  : PyExc + list TranslatedCue.t :=
  match items with
  | [] => inr result
  | (idx, cue) :: rest =>
      let translated_text := pick_text translated_texts idx cue in
      match validated "TranslatedCue"
              (TranslatedCue.new (PyStr (SubtitleCue.id cue))
                 (PyStr (SubtitleCue.text cue)) translated_text) with
      | inr tc => build_result rest translated_texts (result ++ [tc])
      | inl e => inl e
      end
  end.

(** Send one batch to Gemini and parse the response. *)
Definition _translate_batch (self : t) (cues : list SubtitleCue.t)
    (source_lang target_lang : string) : M (list TranslatedCue.t) :=
  let texts := map SubtitleCue.text cues in
  let prompt := _build_prompt texts source_lang target_lang in
  response_text <- generate_text prompt ;;
  translated_texts <- lift (_parse_response response_text) ;;
  lift (build_result (enumerate cues) translated_texts []).

(** Don't retry on auth / quota errors. *)
Definition non_retryable (e : PyExc) : bool :=
  contains "API key" (exc_str e) || contains "quota" (exc_str e).

(** The [for attempt in range(self.MAX_RETRIES)] loop; [attempts] is what
    is left of the range. *)
Fixpoint retry_loop (self : t) (cues : list SubtitleCue.t)
    (source_lang target_lang : string) (attempts : list nat)
    (last_error : option PyExc) : M (list TranslatedCue.t) :=
  match attempts with
  | [] =>
      raise (match last_error with
             | Some e => e
             | None => RuntimeError "Translation failed after retries"
             end)
  | attempt :: rest =>
      try_except
        (_ <- (if (0 <? attempt)%nat then asyncio_sleep (2 ^ attempt)
               else ret tt) ;;
         _translate_batch self cues source_lang target_lang)
        (fun e =>
           if non_retryable e then raise e
           else retry_loop self cues source_lang target_lang rest (Some e))
  end.

(** Translate a single batch with exponential-backoff retries. *)
Definition _translate_batch_with_retry (self : t) (cues : list SubtitleCue.t)
    (source_lang target_lang : string) : M (list TranslatedCue.t) :=
  retry_loop self cues source_lang target_lang (seq 0 (MAX_RETRIES self)) None.

(** The [for batch_idx, batch in enumerate(batches)] loop. *)
Fixpoint translate_batches (self : t) (batches : list (list SubtitleCue.t))
    (source_language target_language : string)
    (all_translated : list TranslatedCue.t) : M (list TranslatedCue.t) :=
  match batches with
  | [] => ret all_translated
  | batch :: rest =>
      translated <- _translate_batch_with_retry self batch
                      source_language target_language ;;
      translate_batches self rest source_language target_language
        (all_translated ++ translated)
  end.

(** [[cues[i : i + batch_size] for i in range(0, len(cues), batch_size)]] *)
Definition make_batches (cues : list SubtitleCue.t) (batch_size : Z)
  : PyExc + list (list SubtitleCue.t) :=
  match py_range 0 (Z.of_nat (List.length cues)) batch_size with
  | inr idxs => inr (map (fun i => py_slice cues i (i + batch_size)) idxs)
  | inl e => inl e
  end.

(** Translate all cues, splitting into batches. *)
Definition translate_subtitles (self : t) (cues : list SubtitleCue.t)
    (source_language target_language : string) (batch_size : Z)
  : M (list TranslatedCue.t) :=
  batches <- lift (make_batches cues batch_size) ;;
  translate_batches self batches source_language target_language [].
End Service.
End SubtitleTranslationService.

(** Service for translating plain text via Google Gemini API. *)
Module TextTranslationService.
Section Service.
Context {R : Runtime}.

Definition MODEL : string := "gemini-2.5-flash-lite".

(** [__init__]; [genai.configure] and [genai.GenerativeModel] only record
    the key and the name of the model. *)
Definition init (settings : Settings.t) : PyExc + unit :=
  if String.eqb (Settings.gemini_api_key settings) ""
  then inl (ValueError "GEMINI_API_KEY is required but not provided")
  else inr tt.

Definition prompt (text source_language target_language : string) : string :=
  let source_instruction :=
    if negb (String.eqb source_language "Auto-detect")
    then "from " ++ source_language ++ " "
    else "" in
  "You are a professional translator. "
  ++ "Translate the following text " ++ source_instruction ++ "to "
  ++ target_language ++ "." ++ nl ++ nl
  ++ "INSTRUCTIONS:" ++ nl
  ++ "- Provide ONLY the translated text, nothing else" ++ nl
  ++ "- Preserve the original formatting (paragraphs, line breaks)" ++ nl
  ++ "- Keep the same tone and style" ++ nl
  ++ "- Do NOT add explanations, notes, or comments" ++ nl ++ nl
  ++ "Text to translate:" ++ nl ++ text.

(** Translate text using Gemini.
    Returns (success, translated_text, error_message). *)
Definition translate (text source_language target_language : string)
  : M (bool * PyVal * PyVal) :=
  try_except
    (response_text <- generate_text (prompt text source_language target_language) ;;
     let translated := strip response_text in
     ret (true, PyStr translated, PyNone))
    (fun e =>
       let error_msg := "Text translation failed: " ++ exc_str e in
       ret (false, PyNone, PyStr error_msg)).
End Service.
End TextTranslationService.

Module LanguageDetectionService.
Section Service.
Context {R : Runtime}.

Definition MODEL : string := "gemini-2.5-flash-lite".

(** [__init__]; [genai.configure] and [genai.GenerativeModel] only record
    the key and the name of the model. *)
Definition init (settings : Settings.t) : PyExc + unit :=
  if String.eqb (Settings.gemini_api_key settings) ""
  then inl (ValueError "GEMINI_API_KEY is required but not provided")
  else inr tt.

Definition prompt (text : string) : string :=
  "You are a language identification expert. "
  ++ "Detect the language of the following text." ++ nl ++ nl
  ++ "INSTRUCTIONS:" ++ nl
  ++ "- Return ONLY a JSON object with two keys: " ++ dq ++ "language" ++ dq
  ++ " and " ++ dq ++ "confidence" ++ dq ++ nl
  ++ "- " ++ dq ++ "language" ++ dq
  ++ " should be the full English name of the language (e.g. "
  ++ dq ++ "Spanish" ++ dq ++ ", " ++ dq ++ "Japanese" ++ dq ++ ")" ++ nl
  ++ "- " ++ dq ++ "confidence" ++ dq
  ++ " should be a float between 0 and 1 indicating how confident you are" ++ nl
  ++ "- Do NOT add any explanation or text outside the JSON" ++ nl ++ nl
  ++ "Text:" ++ nl ++ text.

(** Parse JSON from Gemini response. *)
Definition _parse_response (response_text : string) : PyExc + PyVal :=
  let cleaned := clean_response response_text in
  match json_loads cleaned with
  | inl e => inl e
  | inr parsed =>
      if negb (is_dict parsed) || negb (has_key "language" parsed)
         || negb (has_key "confidence" parsed)
      then inl (ValueError
        "Response must be a JSON object with 'language' and 'confidence' keys")
      else inr parsed
  end.

(** Detect the language of the given text.
    Returns (success, detected_language, confidence, error_message). *)
Definition detect (text : string) : M (bool * PyVal * PyVal * PyVal) :=
  try_except
    (response_text <- generate_text (prompt text) ;;
     result <- lift (_parse_response response_text) ;;
     ret (true, getitem result "language", getitem result "confidence", PyNone))
    (fun e =>
       let error_msg := "Language detection failed: " ++ exc_str e in
       ret (false, PyNone, PyNone, PyStr error_msg)).
End Service.
End LanguageDetectionService.

Module TransliterationService.
Section Service.
Context {R : Runtime}.

Definition MODEL : string := "gemini-2.5-flash-lite".

(** [__init__]; [genai.configure] and [genai.GenerativeModel] only record
    the key and the name of the model. *)
Definition init (settings : Settings.t) : PyExc + unit :=
  if String.eqb (Settings.gemini_api_key settings) ""
  then inl (ValueError "GEMINI_API_KEY is required but not provided")
  else inr tt.

Definition prompt (text source_script target_script : string) : string :=
  let source_instruction :=
    if negb (String.eqb source_script "Auto-detect")
    then "The text is written in " ++ source_script ++ " script. "
    else "First identify the script/writing system of the text. " in
  "You are a professional transliteration expert with deep knowledge of writing systems worldwide."
  ++ nl ++ nl
  ++ source_instruction
  ++ "Transliterate the following text into " ++ target_script ++ "." ++ nl ++ nl
  ++ "CRITICAL INSTRUCTIONS:" ++ nl
  ++ "- Transliteration means converting the SOUND/PRONUNCIATION of the text into the target script, NOT translating the meaning" ++ nl
  ++ "- Preserve the original pronunciation as accurately as possible" ++ nl
  ++ "- Use standard/widely-accepted transliteration conventions:" ++ nl
  ++ "  * For Latin/Roman output: use the most common romanization system for the source language "
  ++ "(e.g., Hepburn for Japanese, Pinyin for Chinese, IAST-inspired for Hindi/Sanskrit, "
  ++ "ISO 233 inspired for Arabic)" ++ nl
  ++ "  * For non-Latin output: use the standard script conventions of the target writing system" ++ nl
  ++ "- Preserve spacing, punctuation, and line breaks" ++ nl
  ++ "- Keep numbers as-is unless they are written in a non-Latin numeral system and target is Latin" ++ nl
  ++ "- Do NOT translate the meaning — only convert the script" ++ nl
  ++ "- Do NOT add any explanations, notes, or annotations" ++ nl ++ nl
  ++ "Return ONLY a JSON object with these keys:" ++ nl
  ++ "- " ++ dq ++ "source_script" ++ dq
  ++ ": the detected or confirmed source script name (e.g. "
  ++ dq ++ "Devanagari" ++ dq ++ ", " ++ dq ++ "Arabic" ++ dq ++ ", "
  ++ dq ++ "Katakana" ++ dq ++ ")" ++ nl
  ++ "- " ++ dq ++ "result" ++ dq ++ ": the transliterated text" ++ nl ++ nl
  ++ "Text to transliterate:" ++ nl ++ text.

(** Parse JSON from Gemini response. *)
Definition _parse_response (response_text : string) : PyExc + PyVal :=
  let cleaned := clean_response response_text in
  match json_loads cleaned with
  | inl e => inl e
  | inr parsed =>
      if negb (is_dict parsed) || negb (has_key "result" parsed)
         || negb (has_key "source_script" parsed)
      then inl (ValueError
        "Response must be a JSON object with 'result' and 'source_script' keys")
      else inr parsed
  end.

(** Transliterate text between scripts.
    Returns (success, transliterated_text, detected_source_script,
    error_message). *)
Definition transliterate (text source_script target_script : string)
  : M (bool * PyVal * PyVal * PyVal) :=
  try_except
    (response_text <- generate_text (prompt text source_script target_script) ;;
     result <- lift (_parse_response response_text) ;;
     ret (true, getitem result "result", getitem result "source_script", PyNone))
    (fun e =>
       let error_msg := "Transliteration failed: " ++ exc_str e in
       ret (false, PyNone, PyNone, PyStr error_msg)).
End Service.
End TransliterationService.

(** The end of services.py: the global instances, made when the module is
    imported. *)
Module Services.
Record t : Type := mk {
  translation_service : TranslationService.t;
  subtitle_translation_service : SubtitleTranslationService.t
}.

Definition load (settings : Settings.t) : PyExc + t :=
  and_so (TranslationService.init settings) (fun chipp =>
  and_so (SubtitleTranslationService.init settings) (fun subtitles =>
  and_so (TextTranslationService.init settings) (fun _ =>
  and_so (LanguageDetectionService.init settings) (fun _ =>
  and_so (TransliterationService.init settings) (fun _ =>
  inr (mk chipp subtitles)))))).
End Services.

(* ================================================================== *)
(** * main.py: the endpoints *)
(* ================================================================== *)

Module Main.
Section Endpoints.
Context {R : Runtime}.

Definition subtitle_translation_service : SubtitleTranslationService.t :=
  SubtitleTranslationService.instance.

(** POST /translate/subtitle *)
Definition translate_subtitles (request : SubtitleTranslationRequest.t)
  : M SubtitleTranslationResponse.t :=
  try_except
    (translated_cues <-
       SubtitleTranslationService.translate_subtitles
         subtitle_translation_service
         (SubtitleTranslationRequest.cues request)
         (SubtitleTranslationRequest.source_language request)
         (SubtitleTranslationRequest.target_language request)
         (SubtitleTranslationRequest.batch_size request) ;;
     lift (validated "SubtitleTranslationResponse"
             (SubtitleTranslationResponse.new true (Some translated_cues) PyNone)))
    (fun e =>
       lift (validated "SubtitleTranslationResponse"
               (SubtitleTranslationResponse.new false None (PyStr (exc_str e))))).

(** POST /detect/language *)
Definition detect_language (request : LanguageDetectionRequest.t)
  : M LanguageDetectionResponse.t :=
  try_except
    (r <- LanguageDetectionService.detect (LanguageDetectionRequest.text request) ;;
     let '(success, detected_language, confidence, error_message) := r in
     lift (validated "LanguageDetectionResponse"
             (LanguageDetectionResponse.new success detected_language
                confidence error_message)))
    (fun e =>
       lift (validated "LanguageDetectionResponse"
               (LanguageDetectionResponse.new false PyNone PyNone
                  (PyStr (exc_str e))))).

(** POST /transliterate *)
Definition transliterate_text (request : TransliterationRequest.t)
  : M TransliterationResponse.t :=
  try_except
    (r <- TransliterationService.transliterate
            (TransliterationRequest.text request)
            (TransliterationRequest.source_script request)
            (TransliterationRequest.target_script request) ;;
     let '(success, transliterated_text, source_script, error_message) := r in
     lift (validated "TransliterationResponse"
             (TransliterationResponse.new success transliterated_text
                (py_or source_script
                   (PyStr (TransliterationRequest.source_script request)))
                (PyStr (TransliterationRequest.target_script request))
                error_message)))
    (fun e =>
       lift (validated "TransliterationResponse"
               (TransliterationResponse.new false PyNone
                  (PyStr (TransliterationRequest.source_script request))
                  (PyStr (TransliterationRequest.target_script request))
                  (PyStr (exc_str e))))).

(** POST /translate/text *)
Definition translate_text_gemini (request : TextTranslationRequest.t)
  : M TextTranslationResponse.t :=
  try_except
    (r <- TextTranslationService.translate
            (TextTranslationRequest.text request)
            (TextTranslationRequest.source_language request)
            (TextTranslationRequest.target_language request) ;;
     let '(success, translated_text, error_message) := r in
     lift (validated "TextTranslationResponse"
             (TextTranslationResponse.new success translated_text
                (PyStr (TextTranslationRequest.source_language request))
                (PyStr (TextTranslationRequest.target_language request))
                error_message)))
    (fun e =>
       lift (validated "TextTranslationResponse"
               (TextTranslationResponse.new false PyNone
                  (PyStr (TextTranslationRequest.source_language request))
                  (PyStr (TextTranslationRequest.target_language request))
                  (PyStr (exc_str e))))).

(** [HTTPException(status_code=..., detail=...)] *)
Definition HTTPException (status_code : Z) (detail : string) : PyExc :=
  mkExc "HTTPException" (str_of_Z status_code ++ ": " ++ detail).

(** POST /translate (Chipp AI); [translation_service] is the global instance
    of services.py. *)
Definition translate_text {W : Web} (translation_service : TranslationService.t)
    (request : TranslationRequest.t) (net : Net)
  : (PyExc + TranslationResponse.t) * Net :=
  match TranslationService.translate translation_service
          (TranslationRequest.text request)
          (TranslationRequest.source_language request)
          (TranslationRequest.target_language request) net with
  | (inr (success, translated_text, error_message), net') =>
      match validated "TranslationResponse"
              (TranslationResponse.new success translated_text
                 (PyStr (TranslationRequest.source_language request))
                 (PyStr (TranslationRequest.target_language request))
                 (PyStr (TranslationRequest.text request))
                 error_message) with
      | inr response => (inr response, net')
      | inl e => (inl (HTTPException 500 (exc_str e)), net')
      end
  | (inl e, net') => (inl (HTTPException 500 (exc_str e)), net')
  end.
End Endpoints.
End Main.

(* ================================================================== *)
(** * A scripted runtime, for running the code on concrete inputs *)
(* ================================================================== *)

Module Mock.
(** The provider answers the calls with the outcomes of a script, in
    order. *)
Definition script : Type := list (PyExc + string).

Definition generate (prompt : string) (w : script) : (PyExc + string) * script :=
  match w with
  | r :: rest => (r, rest)
  | [] => (inl (RuntimeError "no response scripted"), [])
  end.

(** [json.loads] on the texts of a table, a JSONDecodeError elsewhere. *)
Fixpoint loads (table : list (string * PyVal)) (s : string) : PyExc + PyVal :=
  match table with
  | (text, v) :: rest => if String.eqb text s then inr v else loads rest s
  | [] => inl (mkExc "JSONDecodeError"
                 "Expecting value: line 1 column 1 (char 0)")
  end.

(** pydantic 2 on decoded JSON: a [str] field takes strings only. *)
Definition as_str (v : PyVal) : option string :=
  match v with PyStr s => Some s | _ => None end.

(** A [float] field takes the floats (the integers of the examples are
    not needed). *)
Definition as_float (v : PyVal) : option float :=
  match v with PyFloat f => Some f | _ => None end.

Definition describe (model : string) (errs : ErrorDetails) : string :=
  str_of_nat (List.length errs) ++ " validation error for " ++ model.

Definition runtime (table : list (string * PyVal)) : Runtime :=
  {| World := script;
     generate_content := generate;
     json_loads := loads table;
     json_dumps := fun texts => String.concat ", " texts;
     str_field := as_str;
     float_field := as_float;
     validation_str := describe;
     str_field_str := fun s => eq_refl;
     float_field_float := fun f => eq_refl |}.

(** A provider that answers every call with the empty array. *)
Definition steady (table : list (string * PyVal)) : Runtime :=
  {| World := unit;
     generate_content := fun _ w => (inr "[]", w);
     json_loads := loads table;
     json_dumps := fun texts => String.concat ", " texts;
     str_field := as_str;
     float_field := as_float;
     validation_str := describe;
     str_field_str := fun s => eq_refl;
     float_field_float := fun f => eq_refl |}.

(** The decoded values of the response texts used below. *)
Definition table : list (string * PyVal) :=
  [ ("[" ++ dq ++ "Hola" ++ dq ++ ", " ++ dq ++ "Mundo" ++ dq ++ "]",
     PyList [PyStr "Hola"; PyStr "Mundo"]);
    ("[" ++ dq ++ "Hola" ++ dq ++ "]", PyList [PyStr "Hola"]);
    ("[]", PyList []);
    ("{" ++ dq ++ "language" ++ dq ++ ": " ++ dq ++ "French" ++ dq ++ ", "
       ++ dq ++ "confidence" ++ dq ++ ": 0.5}",
     PyDict [("language", PyStr "French"); ("confidence", PyFloat 0.5)]);
    ("{" ++ dq ++ "language" ++ dq ++ ": " ++ dq ++ "French" ++ dq ++ ", "
       ++ dq ++ "confidence" ++ dq ++ ": 1.5}",
     PyDict [("language", PyStr "French"); ("confidence", PyFloat 1.5)]);
    ("{" ++ dq ++ "source_script" ++ dq ++ ": " ++ dq ++ "Devanagari" ++ dq ++ ", "
       ++ dq ++ "result" ++ dq ++ ": " ++ dq ++ "namaste" ++ dq ++ "}",
     PyDict [("source_script", PyStr "Devanagari"); ("result", PyStr "namaste")]);
    ("42", PyInt 42) ].

Definition start (w : script) : @St (runtime table) :=
  @mkSt (runtime table) w [].

(** Two cues and some answers of the provider. *)
Definition cues : list SubtitleCue.t :=
  [SubtitleCue.mk "1" "Hello"; SubtitleCue.mk "2" "World"].

Definition hola_mundo_text : string :=
  "[" ++ dq ++ "Hola" ++ dq ++ ", " ++ dq ++ "Mundo" ++ dq ++ "]".
Definition hola_mundo : PyExc + string := inr (fenced true hola_mundo_text).
Definition hola : PyExc + string :=
  inr ("[" ++ dq ++ "Hola" ++ dq ++ "]").
Definition unavailable : PyExc + string :=
  inl (mkExc "ServiceUnavailable" "503 The model is overloaded").
Definition quota_exceeded : PyExc + string :=
  inl (mkExc "ResourceExhausted" "429 You exceeded your current quota").

(** ** A scripted network, for the Chipp integration *)

Definition web_script : Type := list (PyExc + Httpx.Response).

Definition web_post (url : string) (timeout : float)
    (headers : list (string * string)) (data : PyVal) (net : web_script)
  : (PyExc + Httpx.Response) * web_script :=
  match net with
  | r :: rest => (r, rest)
  | [] => (inl (mkExc "ConnectError" "All connection attempts failed"), [])
  end.

(** The timeouts of httpx, and its other request errors. *)
Definition timeouts : list string :=
  ["TimeoutException"; "ConnectTimeout"; "ReadTimeout"; "WriteTimeout";
   "PoolTimeout"].
Definition request_errors : list string :=
  (timeouts ++ ["RequestError"; "TransportError"; "NetworkError";
                "ConnectError"; "ReadError"; "WriteError"; "CloseError";
                "ProtocolError"; "LocalProtocolError"; "RemoteProtocolError";
                "ProxyError"; "UnsupportedProtocol"; "DecodingError";
                "TooManyRedirects"])%list.

Definition web : Web :=
  {| Net := web_script;
     post := web_post;
     is_timeout_exception := fun e => existsb (String.eqb (exc_class e)) timeouts;
     is_request_error := fun e => existsb (String.eqb (exc_class e)) request_errors;
     format_value := fun v => match v with PyDict [] => "{}" | _ => "..." end;
     builtin_error_str := fun cls op v => op ++ " is not supported" |}.

Definition chipp : TranslationService.t :=
  TranslationService.mk "secret" "https://app.chipp.ai/api/v1/chat/completions"
    "translationforfree-10024994" 30%float.

(** A 200 response whose body decodes to [result]. *)
Definition ok_response (result : PyVal) : PyExc + Httpx.Response :=
  inr (Httpx.mkResponse 200 "(body)" (inr result)).

Definition chipp_answer (content : string) : PyVal :=
  PyDict [("choices",
           PyList [PyDict [("message",
                            PyDict [("role", PyStr "assistant");
                                    ("content", PyStr content)])]])].
End Mock.

(* ================================================================== *)
(** * Vocabulary of the properties *)
(* ================================================================== *)

Section Vocabulary.
Context {R : Runtime}.

(** The translated cue [tc] is the one the batch loop builds for the cue of
    [item] at index [fst item], given the parsed array. *)
Definition cue_ok (parsed : list PyVal) (item : nat * SubtitleCue.t)
    (tc : TranslatedCue.t) : Prop :=
  TranslatedCue.id tc = SubtitleCue.id (snd item)
  /\ TranslatedCue.text tc = SubtitleCue.text (snd item)
  /\ str_field (SubtitleTranslationService.pick_text parsed (fst item) (snd item))
     = Some (TranslatedCue.translated_text tc).

(** The translated cues [out] carry the ids and texts of [cues], in order. *)
Definition same_cues (cues : list SubtitleCue.t) (out : list TranslatedCue.t)
  : Prop :=
  List.length out = List.length cues
  /\ map TranslatedCue.id out = map SubtitleCue.id cues
  /\ map TranslatedCue.text out = map SubtitleCue.text cues.

(** A provider that answers every call with a text the batch parser reads
    as an array of strings. *)
Definition answers_well : Prop :=
  forall prompt w, exists txt w' texts,
    generate_content prompt w = (inr txt, w')
    /\ SubtitleTranslationService._parse_response txt = inr (map PyStr texts).

(** [ge=0, le=1] on a float. *)
Definition in_unit (f : float) : bool :=
  PrimFloat.leb 0%float f && PrimFloat.leb f 1%float.

(** The calls and sleeps of [c] attempts of the retry loop on one prompt,
    from attempt number [attempt] on: call, sleep 2, call, sleep 4, call ... *)
Fixpoint schedule_from (prompt : string) (attempt c : nat) : list Event :=
  match c with
  | 0 => []
  | S c' =>
      ((if (0 <? attempt)%nat then [Sleep (2 ^ attempt)] else [])
       ++ Generate prompt :: schedule_from prompt (S attempt) c')%list
  end.

Definition schedule (prompt : string) (c : nat) : list Event :=
  schedule_from prompt 0 c.

(** The number of provider calls in a trace. *)
Fixpoint calls (events : list Event) : nat :=
  match events with
  | Generate _ :: rest => S (calls rest)
  | Sleep _ :: rest => calls rest
  | [] => 0
  end.

(** The seconds slept in a trace. *)
Fixpoint seconds_slept (events : list Event) : nat :=
  match events with
  | Sleep n :: rest => n + seconds_slept rest
  | Generate _ :: rest => seconds_slept rest
  | [] => 0
  end.

(** The prompt of the batch translator for a batch. *)
Definition batch_call (source_lang target_lang : string)
    (batch : list SubtitleCue.t) : Event :=
  Generate (SubtitleTranslationService._build_prompt
              (map SubtitleCue.text batch) source_lang target_lang).

(** The state after one call of the provider. *)
Definition after_call (prompt : string) (w : World) (st : St) : St :=
  mkSt w (trace st ++ [Generate prompt]).
End Vocabulary.

(** An answer the code reads a translation from: an object whose "choices"
    is a list that starts with an object; the "message" of that object, or
    the empty object when there is none, is an object; and the "content" of
    the message, or the empty string when there is none, is the string
    [content]. *)
Definition answer_with (result : PyVal) (content : string) : Prop :=
  exists members choice more message,
    result = PyDict members
    /\ dict_get members "choices" = Some (PyList (PyDict choice :: more))
    /\ match dict_get choice "message" with Some m => m | None => PyDict [] end
       = PyDict message
    /\ match dict_get message "content" with Some c => c | None => PyStr "" end
       = PyStr content.

(* ================================================================== *)
(** * Facts about Python strings *)
(* ================================================================== *)

Section StringFacts.

Lemma append_nil_r (s : string) : s ++ "" = s.
Proof. induction s as [|c t IH]; simpl; [reflexivity | now rewrite IH]. Qed.

Lemma append_assoc (a b c : string) : (a ++ b) ++ c = a ++ (b ++ c).
Proof. induction a as [|x a IH]; simpl; [reflexivity | now rewrite IH]. Qed.

Lemma length_append (a b : string) :
  String.length (a ++ b) = String.length a + String.length b.
Proof. induction a as [|x a IH]; simpl; [reflexivity | now rewrite IH]. Qed.

Lemma strip_prefix_app (l r : string) : strip_prefix l (l ++ r) = Some r.
Proof.
  induction l as [|c l IH]; simpl; [reflexivity|].
  now rewrite Ascii.eqb_refl.
Qed.

Lemma strip_prefix_inv (l s r : string) :
  strip_prefix l s = Some r -> s = l ++ r.
Proof.
  revert s; induction l as [|c l IH]; intros s H; simpl in *.
  - now inversion H.
  - destruct s as [|d s]; [discriminate|].
    destruct (Ascii.eqb c d) eqn:E; [|discriminate].
    apply Ascii.eqb_eq in E; subst d. now rewrite (IH _ H).
Qed.

Lemma all_space_app (a b : string) :
  all_space (a ++ b) = all_space a && all_space b.
Proof.
  induction a as [|c a IH]; simpl; [reflexivity|].
  now rewrite IH, andb_assoc.
Qed.

Lemma lstrip_all_space (s : string) : all_space s = true -> lstrip s = "".
Proof.
  induction s as [|c t IH]; simpl; [reflexivity|].
  intros H; apply andb_true_iff in H as [Hc Ht]. now rewrite Hc, IH.
Qed.

Lemma lstrip_split (s : string) :
  exists u, s = u ++ lstrip s /\ all_space u = true.
Proof.
  induction s as [|c t [u [E Hu]]]; simpl.
  - now exists "".
  - destruct (is_space c) eqn:Hc.
    + exists (String c u); simpl. rewrite Hc, Hu. split; [now rewrite <- E | reflexivity].
    + now exists "".
Qed.

Lemma lstrip_idem (s : string) : lstrip (lstrip s) = lstrip s.
Proof.
  induction s as [|c t IH]; simpl; [reflexivity|].
  destruct (is_space c) eqn:Hc; [assumption|]. simpl. now rewrite Hc.
Qed.

Lemma lstrip_app (a b : string) :
  lstrip (a ++ b) = if all_space a then lstrip b else lstrip a ++ b.
Proof.
  induction a as [|c a IH]; simpl; [reflexivity|].
  destruct (is_space c); simpl; [assumption | reflexivity].
Qed.

Lemma rstrip_idem (s : string) : rstrip (rstrip s) = rstrip s.
Proof.
  induction s as [|c t IH]; simpl; [reflexivity|].
  destruct (rstrip t) as [|d r] eqn:E.
  - destruct (is_space c) eqn:Hc; simpl; [reflexivity | now rewrite Hc].
  - simpl in *. now rewrite IH.
Qed.

Lemma rstrip_all_space (w : string) : all_space w = true -> rstrip w = "".
Proof.
  induction w as [|c t IH]; simpl; [reflexivity|].
  intros H; apply andb_true_iff in H as [Hc Ht]. now rewrite (IH Ht), Hc.
Qed.

Lemma rstrip_app_space (a w : string) :
  all_space w = true -> rstrip (a ++ w) = rstrip a.
Proof.
  intros Hw. induction a as [|c a IH]; simpl.
  - now apply rstrip_all_space.
  - now rewrite IH.
Qed.

Lemma rstrip_app_fixed (x y : string) :
  rstrip y = y -> y <> "" -> rstrip (x ++ y) = x ++ y.
Proof.
  intros Hy Hne. induction x as [|c x IH]; simpl; [assumption|].
  rewrite IH. destruct (x ++ y) eqn:E; [|reflexivity].
  destruct x; simpl in E; [contradiction | discriminate].
Qed.

Lemma rstrip_length (s : string) : String.length (rstrip s) <= String.length s.
Proof.
  induction s as [|c t IH]; simpl; [lia|].
  destruct (rstrip t); [destruct (is_space c)|]; simpl in *; lia.
Qed.

Lemma rstrip_tail (c : ascii) (t : string) :
  rstrip (String c t) = String c t -> rstrip t = t.
Proof.
  simpl. destruct (rstrip t) as [|d r] eqn:E.
  - destruct (is_space c); [discriminate|]. intros H. now inversion H.
  - intros H. now inversion H.
Qed.

Lemma lstrip_rstrip_fixed (s : string) :
  lstrip s = s -> lstrip (rstrip s) = rstrip s.
Proof.
  destruct s as [|c t]; [reflexivity|]. simpl.
  destruct (is_space c) eqn:Hc.
  - intros H. pose proof (lstrip_split t) as [u [E _]].
    apply (f_equal String.length) in H. rewrite E in H at 2.
    simpl in H. rewrite length_append in H. lia.
  - intros _. destruct (rstrip t); simpl; now rewrite Hc.
Qed.

Lemma strip_idem (s : string) : strip (strip s) = strip s.
Proof.
  unfold strip.
  rewrite (lstrip_rstrip_fixed (lstrip_idem s)).
  apply rstrip_idem.
Qed.

Lemma strip_lstrip (s : string) : strip (lstrip s) = strip s.
Proof. unfold strip. now rewrite lstrip_idem. Qed.

Lemma rstrip_strip (s : string) : rstrip (strip s) = strip s.
Proof. unfold strip. apply rstrip_idem. Qed.

Lemma endswith_tail (c : ascii) (t suf : string) :
  endswith (String c t) suf = false -> endswith t suf = false.
Proof.
  simpl. intros H. apply orb_false_iff in H as [_ H].
  destruct t; assumption.
Qed.

Lemma endswith_app (x suf : string) : endswith (x ++ suf) suf = true.
Proof.
  induction x as [|c x IH]; simpl.
  - destruct suf; simpl; [reflexivity|].
    now rewrite Ascii.eqb_refl, String.eqb_refl.
  - rewrite IH. apply orb_true_r.
Qed.

End StringFacts.

(* ================================================================== *)
(** * Facts about the two fence patterns *)
(* ================================================================== *)

Section FenceFacts.
Import Re.

Lemma sub_from_unfold (pat : pattern) (pos : nat) (c : ascii) (t : string) :
  sub_from pat pos 0 (String c t) =
  match match_here pat pos (String c t) with
  | Some rest =>
      match String.length (String c t) - String.length rest with
      | S k => sub_from pat (S pos) k t
      | 0 => String c (sub_from pat (S pos) 0 t)
      end
  | None => String c (sub_from pat (S pos) 0 t)
  end.
Proof. reflexivity. Qed.

Lemma sub_from_skip (pat : pattern) (u rest : string) (pos : nat) :
  sub_from pat pos (String.length u) (u ++ rest)
  = sub_from pat (pos + String.length u) 0 rest.
Proof.
  revert pos; induction u as [|c u IH]; intros pos.
  - simpl. now rewrite Nat.add_0_r.
  - simpl String.length. rewrite Nat.add_succ_r. simpl. apply IH.
Qed.

(** A match of the non-empty text [String c u] is deleted and the search
    goes on after it. *)
Lemma sub_from_match (pat : pattern) (c : ascii) (u rest : string) (pos : nat) :
  match_here pat pos (String c u ++ rest) = Some rest ->
  sub_from pat pos 0 (String c u ++ rest)
  = sub_from pat (pos + S (String.length u)) 0 rest.
Proof.
  intros H. change (String c u ++ rest) with (String c (u ++ rest)) in *.
  rewrite sub_from_unfold, H.
  replace (String.length (String c (u ++ rest)) - String.length rest)
    with (S (String.length u))
    by (cbn [String.length]; rewrite length_append; lia).
  rewrite sub_from_skip. f_equal. lia.
Qed.

(** ** The leading fence *)

Lemma strip_prefix_nl_other (c : ascii) (t : string) :
  is_space c = false -> strip_prefix nl (String c t) = None.
Proof.
  intros Hc. unfold nl. cbn [strip_prefix].
  destruct (Ascii.eqb LF c) eqn:E; [|reflexivity].
  apply Ascii.eqb_eq in E; subst c. discriminate.
Qed.

Lemma star_space_optnl (x : string) (pos : nat) :
  star is_space (match_here [OptLit nl]) pos x = Some (lstrip x).
Proof.
  revert pos; induction x as [|c t IH]; intros pos; [reflexivity|].
  cbn [star lstrip]. destruct (is_space c) eqn:Hc.
  - now rewrite IH.
  - cbn [match_here]. now rewrite strip_prefix_nl_other.
Qed.

Lemma match_leading (s : string) :
  match_here LEADING_FENCE 0 s =
  match strip_prefix "```" s with
  | Some r => Some (after_leading_fence r)
  | None => None
  end.
Proof.
  unfold LEADING_FENCE, after_leading_fence.
  cbn [match_here Nat.eqb].
  destruct (strip_prefix "```" s) as [r|]; [|reflexivity].
  destruct (strip_prefix "json" r) as [r'|]; now rewrite !star_space_optnl.
Qed.

Lemma sub_leading_later (s : string) (pos : nat) :
  sub_from LEADING_FENCE (S pos) 0 s = s.
Proof.
  revert pos; induction s as [|c t IH]; intros pos; [reflexivity|].
  rewrite sub_from_unfold. cbn [LEADING_FENCE match_here Nat.eqb].
  now rewrite IH.
Qed.

Lemma sub_leading (s : string) :
  sub_empty LEADING_FENCE s =
  match strip_prefix "```" s with
  | Some r => after_leading_fence r
  | None => s
  end.
Proof.
  unfold sub_empty.
  destruct (strip_prefix "```" s) as [r|] eqn:E.
  - pose proof (match_leading s) as M. rewrite E in M.
    apply strip_prefix_inv in E.
    assert (exists u, r = u ++ after_leading_fence r) as [u Hu].
    { unfold after_leading_fence.
      destruct (strip_prefix "json" r) as [r'|] eqn:J.
      - apply strip_prefix_inv in J.
        destruct (lstrip_split r') as [v [Hv _]].
        exists ("json" ++ v). rewrite append_assoc, <- Hv. exact J.
      - destruct (lstrip_split r) as [v [Hv _]]. now exists v. }
    assert (s = String "`" ("``" ++ u) ++ after_leading_fence r) as Hs.
    { rewrite E. rewrite Hu at 1. reflexivity. }
    rewrite Hs in M |- *.
    rewrite (sub_from_match _ _ _ _ M). apply sub_leading_later.
  - destruct s as [|c t]; [reflexivity|].
    rewrite sub_from_unfold, match_leading, E. now rewrite sub_leading_later.
Qed.

(** ** The trailing fence *)

Lemma star_space_eol (w : string) (pos : nat) :
  star is_space (match_here [Eol]) pos w
  = if all_space w then Some "" else None.
Proof.
  revert pos; induction w as [|c t IH]; intros pos; [reflexivity|].
  simpl. destruct (is_space c) eqn:Hc; simpl.
  - rewrite IH. destruct (all_space t) eqn:Ht; [reflexivity|].
    unfold at_eol. simpl.
    destruct t as [|d t]; [discriminate|].
    now destruct (Ascii.eqb c LF).
  - unfold at_eol. simpl.
    destruct (Ascii.eqb c LF) eqn:E; [|reflexivity].
    apply Ascii.eqb_eq in E; subst c. discriminate.
Qed.

Lemma match_trailing (s : string) (pos : nat) :
  match_here TRAILING_FENCE pos s
  = if is_trailing_fence s then Some "" else None.
Proof.
  unfold TRAILING_FENCE, is_trailing_fence. cbn [match_here].
  destruct (strip_prefix nl s) as [r|] eqn:E.
  - destruct (strip_prefix "```" r) as [w|] eqn:F.
    + rewrite star_space_eol. destruct (all_space w); [reflexivity|].
      apply strip_prefix_inv in E. subst s. reflexivity.
    + apply strip_prefix_inv in E. subst s. reflexivity.
  - destruct (strip_prefix "```" s) as [w|]; [|reflexivity].
    rewrite star_space_eol. now destruct (all_space w).
Qed.

Lemma trailing_fence_rstrip (s : string) :
  is_trailing_fence s = true ->
  rstrip s = "```" \/ rstrip s = nl ++ "```".
Proof.
  unfold is_trailing_fence. intros H.
  destruct (strip_prefix nl s) as [r|] eqn:E.
  - destruct (strip_prefix "```" r) as [w|] eqn:F; [|discriminate].
    apply strip_prefix_inv in E, F. subst r s. right.
    rewrite <- append_assoc. now rewrite rstrip_app_space.
  - destruct (strip_prefix "```" s) as [w|] eqn:F; [|discriminate].
    apply strip_prefix_inv in F. subst s. left.
    now rewrite rstrip_app_space.
Qed.

Lemma sub_trailing_fixed (s : string) (pos : nat) :
  rstrip s = s -> endswith s "```" = false ->
  sub_from TRAILING_FENCE pos 0 s = s.
Proof.
  revert pos; induction s as [|c t IH]; intros pos Hr He; [reflexivity|].
  rewrite sub_from_unfold, match_trailing.
  destruct (is_trailing_fence (String c t)) eqn:F.
  - apply trailing_fence_rstrip in F. rewrite Hr in F.
    destruct F as [F|F]; rewrite F in He; discriminate.
  - rewrite IH; [reflexivity | now apply rstrip_tail with c
                | now apply endswith_tail with c].
Qed.

Lemma sub_trailing_wrap (body : string) (pos : nat) :
  sub_from TRAILING_FENCE pos 0 (body ++ nl ++ "```") = body.
Proof.
  revert pos; induction body as [|c b IH]; intros pos; [reflexivity|].
  change (String c b ++ nl ++ "```") with (String c (b ++ nl ++ "```")).
  rewrite sub_from_unfold, match_trailing.
  destruct (is_trailing_fence (String c (b ++ nl ++ "```"))) eqn:F.
  - apply trailing_fence_rstrip in F.
    change (String c (b ++ nl ++ "```"))
      with (String c b ++ nl ++ "```") in F.
    rewrite <- append_assoc in F.
    rewrite rstrip_app_fixed in F by (reflexivity || discriminate).
    destruct F as [F|F]; apply (f_equal String.length) in F;
      rewrite !length_append in F; simpl in F; lia.
  - now rewrite IH.
Qed.

(** ** The cleaned text *)

Lemma strip_fenced (tag : bool) (p : string) :
  strip (fenced tag p) = fenced tag p.
Proof.
  unfold strip.
  assert (lstrip (fenced tag p) = fenced tag p) as -> by reflexivity.
  unfold fenced.
  rewrite <- !append_assoc.
  apply rstrip_app_fixed; [reflexivity | discriminate].
Qed.

(** Cleaning a fenced payload leaves the stripped payload, whatever the
    payload is. *)
Lemma clean_fenced (tag : bool) (p : string) :
  clean_response (fenced tag p) = strip p.
Proof.
  unfold clean_response. rewrite strip_fenced, sub_leading.
  assert (strip_prefix "```" (fenced tag p)
          = Some ((if tag then "json" else "") ++ nl ++ p ++ nl ++ "```"))
    as -> by reflexivity.
  assert (after_leading_fence ((if tag then "json" else "") ++ nl ++ p ++ nl ++ "```")
          = lstrip (p ++ nl ++ "```")) as ->
    by (destruct tag; reflexivity).
  rewrite lstrip_app. destruct (all_space p) eqn:Hp.
  - unfold strip. rewrite (lstrip_all_space _ Hp). reflexivity.
  - unfold sub_empty. rewrite sub_trailing_wrap. apply strip_lstrip.
Qed.

(** Cleaning a bare payload only strips it. *)
Lemma clean_bare (p : string) : bare p -> clean_response p = strip p.
Proof.
  intros [Hs He]. unfold clean_response. rewrite sub_leading.
  unfold startswith in Hs.
  destruct (strip_prefix "```" (strip p)); [discriminate|].
  unfold sub_empty.
  rewrite sub_trailing_fixed; [apply strip_idem | apply rstrip_strip | exact He].
Qed.

End FenceFacts.

(* ================================================================== *)
(** * Batching *)
(* ================================================================== *)

Section Batching.
Variable A : Type.

Lemma firstn_add (a b : nat) (l : list A) :
  firstn (a + b) l = (firstn a l ++ firstn b (skipn a l))%list.
Proof.
  revert l; induction a as [|a IH]; intros l; [reflexivity|].
  destruct l as [|x l]; simpl.
  - now rewrite firstn_nil.
  - now rewrite IH.
Qed.

Lemma firstn_min_length (b : nat) (l : list A) :
  firstn (Nat.min (List.length l) b) l = firstn b l.
Proof.
  destruct (Nat.le_gt_cases b (List.length l)) as [H|H].
  - now rewrite Nat.min_r.
  - rewrite Nat.min_l by lia. now rewrite !firstn_all2 by lia.
Qed.

(** A slice with non-negative bounds [i] and [i + b]. *)
Lemma py_slice_chunk (l : list A) (i b : nat) :
  py_slice l (Z.of_nat i) (Z.of_nat i + Z.of_nat b) = firstn b (skipn i l).
Proof.
  unfold py_slice, clamp_index.
  destruct (Z.ltb_spec (Z.of_nat i) 0); [lia|].
  destruct (Z.ltb_spec (Z.of_nat i + Z.of_nat b) 0); [lia|].
  destruct (Nat.le_gt_cases i (List.length l)) as [Hi|Hi].
  - replace (Z.to_nat (Z.max 0 (Z.min (Z.of_nat (List.length l)) (Z.of_nat i))))
      with i by lia.
    replace (Z.to_nat _)
      with (Nat.min (List.length (skipn i l)) b)
      by (rewrite length_skipn; lia).
    apply firstn_min_length.
  - rewrite !skipn_all2 by lia. now rewrite !firstn_nil.
Qed.

Lemma concat_chunks (b m : nat) (l : list A) :
  concat (map (fun k => firstn b (skipn (k * b) l)) (seq 0 m))
  = firstn (m * b) l.
Proof.
  induction m as [|m IH]; [reflexivity|].
  rewrite seq_S, map_app, concat_app, IH. simpl.
  rewrite app_nil_r, (Nat.add_comm b). symmetry. apply firstn_add.
Qed.

(** The number of chunks [range(0, n, b)] has covers the list. *)
Lemma range_covers (n b : Z) :
  (1 <= b)%Z -> (0 <= n)%Z ->
  (n <= (if (0 <? n)%Z then (n - 0 - 1) / b + 1 else 0) * b)%Z.
Proof.
  intros Hb Hn. destruct (Z.ltb_spec 0 n); [|lia].
  pose proof (Z.mul_succ_div_gt (n - 0 - 1) b ltac:(lia)). lia.
Qed.
End Batching.

(* ================================================================== *)
(** * The batch translator *)
(* ================================================================== *)

Section BatchFacts.
Context {R : Runtime}.
Import SubtitleTranslationService.

Lemma new_translated_cue (i x : string) (v : PyVal) :
  TranslatedCue.new (PyStr i) (PyStr x) v =
  match str_field v with
  | Some y => inr (TranslatedCue.mk i x y)
  | None => inl [("translated_text", "Input should be a valid string")]
  end.
Proof.
  unfold TranslatedCue.new, required_str. rewrite !str_field_str.
  now destruct (str_field v).
Qed.

Lemma build_result_spec (items : list (nat * SubtitleCue.t))
    (parsed : list PyVal) (acc r : list TranslatedCue.t) :
  build_result items parsed acc = inr r ->
  exists r', r = (acc ++ r')%list /\ Forall2 (cue_ok parsed) items r'.
Proof.
  revert acc; induction items as [|[idx cue] rest IH]; intros acc H;
    cbn [build_result] in H.
  - inversion H; subst. exists []. now rewrite app_nil_r.
  - rewrite new_translated_cue in H.
    destruct (str_field (pick_text parsed idx cue)) as [y|] eqn:E;
      cbn [validated] in H; [|discriminate].
    destruct (IH _ H) as [r' [Hr HF]]. subst r.
    exists (TranslatedCue.mk (SubtitleCue.id cue) (SubtitleCue.text cue) y :: r').
    split; [now rewrite <- app_assoc|].
    constructor; [|assumption]. now repeat split.
Qed.

Lemma build_result_total (items : list (nat * SubtitleCue.t))
    (parsed : list PyVal) (acc : list TranslatedCue.t) :
  (forall item, In item items ->
     str_field (pick_text parsed (fst item) (snd item)) <> None) ->
  exists r, build_result items parsed acc = inr r.
Proof.
  revert acc; induction items as [|[idx cue] rest IH]; intros acc H;
    cbn [build_result].
  - now exists acc.
  - rewrite new_translated_cue.
    destruct (str_field (pick_text parsed idx cue)) as [y|] eqn:E.
    + cbn [validated]. apply IH. intros item Hin. apply H. now right.
    + exfalso. apply (H (idx, cue)); [now left | exact E].
Qed.

(** The result depends on the parsed array through [pick_text] only. *)
Lemma build_result_ext (items : list (nat * SubtitleCue.t))
    (parsed parsed' : list PyVal) (acc : list TranslatedCue.t) :
  (forall item, In item items ->
     pick_text parsed (fst item) (snd item)
     = pick_text parsed' (fst item) (snd item)) ->
  build_result items parsed acc = build_result items parsed' acc.
Proof.
  revert acc; induction items as [|[idx cue] rest IH]; intros acc H;
    [reflexivity|].
  cbn [build_result].
  pose proof (H (idx, cue) (or_introl eq_refl)) as E. cbn [fst snd] in E.
  rewrite E. destruct (validated _ _); [reflexivity|].
  apply IH. intros item Hin. apply H. now right.
Qed.

(** ** [enumerate] *)

Lemma combine_seq_snd (A : Type) (l : list A) (s : nat) :
  map snd (combine (seq s (List.length l)) l) = l.
Proof.
  revert s; induction l as [|x l IH]; intros s; [reflexivity|].
  simpl. now rewrite IH.
Qed.

Lemma combine_seq_nth (A : Type) (l : list A) (s i : nat) (x : A) :
  nth_error l i = Some x ->
  nth_error (combine (seq s (List.length l)) l) i = Some (s + i, x).
Proof.
  revert s i; induction l as [|y l IH]; intros s i H.
  - destruct i; discriminate.
  - destruct i as [|i]; simpl in *.
    + inversion H. now rewrite Nat.add_0_r.
    + rewrite (IH (S s) i H). f_equal. f_equal. lia.
Qed.

Lemma combine_seq_bound (A : Type) (l : list A) (s : nat) (item : nat * A) :
  In item (combine (seq s (List.length l)) l) ->
  fst item < s + List.length l.
Proof.
  revert s; induction l as [|y l IH]; intros s H; simpl in H; [contradiction|].
  destruct H as [H|H].
  - subst item. simpl. lia.
  - apply IH in H. simpl. lia.
Qed.

Lemma enumerate_snd (A : Type) (l : list A) : map snd (enumerate l) = l.
Proof. apply combine_seq_snd. Qed.

Lemma enumerate_nth (A : Type) (l : list A) (i : nat) (x : A) :
  nth_error l i = Some x -> nth_error (enumerate l) i = Some (i, x).
Proof. intros H. unfold enumerate. now rewrite (combine_seq_nth _ 0 _ H). Qed.

Lemma enumerate_bound (A : Type) (l : list A) (item : nat * A) :
  In item (enumerate l) -> fst item < List.length l.
Proof. intros H. now apply combine_seq_bound in H. Qed.

Lemma cue_ok_same (parsed : list PyVal) (cues : list SubtitleCue.t)
    (r : list TranslatedCue.t) :
  Forall2 (cue_ok parsed) (enumerate cues) r -> same_cues cues r.
Proof.
  intros HF. unfold same_cues.
  assert (map TranslatedCue.id r
          = map SubtitleCue.id (map snd (enumerate cues))
          /\ map TranslatedCue.text r
             = map SubtitleCue.text (map snd (enumerate cues)))
    as [Hi Ht].
  { induction HF as [|it tc its tcs [Hid [Htx _]] _ [IHi IHt]]; simpl.
    - now split.
    - now rewrite Hid, Htx, IHi, IHt. }
  rewrite enumerate_snd in Hi, Ht.
  repeat split; try assumption.
  apply Forall2_length in HF. rewrite <- HF.
  unfold enumerate. now rewrite length_combine, length_seq, Nat.min_id.
Qed.
End BatchFacts.

(* ================================================================== *)
(** * One batch, the retry loop and the batches of a request *)
(* ================================================================== *)

Section PipelineFacts.
Context {R : Runtime}.
Import SubtitleTranslationService.

Lemma same_cues_nil : same_cues [] [].
Proof. now repeat split. Qed.

Lemma same_cues_app (c1 c2 : list SubtitleCue.t) (o1 o2 : list TranslatedCue.t) :
  same_cues c1 o1 -> same_cues c2 o2 -> same_cues (c1 ++ c2) (o1 ++ o2).
Proof.
  intros [L1 [I1 T1]] [L2 [I2 T2]]. unfold same_cues.
  rewrite !length_app, !map_app. repeat split; congruence.
Qed.

(** One attempt calls the provider once and does nothing else. *)
Lemma translate_batch_trace (self : t) (cues : list SubtitleCue.t)
    (src tgt : string) (st st' : St) (res : PyExc + list TranslatedCue.t) :
  _translate_batch self cues src tgt st = (res, st') ->
  trace st' = (trace st
    ++ [Generate (_build_prompt (map SubtitleCue.text cues) src tgt)])%list.
Proof.
  unfold _translate_batch, bind, generate_text, lift.
  destruct (generate_content _ (world st)) as [[e|txt] w]; intros H.
  - now inversion H.
  - destruct (_parse_response txt); inversion H; reflexivity.
Qed.

Lemma translate_batch_same (self : t) (cues : list SubtitleCue.t)
    (src tgt : string) (st st' : St) (r : list TranslatedCue.t) :
  _translate_batch self cues src tgt st = (inr r, st') -> same_cues cues r.
Proof.
  unfold _translate_batch, bind, generate_text, lift.
  destruct (generate_content _ (world st)) as [[e|txt] w]; intros H;
    [discriminate|].
  destruct (_parse_response txt) as [e|parsed]; [discriminate|].
  inversion H as [[Hb Hs]].
  apply build_result_spec in Hb as [r' [-> HF]].
  now apply cue_ok_same with parsed.
Qed.

(** One turn of the retry loop. *)
Lemma retry_loop_cons (self : t) (cues : list SubtitleCue.t) (src tgt : string)
    (attempt : nat) (rest : list nat) (last : option PyExc) (st : St) :
  retry_loop self cues src tgt (attempt :: rest) last st =
  match _translate_batch self cues src tgt
          (if (0 <? attempt)%nat then slept (2 ^ attempt) st else st) with
  | (inr r, st') => (inr r, st')
  | (inl e, st') =>
      if non_retryable e then (inl e, st')
      else retry_loop self cues src tgt rest (Some e) st'
  end.
Proof.
  cbn [retry_loop]. unfold try_except, bind.
  destruct (0 <? attempt)%nat; cbn [asyncio_sleep ret];
    destruct (_translate_batch _ _ _ _ _) as [[e|r] st'];
    try reflexivity; now destruct (non_retryable e).
Qed.

Lemma retry_loop_same (self : t) (cues : list SubtitleCue.t) (src tgt : string)
    (attempts : list nat) (last : option PyExc) (st st' : St)
    (r : list TranslatedCue.t) :
  retry_loop self cues src tgt attempts last st = (inr r, st') ->
  same_cues cues r.
Proof.
  revert last st; induction attempts as [|a rest IH]; intros last st H.
  - cbn in H. discriminate.
  - rewrite retry_loop_cons in H.
    destruct (_translate_batch _ _ _ _ _) as [[e|r0] st0] eqn:E.
    + destruct (non_retryable e); [discriminate|]. now apply IH in H.
    + inversion H; subst. now apply translate_batch_same in E.
Qed.

Lemma translate_batches_same (self : t) (batches : list (list SubtitleCue.t))
    (src tgt : string) (acc out : list TranslatedCue.t) (st st' : St) :
  translate_batches self batches src tgt acc st = (inr out, st') ->
  exists out', out = (acc ++ out')%list /\ same_cues (concat batches) out'.
Proof.
  revert acc st; induction batches as [|b rest IH]; intros acc st H.
  - cbn in H. inversion H; subst. exists []. rewrite app_nil_r.
    split; [reflexivity | apply same_cues_nil].
  - cbn [translate_batches] in H. unfold bind in H.
    destruct (_translate_batch_with_retry self b src tgt st) as [[e|r] st0] eqn:E;
      [discriminate|].
    apply retry_loop_same in E.
    apply IH in H as [out' [-> Hs]].
    exists (r ++ out')%list. split; [now rewrite app_assoc|].
    cbn [concat]. now apply same_cues_app.
Qed.

(** The batches before a failing one do not matter to the outcome. *)
Lemma translate_batches_app (self : t) (pre post : list (list SubtitleCue.t))
    (src tgt : string) (acc : list TranslatedCue.t) (st : St) :
  translate_batches self (pre ++ post) src tgt acc st =
  match translate_batches self pre src tgt acc st with
  | (inr done, st') => translate_batches self post src tgt done st'
  | (inl e, st') => (inl e, st')
  end.
Proof.
  revert acc st; induction pre as [|b pre IH]; intros acc st; [reflexivity|].
  cbn [app translate_batches]. unfold bind.
  destruct (_translate_batch_with_retry self b src tgt st) as [[e|r] st0];
    [reflexivity | apply IH].
Qed.

(** With a batch size of at least 1 the batches partition the cues. *)
Lemma make_batches_concat (cues : list SubtitleCue.t) (batch_size : Z) :
  (1 <= batch_size)%Z ->
  exists batches,
    make_batches cues batch_size = inr batches /\ concat batches = cues.
Proof.
  intros Hb. unfold make_batches, py_range.
  destruct (Z.eqb_spec batch_size 0) as [Hz|Hz]; [lia|].
  destruct (Z.ltb_spec 0 batch_size) as [Hp|Hp]; [|lia].
  eexists; split; [reflexivity|].
  set (n := Z.of_nat (List.length cues)).
  set (len := Z.to_nat _).
  rewrite map_map.
  rewrite map_ext with
    (g := fun k => firstn (Z.to_nat batch_size)
                     (skipn (k * Z.to_nat batch_size) cues)).
  - rewrite concat_chunks. apply firstn_all2.
    pose proof (@range_covers n batch_size Hb ltac:(lia)) as Hc.
    subst len n.
    destruct (Z.ltb_spec 0 (Z.of_nat (List.length cues))); nia.
  - intros k.
    rewrite <- (py_slice_chunk cues (k * Z.to_nat batch_size) (Z.to_nat batch_size)).
    rewrite Nat2Z.inj_mul, Z2Nat.id by lia. reflexivity.
Qed.
End PipelineFacts.

(* ================================================================== *)
(** * Properties of the pipeline *)
(* ================================================================== *)

Section Helpers.
Context {R : Runtime}.
Import SubtitleTranslationService.

Lemma Forall2_nth_error (A B : Type) (P : A -> B -> Prop) (l : list A)
    (l' : list B) (i : nat) (a : A) :
  Forall2 P l l' -> nth_error l i = Some a ->
  exists b, nth_error l' i = Some b /\ P a b.
Proof.
  intros HF; revert i; induction HF as [|x y l l' Hxy _ IH]; intros i H.
  - destruct i; discriminate.
  - destruct i as [|i]; simpl in *.
    + inversion H; subst. now exists y.
    + now apply IH.
Qed.

Lemma pick_text_str (texts : list string) (i : nat) (cue : SubtitleCue.t) :
  pick_text (map PyStr texts) i cue
  = PyStr (if (i <? List.length texts)%nat then nth i texts ""
           else SubtitleCue.text cue).
Proof.
  unfold pick_text. rewrite length_map.
  destruct (Nat.ltb_spec i (List.length texts)) as [H|H]; [|reflexivity].
  rewrite (nth_indep _ PyNone (PyStr "")) by now rewrite length_map.
  apply map_nth.
Qed.

Lemma pick_text_beyond (parsed : list PyVal) (i : nat) (cue : SubtitleCue.t) :
  List.length parsed <= i -> pick_text parsed i cue = PyStr (SubtitleCue.text cue).
Proof.
  intros H. unfold pick_text.
  now destruct (Nat.ltb_spec i (List.length parsed)) as [H'|H']; [lia|].
Qed.

Lemma pick_text_app (parsed extra : list PyVal) (i : nat) (cue : SubtitleCue.t) :
  i < List.length parsed ->
  pick_text (parsed ++ extra) i cue = pick_text parsed i cue.
Proof.
  intros H. unfold pick_text. rewrite length_app.
  destruct (Nat.ltb_spec i (List.length parsed + List.length extra)); [|lia].
  destruct (Nat.ltb_spec i (List.length parsed)); [|lia].
  now apply app_nth1.
Qed.

(** What the batch loop gives at position [i]. *)
Lemma build_result_nth (cues : list SubtitleCue.t) (parsed : list PyVal)
    (r : list TranslatedCue.t) (i : nat) (cue : SubtitleCue.t) :
  build_result (enumerate cues) parsed [] = inr r ->
  nth_error cues i = Some cue ->
  exists tc, nth_error r i = Some tc
    /\ TranslatedCue.id tc = SubtitleCue.id cue
    /\ TranslatedCue.text tc = SubtitleCue.text cue
    /\ str_field (pick_text parsed i cue) = Some (TranslatedCue.translated_text tc).
Proof.
  intros Hb Hi. apply build_result_spec in Hb as [r' [-> HF]]. simpl.
  apply enumerate_nth in Hi.
  destruct (Forall2_nth_error _ HF Hi) as [tc [Hn [H1 [H2 H3]]]].
  now exists tc.
Qed.

(** A batch whose call returned [txt], parsed as [parsed]. *)
Lemma translate_batch_parsed (self : t) (cues : list SubtitleCue.t)
    (src tgt txt : string) (st : St) (w' : World) (parsed : list PyVal) :
  generate_content (_build_prompt (map SubtitleCue.text cues) src tgt) (world st)
    = (inr txt, w') ->
  _parse_response txt = inr parsed ->
  _translate_batch self cues src tgt st
  = (build_result (enumerate cues) parsed [],
     mkSt w' (trace st
       ++ [Generate (_build_prompt (map SubtitleCue.text cues) src tgt)])).
Proof.
  intros Hg Hp. unfold _translate_batch, bind, generate_text, lift.
  now rewrite Hg, Hp.
Qed.

(** ** The pipeline returns when the provider answers well *)

Lemma translate_batch_returns (self : t) (cues : list SubtitleCue.t)
    (src tgt : string) (st : St) :
  answers_well ->
  exists r st', _translate_batch self cues src tgt st = (inr r, st').
Proof.
  intros Hw.
  destruct (Hw (_build_prompt (map SubtitleCue.text cues) src tgt) (world st))
    as [txt [w' [texts [Hg Hp]]]].
  rewrite (translate_batch_parsed self cues src tgt st Hg Hp).
  destruct (@build_result_total R (enumerate cues) (map PyStr texts) [])
    as [r Hr].
  { intros item _. rewrite pick_text_str, str_field_str. discriminate. }
  rewrite Hr. now do 2 eexists.
Qed.

Lemma retry_returns (self : t) (cues : list SubtitleCue.t) (src tgt : string)
    (st : St) :
  answers_well -> 0 < MAX_RETRIES self ->
  exists r st', _translate_batch_with_retry self cues src tgt st = (inr r, st').
Proof.
  intros Hw Hmax. unfold _translate_batch_with_retry.
  destruct (MAX_RETRIES self) as [|n]; [lia|].
  cbn [seq]. rewrite retry_loop_cons. cbn [Nat.ltb Nat.leb].
  destruct (translate_batch_returns self cues src tgt st Hw) as [r [st' ->]].
  now do 2 eexists.
Qed.

Lemma translate_batches_returns (self : t) (batches : list (list SubtitleCue.t))
    (src tgt : string) (acc : list TranslatedCue.t) (st : St) :
  answers_well -> 0 < MAX_RETRIES self ->
  exists out st', translate_batches self batches src tgt acc st = (inr out, st').
Proof.
  intros Hw Hmax. revert acc st.
  induction batches as [|b rest IH]; intros acc st.
  - now do 2 eexists.
  - cbn [translate_batches]. unfold bind.
    destruct (retry_returns self b src tgt st Hw Hmax) as [r [st' ->]].
    apply IH.
Qed.

Lemma translate_subtitles_returns (self : t) (cues : list SubtitleCue.t)
    (src tgt : string) (batch_size : Z) (st : St) :
  answers_well -> 0 < MAX_RETRIES self -> (1 <= batch_size)%Z ->
  exists out st',
    translate_subtitles self cues src tgt batch_size st = (inr out, st').
Proof.
  intros Hw Hmax Hb.
  destruct (make_batches_concat cues Hb) as [batches [Hm _]].
  unfold translate_subtitles, bind, lift. rewrite Hm.
  now apply translate_batches_returns.
Qed.
End Helpers.

Example steady_provider_answers_well : @answers_well (Mock.steady Mock.table).
Proof. intros prompt w. exists "[]", w, []. now split. Qed.

(** C1: for a non-empty list of cues and a batch size from 1 to 100, the list
    translate_subtitles returns has the length of the input, and its element
    at position i carries the id and the text of the input cue at position i;
    the batches it is concatenated from partition the cues in order. *)
Theorem translate_subtitles_keeps_cues {R : Runtime}
    (self : SubtitleTranslationService.t) (cues : list SubtitleCue.t)
    (source_language target_language : string) (batch_size : Z)
    (st st' : St) (out : list TranslatedCue.t) :
  cues <> [] -> (1 <= batch_size <= 100)%Z ->
  SubtitleTranslationService.translate_subtitles self cues
    source_language target_language batch_size st = (inr out, st') ->
  List.length out = List.length cues
  /\ map TranslatedCue.id out = map SubtitleCue.id cues
  /\ map TranslatedCue.text out = map SubtitleCue.text cues
  /\ (forall i cue, nth_error cues i = Some cue ->
        exists tc, nth_error out i = Some tc
          /\ TranslatedCue.id tc = SubtitleCue.id cue
          /\ TranslatedCue.text tc = SubtitleCue.text cue)
  /\ (exists batches,
        SubtitleTranslationService.make_batches cues batch_size = inr batches
        /\ concat batches = cues).
Proof.
  intros _ [Hb _] H.
  destruct (make_batches_concat cues Hb) as [batches [Hm Hc]].
  unfold SubtitleTranslationService.translate_subtitles, bind, lift in H.
  rewrite Hm in H.
  apply translate_batches_same in H as [out' [-> [HL [HI HT]]]].
  rewrite Hc in HL, HI, HT. simpl.
  repeat split; try assumption.
  - intros i cue Hi.
    assert (i < List.length out') as Hlt
      by (rewrite HL; apply nth_error_Some; congruence).
    destruct (nth_error out' i) as [tc|] eqn:E;
      [|apply nth_error_None in E; lia].
    exists tc. split; [reflexivity|].
    pose proof (map_nth_error TranslatedCue.id _ _ E) as E1.
    pose proof (map_nth_error TranslatedCue.text _ _ E) as E2.
    pose proof (map_nth_error SubtitleCue.id _ _ Hi) as H1.
    pose proof (map_nth_error SubtitleCue.text _ _ Hi) as H2.
    rewrite HI in E1. rewrite HT in E2. split; congruence.
  - now exists batches.
Qed.

Lemma translate_subtitles_keeps_cues_witness :
  exists out st',
    SubtitleTranslationService.translate_subtitles
      SubtitleTranslationService.instance Mock.cues "English" "Spanish" 1
      (Mock.start [Mock.unavailable; Mock.hola; Mock.hola_mundo])
    = (inr out, st')
    /\ List.length out = 2
    /\ map TranslatedCue.id out = ["1"; "2"].
Proof.
  eexists; eexists.
  assert (Mock.cues <> []) as Hne by discriminate.
  assert (1 <= 1 <= 100)%Z as Hb by lia.
  split; [reflexivity|].
  pose proof (translate_subtitles_keeps_cues
                SubtitleTranslationService.instance "English" "Spanish"
                (Mock.start [Mock.unavailable; Mock.hola; Mock.hola_mundo])
                Hne Hb eq_refl) as [HL [HI _]].
  split; [exact HL | exact HI].
Defined.

(** C2: a batch whose response parses to an array of strings does not fail,
    however many entries the array has: the cue at index i gets entry i of
    the array when there is one and its own original text exactly when the
    array is too short, and the entries beyond the length of the batch are
    ignored.  For an arbitrary parsed array, a cue at an index beyond the
    array still gets its own text whenever the batch returns, and entries
    beyond the length of the batch never change the outcome. *)
Theorem short_array_falls_back_to_original {R : Runtime}
    (self : SubtitleTranslationService.t) (cues : list SubtitleCue.t)
    (source_lang target_lang response_text : string) (st : St) (w' : World)
    (parsed : list PyVal) :
  generate_content
    (SubtitleTranslationService._build_prompt (map SubtitleCue.text cues)
       source_lang target_lang) (world st) = (inr response_text, w') ->
  SubtitleTranslationService._parse_response response_text = inr parsed ->
  (forall texts, parsed = map PyStr texts ->
     exists r st',
       SubtitleTranslationService._translate_batch self cues
         source_lang target_lang st = (inr r, st')
       /\ List.length r = List.length cues
       /\ forall i cue, nth_error cues i = Some cue ->
            nth_error (map TranslatedCue.translated_text r) i
            = Some (if (i <? List.length texts)%nat then nth i texts ""
                    else SubtitleCue.text cue))
  /\ (forall r st',
        SubtitleTranslationService._translate_batch self cues
          source_lang target_lang st = (inr r, st') ->
        forall i cue, List.length parsed <= i -> nth_error cues i = Some cue ->
          nth_error (map TranslatedCue.translated_text r) i
          = Some (SubtitleCue.text cue))
  /\ (forall kept extra, parsed = (kept ++ extra)%list ->
        List.length kept = List.length cues ->
        SubtitleTranslationService.build_result (enumerate cues) parsed []
        = SubtitleTranslationService.build_result (enumerate cues) kept []).
Proof.
  intros Hg Hp.
  pose proof (translate_batch_parsed self cues source_lang target_lang st Hg Hp)
    as Hrun.
  split; [|split].
  - intros texts ->.
    destruct (@build_result_total R (enumerate cues) (map PyStr texts) [])
      as [r Hr].
    { intros item _. rewrite pick_text_str, str_field_str. discriminate. }
    exists r. eexists. split; [rewrite Hrun, Hr; reflexivity|].
    split.
    + pose proof Hr as Hs. apply build_result_spec in Hs as [r' [-> HF]].
      now apply cue_ok_same in HF as [HL _].
    + intros i cue Hi.
      destruct (build_result_nth _ _ _ Hr Hi) as [tc [Hn [_ [_ Ht]]]].
      rewrite pick_text_str, str_field_str in Ht.
      rewrite (map_nth_error _ _ _ Hn). congruence.
  - intros r st' Hb i cue Hlen Hi. rewrite Hrun in Hb.
    inversion Hb as [[Hr Hst]].
    destruct (build_result_nth _ _ _ Hr Hi) as [tc [Hn [_ [_ Ht]]]].
    rewrite pick_text_beyond, str_field_str in Ht by assumption.
    rewrite (map_nth_error _ _ _ Hn). congruence.
  - intros kept extra -> Hlen.
    apply build_result_ext. intros item Hin.
    apply pick_text_app. apply enumerate_bound in Hin. lia.
Qed.

Lemma short_array_falls_back_to_original_witness :
  exists r st',
    SubtitleTranslationService._translate_batch
      SubtitleTranslationService.instance Mock.cues "English" "Spanish"
      (Mock.start [Mock.hola]) = (inr r, st')
    /\ List.length r = 2
    /\ nth_error (map TranslatedCue.translated_text r) 1 = Some "World".
Proof.
  assert (Mock.loads Mock.table
            (clean_response ("[" ++ dq ++ "Hola" ++ dq ++ "]"))
          = inr (PyList [PyStr "Hola"])) as Hl by reflexivity.
  destruct (@short_array_falls_back_to_original (Mock.runtime Mock.table)
              SubtitleTranslationService.instance Mock.cues
              "English" "Spanish" ("[" ++ dq ++ "Hola" ++ dq ++ "]")
              (Mock.start [Mock.hola]) [] [PyStr "Hola"] eq_refl
              ltac:(unfold SubtitleTranslationService._parse_response;
                    cbn [json_loads Mock.runtime]; rewrite Hl; reflexivity))
    as [H _].
  destruct (H ["Hola"] eq_refl) as [r [st' [Hrun [HL Hn]]]].
  exists r, st'. split; [exact Hrun|]. split; [exact HL|].
  exact (Hn 1 (SubtitleCue.mk "2" "World") eq_refl).
Defined.

(** C3: with MAX_RETRIES = 3, when the batch call fails with a retryable
    error at each of the three attempts, the retry wrapper makes exactly
    three attempts, sleeps exactly twice, 2 time units before the second
    attempt and 4 before the third, and then raises the error of the last
    attempt. *)
Theorem retry_three_attempts_then_raises {R : Runtime}
    (cues : list SubtitleCue.t) (source_lang target_lang : string)
    (st0 st1 st2 st3 : St) (e1 e2 e3 : PyExc) :
  let self := SubtitleTranslationService.instance in
  let attempt := SubtitleTranslationService._translate_batch self cues
                   source_lang target_lang in
  let call := Generate (SubtitleTranslationService._build_prompt
                          (map SubtitleCue.text cues) source_lang target_lang) in
  attempt st0 = (inl e1, st1) ->
  SubtitleTranslationService.non_retryable e1 = false ->
  attempt (slept 2 st1) = (inl e2, st2) ->
  SubtitleTranslationService.non_retryable e2 = false ->
  attempt (slept 4 st2) = (inl e3, st3) ->
  SubtitleTranslationService.non_retryable e3 = false ->
  SubtitleTranslationService._translate_batch_with_retry self cues
    source_lang target_lang st0 = (inl e3, st3)
  /\ trace st3 = (trace st0 ++ [call; Sleep 2; call; Sleep 4; call])%list.
Proof.
  intros self attempt call H1 N1 H2 N2 H3 N3. subst attempt. split.
  - unfold SubtitleTranslationService._translate_batch_with_retry.
    change (seq 0 (SubtitleTranslationService.MAX_RETRIES self)) with [0; 1; 2].
    rewrite retry_loop_cons. cbn [Nat.ltb Nat.leb]. rewrite H1, N1.
    rewrite retry_loop_cons.
    change (if (0 <? 1)%nat then slept (2 ^ 1) st1 else st1) with (slept 2 st1).
    rewrite H2, N2.
    rewrite retry_loop_cons.
    change (if (0 <? 2)%nat then slept (2 ^ 2) st2 else st2) with (slept 4 st2).
    rewrite H3, N3. reflexivity.
  - apply translate_batch_trace in H1, H2, H3.
    rewrite H3. cbn [slept trace]. rewrite H2. cbn [slept trace]. rewrite H1.
    subst call. now rewrite <- !app_assoc.
Qed.

Lemma retry_three_attempts_then_raises_witness :
  exists st3,
    SubtitleTranslationService._translate_batch_with_retry
      SubtitleTranslationService.instance Mock.cues "English" "Spanish"
      (Mock.start [Mock.unavailable; Mock.unavailable; Mock.unavailable; Mock.hola_mundo])
    = (inl (mkExc "ServiceUnavailable" "503 The model is overloaded"), st3)
    /\ List.length (trace st3) = 5
    /\ world st3 = [Mock.hola_mundo].
Proof.
  eexists.
  pose proof (@retry_three_attempts_then_raises (Mock.runtime Mock.table)
                Mock.cues "English" "Spanish"
                (Mock.start [Mock.unavailable; Mock.unavailable;
                             Mock.unavailable; Mock.hola_mundo])
                _ _ _ _ _ _
                eq_refl eq_refl eq_refl eq_refl eq_refl eq_refl) as [Hrun Htr].
  split; [exact Hrun|]. split; [rewrite Htr; reflexivity | reflexivity].
Defined.

(** C4: an attempt that fails with an error whose message contains "API key"
    or "quota" ends the retry wrapper at once, whatever MAX_RETRIES is (as
    long as there is an attempt at all): the wrapper raises that very error
    and leaves the state as the failing attempt left it, so no further call
    and no sleep follows.  This holds for the first attempt and for any
    later turn of the loop. *)
Theorem auth_or_quota_error_is_not_retried {R : Runtime}
    (self : SubtitleTranslationService.t) (cues : list SubtitleCue.t)
    (source_lang target_lang : string) (e : PyExc) :
  contains "API key" (exc_str e) = true \/ contains "quota" (exc_str e) = true ->
  (forall st st',
     0 < SubtitleTranslationService.MAX_RETRIES self ->
     SubtitleTranslationService._translate_batch self cues
       source_lang target_lang st = (inl e, st') ->
     SubtitleTranslationService._translate_batch_with_retry self cues
       source_lang target_lang st = (inl e, st')
     /\ trace st' = (trace st ++ [Generate
          (SubtitleTranslationService._build_prompt
             (map SubtitleCue.text cues) source_lang target_lang)])%list)
  /\ (forall attempt rest last st st',
        SubtitleTranslationService._translate_batch self cues
          source_lang target_lang
          (if (0 <? attempt)%nat then slept (2 ^ attempt) st else st)
        = (inl e, st') ->
        SubtitleTranslationService.retry_loop self cues
          source_lang target_lang (attempt :: rest) last st = (inl e, st')).
Proof.
  intros He.
  assert (SubtitleTranslationService.non_retryable e = true) as Hn.
  { unfold SubtitleTranslationService.non_retryable.
    destruct He as [-> | ->]; [reflexivity | apply orb_true_r]. }
  split.
  - intros st st' Hmax H. split.
    + unfold SubtitleTranslationService._translate_batch_with_retry.
      destruct (SubtitleTranslationService.MAX_RETRIES self) as [|n]; [lia|].
      cbn [seq]. rewrite retry_loop_cons. cbn [Nat.ltb Nat.leb].
      now rewrite H, Hn.
    + now apply translate_batch_trace in H.
  - intros attempt rest last st st' H.
    rewrite retry_loop_cons. now rewrite H, Hn.
Qed.

Lemma auth_or_quota_error_is_not_retried_witness :
  exists st',
    SubtitleTranslationService._translate_batch_with_retry
      SubtitleTranslationService.instance Mock.cues "English" "Spanish"
      (Mock.start [Mock.quota_exceeded; Mock.hola_mundo])
    = (inl (mkExc "ResourceExhausted" "429 You exceeded your current quota"), st')
    /\ List.length (trace st') = 1
    /\ world st' = [Mock.hola_mundo].
Proof.
  eexists.
  destruct (@auth_or_quota_error_is_not_retried (Mock.runtime Mock.table)
              SubtitleTranslationService.instance Mock.cues "English" "Spanish"
              (mkExc "ResourceExhausted" "429 You exceeded your current quota")
              (or_intror eq_refl)) as [H _].
  destruct (H (Mock.start [Mock.quota_exceeded; Mock.hola_mundo]) _
              ltac:(cbn; lia) eq_refl) as [Hrun Htr].
  split; [exact Hrun|]. split; [rewrite Htr; reflexivity | reflexivity].
Defined.

(** C5 (as the code has it): the response parser trims the text, strips
    exactly one leading fence (three backticks, with or without the tag
    json, and the newline) and exactly one trailing fence, and trims again:
    a payload with no fence of its own parses the same wrapped in such fences
    as unwrapped, for each of the three parsers; of two nested pairs of
    fences only the outer one is removed. *)
Theorem fenced_payload_parses_like_bare_payload {R : Runtime}
    (tag : bool) (payload : string) :
  bare payload ->
  clean_response (fenced tag payload) = strip payload
  /\ clean_response payload = strip payload
  /\ SubtitleTranslationService._parse_response (fenced tag payload)
     = SubtitleTranslationService._parse_response payload
  /\ LanguageDetectionService._parse_response (fenced tag payload)
     = LanguageDetectionService._parse_response payload
  /\ TransliterationService._parse_response (fenced tag payload)
     = TransliterationService._parse_response payload
  /\ (forall outer, clean_response (fenced outer (fenced tag payload))
                    = fenced tag payload).
Proof.
  intros Hb.
  pose proof (clean_fenced tag payload) as Hf.
  pose proof (clean_bare Hb) as Hp.
  repeat split; try assumption.
  - unfold SubtitleTranslationService._parse_response. now rewrite Hf, Hp.
  - unfold LanguageDetectionService._parse_response. now rewrite Hf, Hp.
  - unfold TransliterationService._parse_response. now rewrite Hf, Hp.
  - intros outer. rewrite clean_fenced. apply strip_fenced.
Qed.

Lemma fenced_payload_parses_like_bare_payload_witness :
  @SubtitleTranslationService._parse_response (Mock.runtime Mock.table)
    (fenced true Mock.hola_mundo_text)
  = inr [PyStr "Hola"; PyStr "Mundo"]
  /\ @SubtitleTranslationService._parse_response (Mock.runtime Mock.table)
       (fenced false (" " ++ Mock.hola_mundo_text ++ nl))
     = inr [PyStr "Hola"; PyStr "Mundo"].
Proof.
  assert (bare Mock.hola_mundo_text) as B1 by (split; reflexivity).
  assert (bare (" " ++ Mock.hola_mundo_text ++ nl)) as B2
    by (split; reflexivity).
  destruct (@fenced_payload_parses_like_bare_payload (Mock.runtime Mock.table)
              true Mock.hola_mundo_text B1) as [_ [_ [H1 _]]].
  destruct (@fenced_payload_parses_like_bare_payload (Mock.runtime Mock.table)
              false (" " ++ Mock.hola_mundo_text ++ nl) B2) as [_ [_ [H2 _]]].
  split; [rewrite H1 | rewrite H2]; reflexivity.
Defined.

(** C5, read for every accepted payload and every language tag, does not
    hold.  The payload [[]] is accepted, but wrapped in fences whose language
    tag is python it is not: the only tag the pattern knows is json.  And the
    fenced text of [[]] is accepted as well, but wrapped in fences once more
    it is not: only the outer pair is stripped. *)
Lemma other_tag_or_second_fence_is_not_stripped :
  @SubtitleTranslationService._parse_response (Mock.runtime Mock.table) "[]"
  = inr []
  /\ @SubtitleTranslationService._parse_response (Mock.runtime Mock.table)
       ("```python" ++ nl ++ "[]" ++ nl ++ "```")
     = inl (mkExc "JSONDecodeError" "Expecting value: line 1 column 1 (char 0)")
  /\ @SubtitleTranslationService._parse_response (Mock.runtime Mock.table)
       (fenced true "[]")
     = inr []
  /\ @SubtitleTranslationService._parse_response (Mock.runtime Mock.table)
       (fenced true (fenced true "[]"))
     = inl (mkExc "JSONDecodeError" "Expecting value: line 1 column 1 (char 0)").
Proof. repeat split; reflexivity. Qed.

(** C6: when the cleaned response decodes to a JSON value, the batch parser
    raises a ValueError unless the value is an array, the detection parser
    raises one unless it is an object with the keys "language" and
    "confidence", and the transliteration parser raises one unless it is an
    object with the keys "result" and "source_script"; a parser that returns
    returns the decoded value itself, never a coerced one. *)
Theorem wrong_shape_raises {R : Runtime} (response_text : string) (v : PyVal) :
  json_loads (clean_response response_text) = inr v ->
  (is_list v = false ->
     SubtitleTranslationService._parse_response response_text
     = inl (ValueError "Response is not a JSON array"))
  /\ (is_dict v && has_key "language" v && has_key "confidence" v = false ->
        LanguageDetectionService._parse_response response_text
        = inl (ValueError
            "Response must be a JSON object with 'language' and 'confidence' keys"))
  /\ (is_dict v && has_key "result" v && has_key "source_script" v = false ->
        TransliterationService._parse_response response_text
        = inl (ValueError
            "Response must be a JSON object with 'result' and 'source_script' keys"))
  /\ (forall items,
        SubtitleTranslationService._parse_response response_text = inr items ->
        v = PyList items)
  /\ (forall x,
        LanguageDetectionService._parse_response response_text = inr x ->
        x = v /\ is_dict v = true
        /\ has_key "language" v = true /\ has_key "confidence" v = true)
  /\ (forall x,
        TransliterationService._parse_response response_text = inr x ->
        x = v /\ is_dict v = true
        /\ has_key "result" v = true /\ has_key "source_script" v = true).
Proof.
  intros Hv.
  unfold SubtitleTranslationService._parse_response,
    LanguageDetectionService._parse_response,
    TransliterationService._parse_response.
  rewrite Hv.
  split; [now destruct v|].
  split.
  { intros H.
    destruct (is_dict v), (has_key "language" v), (has_key "confidence" v);
      try reflexivity; discriminate. }
  split.
  { intros H.
    destruct (is_dict v), (has_key "result" v), (has_key "source_script" v);
      try reflexivity; discriminate. }
  split.
  { intros items H. destruct v; inversion H; reflexivity. }
  split.
  - intros x H.
    destruct (is_dict v), (has_key "language" v), (has_key "confidence" v);
      cbn in H; inversion H; now repeat split.
  - intros x H.
    destruct (is_dict v), (has_key "result" v), (has_key "source_script" v);
      cbn in H; inversion H; now repeat split.
Qed.

Lemma wrong_shape_raises_witness :
  @SubtitleTranslationService._parse_response (Mock.runtime Mock.table) "42"
  = inl (ValueError "Response is not a JSON array")
  /\ @LanguageDetectionService._parse_response (Mock.runtime Mock.table) "[]"
     = inl (ValueError
         "Response must be a JSON object with 'language' and 'confidence' keys")
  /\ @TransliterationService._parse_response (Mock.runtime Mock.table) "[]"
     = inl (ValueError
         "Response must be a JSON object with 'result' and 'source_script' keys").
Proof.
  destruct (@wrong_shape_raises (Mock.runtime Mock.table) "42" (PyInt 42) eq_refl)
    as [H1 _].
  destruct (@wrong_shape_raises (Mock.runtime Mock.table) "[]" (PyList []) eq_refl)
    as [_ [H2 [H3 _]]].
  split; [exact (H1 eq_refl)|]. split; [exact (H2 eq_refl) | exact (H3 eq_refl)].
Defined.

Section ResponseFacts.
Context {R : Runtime}.

Lemma optional_str_str (field s : string) :
  optional_str field (PyStr s) = inr (Some s).
Proof. unfold optional_str. now rewrite str_field_str. Qed.

Lemma required_str_str (field s : string) :
  required_str field (PyStr s) = inr s.
Proof. unfold required_str. now rewrite str_field_str. Qed.

Lemma subtitle_failure_response (msg : string) :
  SubtitleTranslationResponse.new false None (PyStr msg)
  = inr (SubtitleTranslationResponse.mk false [] (Some msg)).
Proof.
  unfold SubtitleTranslationResponse.new. now rewrite optional_str_str.
Qed.

(** The endpoint turns an exception of the service into a failure response. *)
Lemma translate_subtitles_failure (request : SubtitleTranslationRequest.t)
    (e : PyExc) (st st' : St) :
  SubtitleTranslationService.translate_subtitles
    Main.subtitle_translation_service
    (SubtitleTranslationRequest.cues request)
    (SubtitleTranslationRequest.source_language request)
    (SubtitleTranslationRequest.target_language request)
    (SubtitleTranslationRequest.batch_size request) st = (inl e, st') ->
  Main.translate_subtitles request st
  = (inr (SubtitleTranslationResponse.mk false [] (Some (exc_str e))), st').
Proof.
  intros H. unfold Main.translate_subtitles, try_except, bind at 1.
  rewrite H. unfold lift. now rewrite subtitle_failure_response.
Qed.
End ResponseFacts.

(** C7: when a batch fails in the retry wrapper, the subtitle-translation
    request fails as a whole: the response is success = false with the
    message of the error, and its list of translated cues is empty, whatever
    the batches before the failing one had produced. *)
Theorem failed_batch_fails_the_request {R : Runtime}
    (request : SubtitleTranslationRequest.t)
    (before after : list (list SubtitleCue.t)) (failing : list SubtitleCue.t)
    (done : list TranslatedCue.t) (e : PyExc) (st st1 st2 : St) :
  let self := Main.subtitle_translation_service in
  let src := SubtitleTranslationRequest.source_language request in
  let tgt := SubtitleTranslationRequest.target_language request in
  SubtitleTranslationService.make_batches
    (SubtitleTranslationRequest.cues request)
    (SubtitleTranslationRequest.batch_size request)
  = inr (before ++ failing :: after)%list ->
  SubtitleTranslationService.translate_batches self before src tgt [] st
  = (inr done, st1) ->
  SubtitleTranslationService._translate_batch_with_retry self failing src tgt st1
  = (inl e, st2) ->
  Main.translate_subtitles request st
  = (inr (SubtitleTranslationResponse.mk false [] (Some (exc_str e))), st2).
Proof.
  intros self src tgt Hm Hd Hf.
  apply translate_subtitles_failure.
  unfold SubtitleTranslationService.translate_subtitles, bind at 1, lift.
  rewrite Hm. fold self src tgt.
  rewrite translate_batches_app, Hd.
  cbn [SubtitleTranslationService.translate_batches]. unfold bind.
  now rewrite Hf.
Qed.

Lemma failed_batch_fails_the_request_witness :
  exists st2,
    Main.translate_subtitles
      (SubtitleTranslationRequest.mk Mock.cues "English" "Spanish" 1)
      (Mock.start [Mock.hola; Mock.quota_exceeded])
    = (inr (SubtitleTranslationResponse.mk false []
              (Some "429 You exceeded your current quota")), st2).
Proof.
  eexists.
  apply (@failed_batch_fails_the_request (Mock.runtime Mock.table)
           (SubtitleTranslationRequest.mk Mock.cues "English" "Spanish" 1)
           [[SubtitleCue.mk "1" "Hello"]] [] [SubtitleCue.mk "2" "World"]
           [TranslatedCue.mk "1" "Hello" "Hola"]
           (mkExc "ResourceExhausted" "429 You exceeded your current quota")
           (Mock.start [Mock.hola; Mock.quota_exceeded]) _ _
           eq_refl eq_refl eq_refl).
Defined.

(* ================================================================== *)
(** * Request validation *)
(* ================================================================== *)

Section ValidationFacts.

Lemma strip_validator_ok (field msg v r : string) :
  strip_validator field msg v = inr r -> r = strip v /\ r <> "".
Proof.
  unfold strip_validator. destruct (String.eqb_spec (strip v) ""); intros H;
    inversion H; subst. now split.
Qed.

Lemma strip_validator_blank (field msg v : string) :
  strip v = "" ->
  strip_validator field msg v = inl [(field, "Value error, " ++ msg)].
Proof. intros H. unfold strip_validator. now rewrite H. Qed.

Lemma checked_text_ok (field msg v r : string) :
  and_then (check_length field 1 5000 v) (strip_validator field msg) = inr r ->
  r = strip v /\ r <> "".
Proof.
  unfold and_then, check_length.
  destruct (String.length v <? 1)%nat; [discriminate|].
  destruct (5000 <? String.length v)%nat; [discriminate|].
  apply strip_validator_ok.
Qed.

Lemma checked_text_blank (field msg v : string) :
  strip v = "" ->
  exists errs,
    and_then (check_length field 1 5000 v) (strip_validator field msg) = inl errs.
Proof.
  intros H. unfold and_then, check_length.
  destruct (String.length v <? 1)%nat; [eexists; reflexivity|].
  destruct (5000 <? String.length v)%nat; [eexists; reflexivity|].
  rewrite strip_validator_blank by assumption. eexists; reflexivity.
Qed.

Lemma both_inr (A B : Type) (ra : ErrorDetails + A) (rb : ErrorDetails + B)
    (a : A) (b : B) :
  both ra rb = inr (a, b) -> ra = inr a /\ rb = inr b.
Proof. destruct ra, rb; simpl; intros H; inversion H; now split. Qed.

Lemma both_inl_l (A B : Type) (ra : ErrorDetails + A) (rb : ErrorDetails + B)
    (e : ErrorDetails) :
  ra = inl e -> exists errs, both ra rb = inl errs.
Proof. intros ->. destruct rb; eexists; reflexivity. Qed.

Lemma both_inl_r (A B : Type) (ra : ErrorDetails + A) (rb : ErrorDetails + B)
    (e : ErrorDetails) :
  rb = inl e -> exists errs, both ra rb = inl errs.
Proof. intros ->. destruct ra; eexists; reflexivity. Qed.

End ValidationFacts.

(** C8 (as the code has it): the validators of the request models trim the
    text of /translate, /translate/text and /detect/language, both languages
    of /translate and the target language of /translate/text, and a request
    in which one of these is empty after trimming is rejected with a
    validation error.  The id and the text of a subtitle cue have no
    validator: a cue is accepted with both as they are given, and a subtitle
    request keeps its cues so. *)
Theorem validators_trim_text_and_language_fields :
  (forall x s g r,
     TranslationRequest.new x (Some s) (Some g) = inr r ->
     (TranslationRequest.text r = strip x
      /\ TranslationRequest.text r <> "")
     /\ (TranslationRequest.source_language r = strip s
         /\ TranslationRequest.source_language r <> "")
     /\ (TranslationRequest.target_language r = strip g
         /\ TranslationRequest.target_language r <> ""))
  /\ (forall x s g,
        strip x = "" \/ strip s = "" \/ strip g = "" ->
        exists errs, TranslationRequest.new x (Some s) (Some g) = inl errs)
  /\ (forall x s g r,
        TextTranslationRequest.new x s g = inr r ->
        (TextTranslationRequest.text r = strip x
         /\ TextTranslationRequest.text r <> "")
        /\ (TextTranslationRequest.target_language r = strip g
            /\ TextTranslationRequest.target_language r <> ""))
  /\ (forall x s g,
        strip x = "" \/ strip g = "" ->
        exists errs, TextTranslationRequest.new x s g = inl errs)
  /\ (forall x r,
        LanguageDetectionRequest.new x = inr r ->
        LanguageDetectionRequest.text r = strip x
        /\ LanguageDetectionRequest.text r <> "")
  /\ (forall x,
        strip x = "" -> exists errs, LanguageDetectionRequest.new x = inl errs)
  /\ (forall i x, SubtitleCue.new i x = inr (SubtitleCue.mk i x))
  /\ (forall cs s g b r,
        SubtitleTranslationRequest.new cs s g b = inr r ->
        SubtitleTranslationRequest.cues r
        = map (fun c => SubtitleCue.mk (fst c) (snd c)) cs).
Proof.
  split; [|split; [|split; [|split; [|split; [|split; [|split]]]]]].
  - intros x s g r H. unfold TranslationRequest.new in H.
    destruct (both _ _) as [e|[x' [s' g']]] eqn:E; [discriminate|].
    inversion H; subst r; clear H. cbn.
    apply both_inr in E as [Ex E]. apply both_inr in E as [Es Eg].
    apply checked_text_ok in Ex. apply strip_validator_ok in Es, Eg.
    now repeat split.
  - intros x s g H. unfold TranslationRequest.new.
    assert (exists errs,
              both (and_then (check_length "text" 1 5000 x)
                      TranslationRequest.validate_text)
                (both (TranslationRequest.validate_language "source_language" s)
                      (TranslationRequest.validate_language "target_language" g))
              = inl errs) as [errs ->]; [|now exists errs].
    destruct H as [H|[H|H]].
    + destruct (checked_text_blank "text"
                  "Text cannot be empty or only whitespace" x H) as [e He].
      now apply both_inl_l with e.
    + destruct (both_inl_l
                  (TranslationRequest.validate_language "target_language" g)
                  (strip_validator_blank "source_language"
                     "Language cannot be empty" s H)) as [e He].
      now apply both_inl_r with e.
    + destruct (both_inl_r
                  (TranslationRequest.validate_language "source_language" s)
                  (strip_validator_blank "target_language"
                     "Language cannot be empty" g H)) as [e He].
      now apply both_inl_r with e.
  - intros x s g r H. unfold TextTranslationRequest.new in H.
    destruct (both _ _) as [e|[x' g']] eqn:E; [discriminate|].
    inversion H; subst r; clear H. cbn.
    apply both_inr in E as [Ex Eg].
    apply checked_text_ok in Ex. apply strip_validator_ok in Eg.
    now repeat split.
  - intros x s g H. unfold TextTranslationRequest.new.
    assert (exists errs,
              both (and_then (check_length "text" 1 5000 x)
                      TextTranslationRequest.validate_text)
                (TextTranslationRequest.validate_target_language g)
              = inl errs) as [errs ->]; [|now exists errs].
    destruct H as [H|H].
    + destruct (checked_text_blank "text"
                  "Text cannot be empty or only whitespace" x H) as [e He].
      now apply both_inl_l with e.
    + apply both_inl_r with
        [("target_language", "Value error, Target language cannot be empty")].
      now apply strip_validator_blank.
  - intros x r H. unfold LanguageDetectionRequest.new in H.
    destruct (and_then _ _) as [e|x'] eqn:E; [discriminate|].
    inversion H; subst r; clear H. cbn. now apply checked_text_ok in E.
  - intros x H. unfold LanguageDetectionRequest.new.
    destruct (checked_text_blank "text"
                "Text cannot be empty or only whitespace" x H) as [e He].
    assert (and_then (check_length "text" 1 5000 x)
              LanguageDetectionRequest.validate_text = inl e) as -> by exact He.
    now exists e.
  - reflexivity.
  - intros cs s g b r H. unfold SubtitleTranslationRequest.new in H.
    destruct (both _ _) as [e|[c' b']] eqn:E; [discriminate|].
    inversion H; subst r; clear H. cbn.
    apply both_inr in E as [Ec _].
    unfold SubtitleTranslationRequest.check_cues in Ec.
    destruct (_ <? 1)%nat; [discriminate|]. now inversion Ec.
Qed.

Lemma validators_trim_text_and_language_fields_witness :
  TranslationRequest.new "  Good morning " (Some "English ") (Some " Telugu")
  = inr (TranslationRequest.mk "Good morning" "English" "Telugu")
  /\ (exists errs,
        TextTranslationRequest.new "   " (Some "English") "Spanish" = inl errs).
Proof.
  destruct validators_trim_text_and_language_fields
    as [H1 [_ [_ [H4 _]]]].
  split.
  - destruct (TranslationRequest.new "  Good morning " (Some "English ")
                (Some " Telugu")) as [e|r] eqn:E; [discriminate|].
    destruct (H1 _ _ _ _ E) as [[Hx _] [[Hs _] [Hg _]]].
    destruct r as [x s g]; cbn in *. now subst.
  - apply (H4 "   " (Some "English") "Spanish"). now left.
Defined.

(** C8, read for the cue fields, does not hold: this request is accepted
    although the id of its cue is not trimmed and the text of its cue is
    blank. *)
Lemma cue_fields_are_neither_trimmed_nor_rejected :
  SubtitleTranslationRequest.new [(" 1 ", "   ")] (Some "English")
    (Some "Spanish") None
  = inr (SubtitleTranslationRequest.mk [SubtitleCue.mk " 1 " "   "]
           "English" "Spanish" 25)
  /\ strip " 1 " <> " 1 " /\ strip "   " = "".
Proof. repeat split; discriminate. Qed.

(* ================================================================== *)
(** * Detection and transliteration *)
(* ================================================================== *)

Section SingleItemFacts.
Context {R : Runtime}.


Lemma detection_failure_response (msg : string) :
  LanguageDetectionResponse.new false PyNone PyNone (PyStr msg)
  = inr (LanguageDetectionResponse.mk false None None (Some msg)).
Proof.
  unfold LanguageDetectionResponse.new. now rewrite optional_str_str.
Qed.



(** What the endpoint answers once the service has returned. *)
Lemma detect_language_after (request : LanguageDetectionRequest.t)
    (st st' : St) (success : bool) (l c m : PyVal) :
  LanguageDetectionService.detect (LanguageDetectionRequest.text request) st
    = (inr (success, l, c, m), st') ->
  Main.detect_language request st =
  match validated "LanguageDetectionResponse"
          (LanguageDetectionResponse.new success l c m) with
  | inr resp => (inr resp, st')
  | inl e =>
      (inr (LanguageDetectionResponse.mk false None None (Some (exc_str e))), st')
  end.
Proof.
  intros H. unfold Main.detect_language, try_except, bind at 1. rewrite H.
  unfold lift.
  destruct (validated _ (LanguageDetectionResponse.new success l c m));
    [|reflexivity].
  now rewrite detection_failure_response.
Qed.


Lemma transliteration_response (success : bool) (t : PyVal) (s g : string)
    (m : PyVal) :
  TransliterationResponse.new success t (PyStr s) (PyStr g) m =
  match optional_str "transliterated_text" t, optional_str "error_message" m with
  | inr x, inr y => inr (TransliterationResponse.mk success x s g y)
  | inl e, inl e' => inl (e ++ e')%list
  | inl e, inr _ => inl e
  | inr _, inl e' => inl e'
  end.
Proof.
  unfold TransliterationResponse.new. rewrite !required_str_str.
  destruct (optional_str "transliterated_text" t),
    (optional_str "error_message" m); reflexivity.
Qed.

(** What the endpoint answers once the service has returned. *)
Lemma transliterate_text_after (request : TransliterationRequest.t)
    (st st' : St) (success : bool) (t d m : PyVal) :
  TransliterationService.transliterate
    (TransliterationRequest.text request)
    (TransliterationRequest.source_script request)
    (TransliterationRequest.target_script request) st
    = (inr (success, t, d, m), st') ->
  Main.transliterate_text request st =
  match validated "TransliterationResponse"
          (TransliterationResponse.new success t
             (py_or d (PyStr (TransliterationRequest.source_script request)))
             (PyStr (TransliterationRequest.target_script request)) m) with
  | inr resp => (inr resp, st')
  | inl e =>
      (inr (TransliterationResponse.mk false None
              (TransliterationRequest.source_script request)
              (TransliterationRequest.target_script request)
              (Some (exc_str e))), st')
  end.
Proof.
  intros H. unfold Main.transliterate_text, try_except, bind at 1. rewrite H.
  unfold lift.
  destruct (validated _ (TransliterationResponse.new success t _ _ m));
    [|reflexivity].
  now rewrite transliteration_response, optional_str_str.
Qed.
End SingleItemFacts.






(* ================================================================== *)
(** * Further properties: batches and the retry schedule *)
(* ================================================================== *)

Section MoreBatchFacts.
Context {R : Runtime}.
Import SubtitleTranslationService.

(** The number of indices [range(0, n, b)] has, as a natural number. *)
Lemma range_length_ceil (n b : nat) :
  1 <= b ->
  Z.to_nat (if (0 <? Z.of_nat n)%Z
            then ((Z.of_nat n - 0 - 1) / Z.of_nat b + 1)%Z else 0%Z)
  = (n + b - 1) / b.
Proof.
  intros Hb. destruct n as [|n].
  - cbn [Z.of_nat Z.ltb Z.compare Z.to_nat]. symmetry. apply Nat.div_small. lia.
  - destruct (Z.ltb_spec 0 (Z.of_nat (S n))) as [_|H]; [|lia].
    replace (Z.of_nat (S n) - 0 - 1)%Z with (Z.of_nat n) by lia.
    rewrite <- Nat2Z.inj_div.
    replace (S n + b - 1) with (n + 1 * b) by lia.
    rewrite Nat.div_add by lia. lia.
Qed.

(** The batches, written with [firstn] and [skipn]. *)
Lemma make_batches_chunks (cues : list SubtitleCue.t) (batch_size : Z) :
  (1 <= batch_size)%Z ->
  make_batches cues batch_size
  = inr (map (fun k => firstn (Z.to_nat batch_size)
                         (skipn (k * Z.to_nat batch_size) cues))
           (seq 0 ((List.length cues + Z.to_nat batch_size - 1)
                   / Z.to_nat batch_size))).
Proof.
  intros Hb. unfold make_batches, py_range.
  destruct (Z.eqb_spec batch_size 0) as [Hz|Hz]; [lia|].
  destruct (Z.ltb_spec 0 batch_size) as [Hp|Hp]; [|lia].
  f_equal. rewrite map_map.
  replace batch_size with (Z.of_nat (Z.to_nat batch_size)) at 1 by lia.
  rewrite range_length_ceil by lia.
  apply map_ext. intros k.
  rewrite <- (py_slice_chunk cues (k * Z.to_nat batch_size) (Z.to_nat batch_size)).
  rewrite Nat2Z.inj_mul, Z2Nat.id by lia. reflexivity.
Qed.

Lemma chunk_index_bound (n b k : nat) :
  1 <= b -> k < (n + b - 1) / b -> k * b < n.
Proof.
  intros Hb Hk.
  pose proof (Nat.Div0.mul_div_le (n + b - 1) b) as H. nia.
Qed.

Lemma chunk_index_full (n b k : nat) :
  1 <= b -> S k < (n + b - 1) / b -> k * b + b < n.
Proof.
  intros Hb Hk.
  pose proof (Nat.Div0.mul_div_le (n + b - 1) b) as H. nia.
Qed.
End MoreBatchFacts.

(** X1: for a batch size of at least 1 the cue list is cut into
    ceil(len(cues) / batch_size) batches; no batch is empty, none has more
    than batch_size cues, and every batch but the last has exactly
    batch_size cues. *)
Theorem batches_are_full_except_the_last
    (cues : list SubtitleCue.t) (batch_size : Z) :
  (1 <= batch_size)%Z ->
  exists batches,
    SubtitleTranslationService.make_batches cues batch_size = inr batches
    /\ List.length batches
       = (List.length cues + Z.to_nat batch_size - 1) / Z.to_nat batch_size
    /\ Forall (fun b => 1 <= List.length b <= Z.to_nat batch_size) batches
    /\ (forall i b, nth_error batches i = Some b ->
          S i < List.length batches ->
          List.length b = Z.to_nat batch_size).
Proof.
  intros Hb. eexists. split; [now apply make_batches_chunks|].
  set (b := Z.to_nat batch_size). assert (1 <= b) as Hb' by (subst b; lia).
  set (n := List.length cues).
  split; [now rewrite length_map, length_seq|]. split.
  - apply Forall_map, Forall_forall. intros k Hk. apply in_seq in Hk.
    rewrite length_firstn, length_skipn. fold n.
    pose proof (@chunk_index_bound n b k Hb' ltac:(lia)). lia.
  - intros i c Hi Hlen. rewrite length_map, length_seq in Hlen.
    rewrite nth_error_map, nth_error_seq in Hi.
    destruct (Nat.ltb_spec i ((n + b - 1) / b)) as [Hlt|Hge]; [|lia].
    cbn in Hi. inversion Hi; subst c.
    rewrite length_firstn, length_skipn. fold n.
    pose proof (@chunk_index_full n b i Hb' Hlen). lia.
Qed.

Lemma batches_are_full_except_the_last_witness :
  exists batches,
    SubtitleTranslationService.make_batches
      [SubtitleCue.mk "1" "a"; SubtitleCue.mk "2" "b"; SubtitleCue.mk "3" "c";
       SubtitleCue.mk "4" "d"; SubtitleCue.mk "5" "e"] 2 = inr batches
    /\ List.length batches = 3
    /\ Forall (fun b => 1 <= List.length b <= 2) batches.
Proof.
  destruct (@batches_are_full_except_the_last
              [SubtitleCue.mk "1" "a"; SubtitleCue.mk "2" "b";
               SubtitleCue.mk "3" "c"; SubtitleCue.mk "4" "d";
               SubtitleCue.mk "5" "e"] 2 ltac:(lia))
    as [batches [H [HL [HF _]]]].
  exists batches. split; [exact H|]. split; [exact HL | exact HF].
Defined.

(** X2: the service does not check the batch size itself.  With a batch size
    of 0 it raises the ValueError of range() before any call to the
    provider; with a negative batch size it returns an empty list, whatever
    the cues are, again without any call. *)
Theorem batch_size_zero_raises_negative_drops_the_cues {R : Runtime}
    (self : SubtitleTranslationService.t) (cues : list SubtitleCue.t)
    (source_language target_language : string) (st : St) :
  SubtitleTranslationService.translate_subtitles self cues
    source_language target_language 0 st
  = (inl (ValueError "range() arg 3 must not be zero"), st)
  /\ (forall batch_size, (batch_size < 0)%Z ->
        SubtitleTranslationService.translate_subtitles self cues
          source_language target_language batch_size st = (inr [], st)).
Proof.
  split; [reflexivity|].
  intros batch_size Hb.
  unfold SubtitleTranslationService.translate_subtitles,
    SubtitleTranslationService.make_batches, py_range, bind, lift.
  destruct (Z.eqb_spec batch_size 0) as [Hz|Hz]; [lia|].
  destruct (Z.ltb_spec 0 batch_size) as [Hp|Hp]; [lia|].
  destruct (Z.ltb_spec (Z.of_nat (List.length cues)) 0) as [Hn|Hn]; [lia|].
  reflexivity.
Qed.

Lemma batch_size_zero_raises_negative_drops_the_cues_witness :
  SubtitleTranslationService.translate_subtitles
    SubtitleTranslationService.instance Mock.cues "English" "Spanish" (-1)
    (Mock.start [Mock.hola_mundo])
  = (inr [], Mock.start [Mock.hola_mundo]).
Proof.
  destruct (@batch_size_zero_raises_negative_drops_the_cues
              (Mock.runtime Mock.table) SubtitleTranslationService.instance
              Mock.cues "English" "Spanish" (Mock.start [Mock.hola_mundo]))
    as [_ H].
  exact (H (-1)%Z ltac:(lia)).
Defined.

Section ScheduleFacts.
Context {R : Runtime}.
Import SubtitleTranslationService.

Lemma calls_app (a b : list Event) : calls (a ++ b) = calls a + calls b.
Proof.
  induction a as [|[p|n] a IH]; simpl; [reflexivity | now rewrite IH | exact IH].
Qed.

Lemma seconds_slept_app (a b : list Event) :
  seconds_slept (a ++ b) = seconds_slept a + seconds_slept b.
Proof.
  induction a as [|[p|n] a IH]; simpl; [reflexivity | exact IH |].
  rewrite IH. lia.
Qed.

Lemma calls_schedule_from (prompt : string) (attempt c : nat) :
  calls (schedule_from prompt attempt c) = c.
Proof.
  revert attempt; induction c as [|c IH]; intros attempt; [reflexivity|].
  cbn [schedule_from]. rewrite calls_app. cbn [calls]. rewrite IH.
  now destruct (0 <? attempt)%nat.
Qed.

(** Whatever the attempts do, the retry loop adds to the trace the schedule
    of the attempts it made, and it makes at least one when any is left. *)
Lemma retry_loop_schedule (self : t) (cues : list SubtitleCue.t)
    (src tgt : string) (first left : nat) (last : option PyExc) (st st' : St)
    (res : PyExc + list TranslatedCue.t) :
  retry_loop self cues src tgt (seq first left) last st = (res, st') ->
  exists c,
    c <= left /\ (0 < left -> 1 <= c)
    /\ trace st' = (trace st
         ++ schedule_from (_build_prompt (map SubtitleCue.text cues) src tgt)
              first c)%list.
Proof.
  revert first last st; induction left as [|left IH]; intros first last st H.
  - cbn in H. inversion H; subst. exists 0.
    split; [lia|]. split; [lia|]. cbn. now rewrite app_nil_r.
  - cbn [seq] in H. rewrite retry_loop_cons in H.
    set (st_a := if (0 <? first)%nat then slept (2 ^ first) st else st) in *.
    assert (trace st_a
            = (trace st ++ (if (0 <? first)%nat then [Sleep (2 ^ first)] else []))%list)
      as Ha.
    { subst st_a. destruct (0 <? first)%nat; cbn; [reflexivity|].
      now rewrite app_nil_r. }
    destruct (_translate_batch self cues src tgt st_a) as [[e|r] st0] eqn:E;
      apply translate_batch_trace in E.
    + destruct (non_retryable e).
      * inversion H; subst. exists 1. split; [lia|]. split; [lia|].
        rewrite E, Ha. cbn [schedule_from]. now rewrite <- app_assoc.
      * apply IH in H as [c [Hc [_ Ht]]]. exists (S c).
        split; [lia|]. split; [lia|].
        rewrite Ht, E, Ha. cbn [schedule_from].
        rewrite <- !app_assoc. reflexivity.
    + inversion H; subst. exists 1. split; [lia|]. split; [lia|].
      rewrite E, Ha. cbn [schedule_from]. now rewrite <- app_assoc.
Qed.

(** With three attempts the schedule costs at most three calls and six
    seconds. *)
Lemma schedule_budget (prompt : string) (c : nat) :
  c <= 3 -> calls (schedule prompt c) <= 3
            /\ seconds_slept (schedule prompt c) <= 6.
Proof.
  intros H. destruct c as [|[|[|[|c]]]]; cbn; lia.
Qed.

Lemma retry_first_success (self : t) (cues : list SubtitleCue.t)
    (src tgt : string) (st st' : St) (r : list TranslatedCue.t) :
  0 < MAX_RETRIES self ->
  _translate_batch self cues src tgt st = (inr r, st') ->
  _translate_batch_with_retry self cues src tgt st = (inr r, st').
Proof.
  intros Hmax H. unfold _translate_batch_with_retry.
  destruct (MAX_RETRIES self) as [|n]; [lia|].
  cbn [seq]. rewrite retry_loop_cons. cbn [Nat.ltb Nat.leb]. now rewrite H.
Qed.

(** The budget of a list of batches. *)
Lemma translate_batches_budget (batches : list (list SubtitleCue.t))
    (src tgt : string) (acc : list TranslatedCue.t) (st st' : St)
    (res : PyExc + list TranslatedCue.t) :
  translate_batches instance batches src tgt acc st = (res, st') ->
  exists events,
    trace st' = (trace st ++ events)%list
    /\ calls events <= 3 * List.length batches
    /\ seconds_slept events <= 6 * List.length batches.
Proof.
  revert acc st; induction batches as [|b rest IH]; intros acc st H.
  - cbn in H. inversion H; subst. exists [].
    split; [now rewrite app_nil_r | cbn; lia].
  - cbn [translate_batches] in H. unfold bind in H.
    destruct (_translate_batch_with_retry instance b src tgt st)
      as [[e|r] st0] eqn:E;
      apply retry_loop_schedule in E as [c [Hc [_ Ht]]];
      destruct (@schedule_budget
                  (_build_prompt (map SubtitleCue.text b) src tgt) c Hc)
        as [B1 B2]; fold (schedule (_build_prompt (map SubtitleCue.text b) src tgt) c) in Ht.
    + inversion H; subst. eexists. split; [exact Ht|]. cbn [List.length]. lia.
    + apply IH in H as [events [Ht' [C1 C2]]].
      eexists. split; [rewrite Ht', Ht, <- app_assoc; reflexivity|].
      rewrite calls_app, seconds_slept_app. cbn [List.length]. lia.
Qed.

(** When the provider answers well, each batch costs one call. *)
Lemma translate_batches_one_call_each (self : t)
    (batches : list (list SubtitleCue.t)) (src tgt : string)
    (acc : list TranslatedCue.t) (st : St) :
  answers_well -> 0 < MAX_RETRIES self ->
  exists out st',
    translate_batches self batches src tgt acc st = (inr out, st')
    /\ trace st' = (trace st ++ map (batch_call src tgt) batches)%list.
Proof.
  intros Hw Hmax. revert acc st.
  induction batches as [|b rest IH]; intros acc st.
  - do 2 eexists. split; [reflexivity|]. cbn. now rewrite app_nil_r.
  - cbn [translate_batches]. unfold bind.
    destruct (translate_batch_returns self b src tgt st Hw) as [r [st0 Hr]].
    rewrite (retry_first_success self b src tgt st Hmax Hr).
    apply translate_batch_trace in Hr.
    destruct (IH (acc ++ r)%list st0) as [out [st' [H Ht]]].
    exists out, st'. split; [exact H|].
    rewrite Ht, Hr. cbn [map]. unfold batch_call at 3.
    now rewrite <- app_assoc.
Qed.
End ScheduleFacts.

(** X3: whatever the attempts do, the retry wrapper adds to the trace
    exactly the schedule of the attempts it made -- call, sleep 2, call,
    sleep 4, call, ... -- for a number of attempts that is at most
    MAX_RETRIES and at least 1 when MAX_RETRIES is positive; with
    MAX_RETRIES = 0 it raises RuntimeError("Translation failed after
    retries") without any call. *)
Theorem retry_follows_the_backoff_schedule {R : Runtime}
    (self : SubtitleTranslationService.t) (cues : list SubtitleCue.t)
    (source_lang target_lang : string) (st st' : St)
    (res : PyExc + list TranslatedCue.t) :
  SubtitleTranslationService._translate_batch_with_retry self cues
    source_lang target_lang st = (res, st') ->
  (exists c,
     c <= SubtitleTranslationService.MAX_RETRIES self
     /\ (0 < SubtitleTranslationService.MAX_RETRIES self -> 1 <= c)
     /\ trace st' = (trace st
          ++ schedule (SubtitleTranslationService._build_prompt
                         (map SubtitleCue.text cues) source_lang target_lang) c)%list)
  /\ (SubtitleTranslationService.MAX_RETRIES self = 0 ->
        res = inl (RuntimeError "Translation failed after retries") /\ st' = st).
Proof.
  intros H. split.
  - now apply retry_loop_schedule in H.
  - intros Hz. unfold SubtitleTranslationService._translate_batch_with_retry in H.
    rewrite Hz in H. cbn in H. now inversion H.
Qed.

Lemma retry_follows_the_backoff_schedule_witness :
  exists res st' c,
    SubtitleTranslationService._translate_batch_with_retry
      SubtitleTranslationService.instance Mock.cues "English" "Spanish"
      (Mock.start [Mock.unavailable; Mock.hola_mundo]) = (res, st')
    /\ c <= 3
    /\ trace st'
       = schedule (@SubtitleTranslationService._build_prompt
                     (Mock.runtime Mock.table)
                     ["Hello"; "World"] "English" "Spanish") c.
Proof.
  destruct (SubtitleTranslationService._translate_batch_with_retry
              SubtitleTranslationService.instance Mock.cues "English" "Spanish"
              (Mock.start [Mock.unavailable; Mock.hola_mundo]))
    as [res st'] eqn:E.
  destruct (retry_follows_the_backoff_schedule _ _ _ _ _ E)
    as [[c [Hc [_ Ht]]] _].
  exists res, st', c. split; [reflexivity|]. split; [exact Hc | exact Ht].
Defined.

(** X4: a subtitle request served by the service as configured
    (MAX_RETRIES = 3) with a batch size of at least 1 makes at most three
    provider calls and sleeps at most six seconds per batch, whether it
    succeeds or fails. *)
Theorem request_costs_at_most_three_calls_per_batch {R : Runtime}
    (cues : list SubtitleCue.t) (source_language target_language : string)
    (batch_size : Z) (st st' : St) (res : PyExc + list TranslatedCue.t) :
  (1 <= batch_size)%Z ->
  SubtitleTranslationService.translate_subtitles
    SubtitleTranslationService.instance cues source_language target_language
    batch_size st = (res, st') ->
  let batches :=
    (List.length cues + Z.to_nat batch_size - 1) / Z.to_nat batch_size in
  exists events,
    trace st' = (trace st ++ events)%list
    /\ calls events <= 3 * batches
    /\ seconds_slept events <= 6 * batches.
Proof.
  intros Hb H batches.
  unfold SubtitleTranslationService.translate_subtitles, bind, lift in H.
  rewrite (make_batches_chunks cues Hb) in H.
  apply translate_batches_budget in H as [events [Ht [C1 C2]]].
  rewrite length_map, length_seq in C1, C2. now exists events.
Qed.

Lemma request_costs_at_most_three_calls_per_batch_witness :
  exists res st' events,
    SubtitleTranslationService.translate_subtitles
      SubtitleTranslationService.instance Mock.cues "English" "Spanish" 1
      (Mock.start [Mock.unavailable; Mock.hola; Mock.unavailable;
                   Mock.unavailable; Mock.unavailable]) = (res, st')
    /\ trace st' = events
    /\ calls events <= 6
    /\ seconds_slept events <= 12.
Proof.
  destruct (SubtitleTranslationService.translate_subtitles
              SubtitleTranslationService.instance Mock.cues "English" "Spanish" 1
              (Mock.start [Mock.unavailable; Mock.hola; Mock.unavailable;
                           Mock.unavailable; Mock.unavailable]))
    as [res st'] eqn:E.
  destruct (@request_costs_at_most_three_calls_per_batch _ _ _ _ 1 _ _ _
              ltac:(lia) E) as [events [Ht [C1 C2]]].
  exists res, st', events. split; [reflexivity|].
  split; [exact Ht|]. split; [exact C1 | exact C2].
Defined.

(** X5: the retry wrapper recovers from a retryable failure: when the first
    attempt fails with an error that is neither an authentication nor a
    quota error and the second attempt, made after a sleep of 2, succeeds,
    the wrapper returns the result of the second attempt, and the trace is
    call, sleep 2, call. *)
Theorem retry_returns_the_second_attempt {R : Runtime}
    (cues : list SubtitleCue.t) (source_lang target_lang : string)
    (st0 st1 st2 : St) (e1 : PyExc) (r : list TranslatedCue.t) :
  let self := SubtitleTranslationService.instance in
  let attempt := SubtitleTranslationService._translate_batch self cues
                   source_lang target_lang in
  let call := Generate (SubtitleTranslationService._build_prompt
                          (map SubtitleCue.text cues) source_lang target_lang) in
  attempt st0 = (inl e1, st1) ->
  SubtitleTranslationService.non_retryable e1 = false ->
  attempt (slept 2 st1) = (inr r, st2) ->
  SubtitleTranslationService._translate_batch_with_retry self cues
    source_lang target_lang st0 = (inr r, st2)
  /\ trace st2 = (trace st0 ++ [call; Sleep 2; call])%list
  /\ same_cues cues r.
Proof.
  intros self attempt call H1 N1 H2. subst attempt. split; [|split].
  - unfold SubtitleTranslationService._translate_batch_with_retry.
    change (seq 0 (SubtitleTranslationService.MAX_RETRIES self)) with [0; 1; 2].
    rewrite retry_loop_cons. cbn [Nat.ltb Nat.leb]. rewrite H1, N1.
    rewrite retry_loop_cons.
    change (if (0 <? 1)%nat then slept (2 ^ 1) st1 else st1) with (slept 2 st1).
    now rewrite H2.
  - apply translate_batch_trace in H1, H2.
    rewrite H2. cbn [slept trace]. rewrite H1. subst call.
    now rewrite <- !app_assoc.
  - now apply translate_batch_same in H2.
Qed.

Lemma retry_returns_the_second_attempt_witness :
  exists st2,
    SubtitleTranslationService._translate_batch_with_retry
      SubtitleTranslationService.instance Mock.cues "English" "Spanish"
      (Mock.start [Mock.unavailable; Mock.hola_mundo])
    = (inr [TranslatedCue.mk "1" "Hello" "Hola";
            TranslatedCue.mk "2" "World" "Mundo"], st2)
    /\ List.length (trace st2) = 3.
Proof.
  eexists.
  destruct (@retry_returns_the_second_attempt (Mock.runtime Mock.table)
              Mock.cues "English" "Spanish"
              (Mock.start [Mock.unavailable; Mock.hola_mundo]) _ _ _ _
              eq_refl eq_refl eq_refl) as [Hrun [Htr _]].
  split; [exact Hrun | rewrite Htr; reflexivity].
Defined.

(** X6: batches are processed strictly in order, one after the other: when
    the provider answers every call with an array of strings, a request with
    a batch size of at least 1 succeeds with exactly one call per batch, in
    the order of the batches, each with the prompt built from the texts of
    that batch alone, and without any sleep. *)
Theorem well_answered_request_makes_one_call_per_batch {R : Runtime}
    (self : SubtitleTranslationService.t) (cues : list SubtitleCue.t)
    (source_language target_language : string) (batch_size : Z) (st : St) :
  answers_well ->
  0 < SubtitleTranslationService.MAX_RETRIES self ->
  (1 <= batch_size)%Z ->
  exists batches out st',
    SubtitleTranslationService.make_batches cues batch_size = inr batches
    /\ SubtitleTranslationService.translate_subtitles self cues
         source_language target_language batch_size st = (inr out, st')
    /\ trace st'
       = (trace st ++ map (batch_call source_language target_language) batches)%list.
Proof.
  intros Hw Hmax Hb.
  destruct (make_batches_concat cues Hb) as [batches [Hm _]].
  destruct (translate_batches_one_call_each self batches source_language
              target_language [] st Hw Hmax) as [out [st' [H Ht]]].
  exists batches, out, st'. split; [exact Hm|]. split; [|exact Ht].
  unfold SubtitleTranslationService.translate_subtitles, bind, lift.
  now rewrite Hm.
Qed.

Lemma well_answered_request_makes_one_call_per_batch_witness :
  exists out st',
    @SubtitleTranslationService.translate_subtitles (Mock.steady Mock.table)
      SubtitleTranslationService.instance Mock.cues "English" "Spanish" 1
      (@mkSt (Mock.steady Mock.table) tt []) = (inr out, st')
    /\ calls (trace st') = 2.
Proof.
  destruct (@well_answered_request_makes_one_call_per_batch
              (Mock.steady Mock.table) SubtitleTranslationService.instance
              Mock.cues "English" "Spanish" 1
              (@mkSt (Mock.steady Mock.table) tt [])
              steady_provider_answers_well ltac:(cbn; lia) ltac:(lia))
    as [batches [out [st' [Hm [H Ht]]]]].
  exists out, st'. split; [exact H|].
  rewrite Ht. cbv in Hm. inversion Hm; subst batches. reflexivity.
Defined.

(* ================================================================== *)
(** * Further properties: the subtitle endpoint and its request *)
(* ================================================================== *)

(** X7: a subtitle request is accepted exactly when it has at least one cue
    and its batch size, when given, lies between 1 and 100; the batch size of
    an accepted request is the one given or 25, and its languages are the
    ones given or English and Spanish. *)
Theorem subtitle_request_is_accepted_iff_well_sized
    (cs : list (string * string)) (s g : option string) (b : option Z) :
  (cs <> [] /\ (forall v, b = Some v -> (1 <= v <= 100)%Z)
   <-> exists r, SubtitleTranslationRequest.new cs s g b = inr r)
  /\ (forall r, SubtitleTranslationRequest.new cs s g b = inr r ->
        SubtitleTranslationRequest.cues r <> []
        /\ (1 <= SubtitleTranslationRequest.batch_size r <= 100)%Z
        /\ SubtitleTranslationRequest.batch_size r
           = match b with Some v => v | None => 25%Z end
        /\ SubtitleTranslationRequest.source_language r = with_default s "English"
        /\ SubtitleTranslationRequest.target_language r = with_default g "Spanish").
Proof.
  unfold SubtitleTranslationRequest.new,
    SubtitleTranslationRequest.check_cues,
    SubtitleTranslationRequest.check_batch_size.
  split; [split|].
  - intros [Hc Hb]. destruct cs as [|c cs]; [contradiction|]. cbn.
    destruct b as [v|]; [|eexists; reflexivity].
    destruct (Hb v eq_refl) as [H1 H2].
    destruct (Z.ltb_spec v 1); [lia|]. destruct (Z.ltb_spec 100 v); [lia|].
    eexists; reflexivity.
  - intros [r H]. destruct cs as [|c cs].
    + cbn in H. destruct b as [v|]; [|discriminate].
      destruct (v <? 1)%Z; [discriminate|].
      destruct (100 <? v)%Z; discriminate.
    + split; [discriminate|]. intros v ->. cbn in H.
      destruct (Z.ltb_spec v 1); [discriminate|].
      destruct (Z.ltb_spec 100 v); [discriminate|]. lia.
  - intros r H. destruct cs as [|c cs].
    + cbn in H. destruct b as [v|]; [|discriminate].
      destruct (v <? 1)%Z; [discriminate|].
      destruct (100 <? v)%Z; discriminate.
    + cbn in H. destruct b as [v|].
      * destruct (Z.ltb_spec v 1); [discriminate|].
        destruct (Z.ltb_spec 100 v); [discriminate|].
        inversion H; subst r; cbn. repeat split; (discriminate || lia).
      * inversion H; subst r; cbn. repeat split; (discriminate || lia).
Qed.

Lemma subtitle_request_is_accepted_iff_well_sized_witness :
  (exists r, SubtitleTranslationRequest.new [("1", "Hello")] None None (Some 100%Z)
             = inr r)
  /\ ~ (exists r, SubtitleTranslationRequest.new [("1", "Hello")] None None
                    (Some 101%Z) = inr r)
  /\ ~ (exists r, SubtitleTranslationRequest.new [] None None None = inr r).
Proof.
  split; [|split].
  - apply (subtitle_request_is_accepted_iff_well_sized
             [("1", "Hello")] None None (Some 100%Z)).
    split; [discriminate|]. intros v Hv. inversion Hv. lia.
  - intros H.
    apply (subtitle_request_is_accepted_iff_well_sized
             [("1", "Hello")] None None (Some 101%Z)) in H as [_ H].
    specialize (H 101%Z eq_refl). lia.
  - intros H.
    apply (subtitle_request_is_accepted_iff_well_sized
             [] None None None) in H as [H _].
    now apply H.
Defined.

Section SubtitleEndpointFacts.
Context {R : Runtime}.

Lemma subtitle_success_response (out : list TranslatedCue.t) :
  SubtitleTranslationResponse.new true (Some out) PyNone
  = inr (SubtitleTranslationResponse.mk true out None).
Proof. reflexivity. Qed.

(** The endpoint after the service has returned a list. *)
Lemma translate_subtitles_success (request : SubtitleTranslationRequest.t)
    (out : list TranslatedCue.t) (st st' : St) :
  SubtitleTranslationService.translate_subtitles
    Main.subtitle_translation_service
    (SubtitleTranslationRequest.cues request)
    (SubtitleTranslationRequest.source_language request)
    (SubtitleTranslationRequest.target_language request)
    (SubtitleTranslationRequest.batch_size request) st = (inr out, st') ->
  Main.translate_subtitles request st
  = (inr (SubtitleTranslationResponse.mk true out None), st').
Proof.
  intros H. unfold Main.translate_subtitles, try_except, bind at 1.
  rewrite H. reflexivity.
Qed.
End SubtitleEndpointFacts.

(** X8: POST /translate/subtitle never raises, and its answer to an accepted
    request is all or nothing: either success with one translated cue per
    cue of the request, carrying the ids and texts of the request in order,
    and no error message; or failure with an error message and an empty list
    of translated cues. *)
Theorem subtitle_endpoint_answers_all_or_nothing {R : Runtime}
    (cs : list (string * string)) (s g : option string) (b : option Z)
    (request : SubtitleTranslationRequest.t) (st : St) :
  SubtitleTranslationRequest.new cs s g b = inr request ->
  exists response st',
    Main.translate_subtitles request st = (inr response, st')
    /\ ((SubtitleTranslationResponse.success response = true
         /\ same_cues (SubtitleTranslationRequest.cues request)
              (SubtitleTranslationResponse.translated_cues response)
         /\ SubtitleTranslationResponse.error_message response = None)
        \/ (SubtitleTranslationResponse.success response = false
            /\ SubtitleTranslationResponse.translated_cues response = []
            /\ exists msg,
                 SubtitleTranslationResponse.error_message response = Some msg)).
Proof.
  intros Hreq.
  assert (SubtitleTranslationRequest.cues request <> []
          /\ (1 <= SubtitleTranslationRequest.batch_size request <= 100)%Z)
    as [Hne Hb].
  { unfold SubtitleTranslationRequest.new in Hreq.
    destruct (both _ _) as [e|[c v]] eqn:E; [discriminate|].
    inversion Hreq; subst request; clear Hreq. cbn.
    apply both_inr in E as [Ec Ev].
    unfold SubtitleTranslationRequest.check_cues in Ec.
    destruct (map _ cs) as [|x l] eqn:M; [discriminate|].
    cbn in Ec. inversion Ec; subst c. split; [discriminate|].
    destruct b as [w|]; [|inversion Ev; lia].
    unfold SubtitleTranslationRequest.check_batch_size in Ev.
    destruct (Z.ltb_spec w 1); [discriminate|].
    destruct (Z.ltb_spec 100 w); [discriminate|]. inversion Ev. lia. }
  destruct (SubtitleTranslationService.translate_subtitles
              Main.subtitle_translation_service
              (SubtitleTranslationRequest.cues request)
              (SubtitleTranslationRequest.source_language request)
              (SubtitleTranslationRequest.target_language request)
              (SubtitleTranslationRequest.batch_size request) st)
    as [[e|out] st'] eqn:E.
  - rewrite (translate_subtitles_failure request st E).
    do 2 eexists. split; [reflexivity|]. right. cbn.
    repeat split. now eexists.
  - rewrite (translate_subtitles_success request st E).
    do 2 eexists. split; [reflexivity|]. left. cbn.
    split; [reflexivity|]. split; [|reflexivity].
    unfold SubtitleTranslationService.translate_subtitles, bind, lift in E.
    destruct (make_batches_concat (SubtitleTranslationRequest.cues request)
                (proj1 Hb)) as [batches [Hm Hc]].
    rewrite Hm in E.
    apply translate_batches_same in E as [out' [-> Hs]].
    now rewrite Hc in Hs.
Qed.

Lemma subtitle_endpoint_answers_all_or_nothing_witness :
  exists response st',
    Main.translate_subtitles
      (SubtitleTranslationRequest.mk Mock.cues "English" "Spanish" 25)
      (Mock.start [Mock.hola_mundo]) = (inr response, st')
    /\ (SubtitleTranslationResponse.translated_cues response = []
        \/ List.length (SubtitleTranslationResponse.translated_cues response) = 2).
Proof.
  destruct (@subtitle_endpoint_answers_all_or_nothing (Mock.runtime Mock.table)
              [("1", "Hello"); ("2", "World")] None None None
              (SubtitleTranslationRequest.mk Mock.cues "English" "Spanish" 25)
              (Mock.start [Mock.hola_mundo]) eq_refl)
    as [response [st' [H [[_ [[HL _] _]] | [_ [HE _]]]]]].
  - exists response, st'. split; [exact H|]. right. exact HL.
  - exists response, st'. split; [exact H|]. left. exact HE.
Defined.

(* ================================================================== *)
(** * Further properties: the cleaned response *)
(* ================================================================== *)

Section MoreFenceFacts.
Import Re.

Lemma rstrip_empty_iff (s : string) : rstrip s = "" <-> all_space s = true.
Proof.
  split; [|apply rstrip_all_space].
  induction s as [|c t IH]; [reflexivity|]. simpl.
  destruct (rstrip t) as [|d r] eqn:E; [|discriminate].
  destruct (is_space c); [|discriminate]. intros _. now apply IH.
Qed.

Lemma rstrip_app (a b : string) :
  rstrip (a ++ b) = if all_space b then rstrip a else a ++ rstrip b.
Proof.
  destruct (all_space b) eqn:Hb; [now apply rstrip_app_space|].
  assert (rstrip b <> "") as Hne.
  { intros H. apply rstrip_empty_iff in H. congruence. }
  induction a as [|c a IH]; [reflexivity|].
  simpl. rewrite IH. destruct (a ++ rstrip b) eqn:E; [|reflexivity].
  destruct a; simpl in E; [contradiction | discriminate].
Qed.

Lemma lstrip_rstrip (s : string) : lstrip (rstrip s) = rstrip (lstrip s).
Proof.
  induction s as [|c t IH]; [reflexivity|].
  cbn [lstrip]. destruct (is_space c) eqn:Hc.
  - cbn [rstrip]. destruct (rstrip t) as [|d r] eqn:E.
    + rewrite Hc. now rewrite <- IH.
    + cbn [lstrip]. rewrite Hc. now rewrite <- IH.
  - apply lstrip_rstrip_fixed. cbn [lstrip]. now rewrite Hc.
Qed.

(** Stripping ignores white space put around a text. *)
Lemma strip_padded (before s after : string) :
  all_space before = true -> all_space after = true ->
  strip (before ++ s ++ after) = strip s.
Proof.
  intros H1 H2. unfold strip. rewrite lstrip_app, H1.
  rewrite <- !lstrip_rstrip. now rewrite rstrip_app, H2.
Qed.

Lemma clean_response_strip (s : string) :
  clean_response (strip s) = clean_response s.
Proof. unfold clean_response. now rewrite strip_idem. Qed.

Lemma clean_response_padded (before s after : string) :
  all_space before = true -> all_space after = true ->
  clean_response (before ++ s ++ after) = clean_response s.
Proof.
  intros H1 H2.
  rewrite <- (clean_response_strip (before ++ s ++ after)).
  rewrite strip_padded by assumption. apply clean_response_strip.
Qed.

(** A text that starts with three backticks still does after [rstrip]. *)
Lemma rstrip_keeps_fence (x : string) :
  startswith (rstrip x) "```" = false -> startswith x "```" = false.
Proof.
  unfold startswith.
  destruct (strip_prefix "```" x) as [r|] eqn:E; [|reflexivity].
  apply strip_prefix_inv in E. subst x. rewrite rstrip_app.
  destruct (all_space r); [discriminate|].
  now rewrite strip_prefix_app.
Qed.

Lemma strip_prefix_cons (a b : ascii) (p t : string) :
  strip_prefix (String a p) (String b t)
  = if Ascii.eqb a b then strip_prefix p t else None.
Proof. reflexivity. Qed.

(** A text that does not start with three backticks does not start with
    them either when a newline follows it, unless it is empty. *)
Lemma no_fence_before_newline (a b : string) :
  a <> "" -> startswith a "```" = false ->
  strip_prefix "```" (a ++ nl ++ b) = None.
Proof.
  intros Hne H. unfold startswith in H.
  destruct a as [|c1 [|c2 [|c3 a]]]; [contradiction|..];
    cbn [append nl] in *; rewrite !strip_prefix_cons in *;
    change (Ascii.eqb "`" LF) with false.
  - now destruct (Ascii.eqb "`" c1).
  - destruct (Ascii.eqb "`" c1); [|reflexivity].
    now destruct (Ascii.eqb "`" c2).
  - destruct (Ascii.eqb "`" c1); [|reflexivity].
    destruct (Ascii.eqb "`" c2); [|reflexivity].
    destruct (Ascii.eqb "`" c3); [discriminate | reflexivity].
Qed.

Lemma lstrip_empty_all_space (s : string) : lstrip s = "" -> all_space s = true.
Proof.
  induction s as [|c t IH]; [reflexivity|]. simpl.
  destruct (is_space c); [exact IH | discriminate].
Qed.

(** Only the opening fence. *)
Lemma clean_opening_fence_only (tag : bool) (p : string) :
  endswith (strip p) "```" = false ->
  clean_response ("```" ++ (if tag then "json" else "") ++ nl ++ p) = strip p.
Proof.
  intros He. unfold clean_response.
  assert (strip ("```" ++ (if tag then "json" else "") ++ nl ++ p)
          = if all_space p then "```" ++ (if tag then "json" else "")
            else "```" ++ (if tag then "json" else "") ++ nl ++ rstrip p) as ->.
  { unfold strip.
    assert (lstrip ("```" ++ (if tag then "json" else "") ++ nl ++ p)
            = "```" ++ (if tag then "json" else "") ++ nl ++ p) as ->
      by reflexivity.
    rewrite <- !append_assoc. rewrite rstrip_app.
    destruct (all_space p) eqn:Hp.
    - rewrite rstrip_app. cbn [all_space nl]. destruct tag; reflexivity.
    - reflexivity. }
  destruct (all_space p) eqn:Hp.
  - assert (strip p = "") as ->
      by (unfold strip; now rewrite lstrip_all_space).
    destruct tag; reflexivity.
  - rewrite sub_leading.
    assert (strip_prefix "```"
              ("```" ++ (if tag then "json" else "") ++ nl ++ rstrip p)
            = Some ((if tag then "json" else "") ++ nl ++ rstrip p)) as ->
      by reflexivity.
    assert (after_leading_fence ((if tag then "json" else "") ++ nl ++ rstrip p)
            = strip p) as ->.
    { unfold strip. rewrite <- lstrip_rstrip. destruct tag; reflexivity. }
    unfold sub_empty.
    rewrite sub_trailing_fixed; [apply strip_idem | apply rstrip_strip | exact He].
Qed.

(** Only the closing fence. *)
Lemma clean_closing_fence_only (p : string) :
  startswith (strip p) "```" = false ->
  clean_response (p ++ nl ++ "```") = strip p.
Proof.
  intros Hs. unfold clean_response.
  assert (strip (p ++ nl ++ "```")
          = if all_space p then "```" else lstrip p ++ nl ++ "```") as ->.
  { unfold strip. rewrite lstrip_app.
    destruct (all_space p); [reflexivity|].
    apply rstrip_app_fixed; [reflexivity | discriminate]. }
  destruct (all_space p) eqn:Hp.
  - assert (strip p = "") as ->
      by (unfold strip; now rewrite lstrip_all_space).
    reflexivity.
  - rewrite sub_leading.
    rewrite no_fence_before_newline.
    + unfold sub_empty. rewrite sub_trailing_wrap. apply strip_lstrip.
    + intros H. apply lstrip_empty_all_space in H. congruence.
    + now apply rstrip_keeps_fence.
Qed.
End MoreFenceFacts.

(** X9: white space around a response does not matter to the parsers: the
    cleaned text of a response is the cleaned text of the response with any
    white space before and after it removed; in particular a fenced payload
    followed by a newline or preceded by blanks cleans to the stripped
    payload, and each of the three parsers reads it as it reads the fenced
    payload alone. *)
Theorem white_space_around_a_response_is_ignored {R : Runtime}
    (before after s : string) :
  all_space before = true -> all_space after = true ->
  clean_response (before ++ s ++ after) = clean_response s
  /\ (forall tag p,
        s = fenced tag p -> clean_response (before ++ s ++ after) = strip p)
  /\ SubtitleTranslationService._parse_response (before ++ s ++ after)
     = SubtitleTranslationService._parse_response s
  /\ LanguageDetectionService._parse_response (before ++ s ++ after)
     = LanguageDetectionService._parse_response s
  /\ TransliterationService._parse_response (before ++ s ++ after)
     = TransliterationService._parse_response s.
Proof.
  intros H1 H2. pose proof (@clean_response_padded before s after H1 H2) as Hc.
  split; [exact Hc|]. split.
  - intros tag p ->. rewrite Hc. apply clean_fenced.
  - unfold SubtitleTranslationService._parse_response,
      LanguageDetectionService._parse_response,
      TransliterationService._parse_response.
    now rewrite Hc.
Qed.

Lemma white_space_around_a_response_is_ignored_witness :
  @SubtitleTranslationService._parse_response (Mock.runtime Mock.table)
    ("  " ++ fenced true Mock.hola_mundo_text ++ nl)
  = inr [PyStr "Hola"; PyStr "Mundo"].
Proof.
  destruct (@white_space_around_a_response_is_ignored (Mock.runtime Mock.table)
              "  " nl (fenced true Mock.hola_mundo_text) eq_refl eq_refl)
    as [_ [_ [H _]]].
  rewrite H. reflexivity.
Defined.

(** X10: a response that carries only one of the two fences is cleaned as
    well: the opening fence alone (with or without the tag json) and the
    closing fence alone are each removed from a payload that carries no
    fence of its own, and the three parsers then read the payload. *)
Theorem a_single_fence_is_stripped_too {R : Runtime}
    (tag : bool) (payload : string) :
  bare payload ->
  let opening := "```" ++ (if tag then "json" else "") ++ nl in
  let closing := nl ++ "```" in
  clean_response (opening ++ payload) = strip payload
  /\ clean_response (payload ++ closing) = strip payload
  /\ SubtitleTranslationService._parse_response (opening ++ payload)
     = SubtitleTranslationService._parse_response payload
  /\ SubtitleTranslationService._parse_response (payload ++ closing)
     = SubtitleTranslationService._parse_response payload.
Proof.
  intros [Hs He] opening closing.
  assert (clean_response (opening ++ payload) = strip payload) as H1.
  { subst opening. rewrite !append_assoc. now apply clean_opening_fence_only. }
  assert (clean_response (payload ++ closing) = strip payload) as H2
    by now apply clean_closing_fence_only.
  pose proof (clean_bare (conj Hs He)) as H0.
  repeat split; try assumption;
    unfold SubtitleTranslationService._parse_response;
    now rewrite ?H1, ?H2, H0.
Qed.

Lemma a_single_fence_is_stripped_too_witness :
  @SubtitleTranslationService._parse_response (Mock.runtime Mock.table)
    (("```" ++ "json" ++ nl) ++ Mock.hola_mundo_text)
  = inr [PyStr "Hola"; PyStr "Mundo"]
  /\ @SubtitleTranslationService._parse_response (Mock.runtime Mock.table)
       (Mock.hola_mundo_text ++ nl ++ "```")
     = inr [PyStr "Hola"; PyStr "Mundo"].
Proof.
  assert (bare Mock.hola_mundo_text) as B by (split; reflexivity).
  destruct (@a_single_fence_is_stripped_too (Mock.runtime Mock.table)
              true Mock.hola_mundo_text B) as [_ [_ [H1 H2]]].
  split; [rewrite H1 | rewrite H2]; reflexivity.
Defined.

(* ================================================================== *)
(** * Further properties: the single-call services and their endpoints *)
(* ================================================================== *)

Section SingleCallFacts.
Context {R : Runtime}.

Lemma detect_outcome (text : string) (st : St) :
  exists w,
    let st' := after_call (LanguageDetectionService.prompt text) w st in
    (exists l c,
       LanguageDetectionService.detect text st = (inr (true, l, c, PyNone), st'))
    \/ (exists e,
          LanguageDetectionService.detect text st
          = (inr (false, PyNone, PyNone,
                  PyStr ("Language detection failed: " ++ exc_str e)), st')).
Proof.
  unfold LanguageDetectionService.detect, try_except, bind, generate_text,
    lift, after_call.
  destruct (generate_content _ (world st)) as [[e|txt] w]; exists w; cbn.
  - right. now exists e.
  - destruct (LanguageDetectionService._parse_response txt) as [e|result].
    + right. now exists e.
    + left. now do 2 eexists.
Qed.

Lemma transliterate_outcome_trace (text source_script target_script : string)
    (st : St) :
  exists w,
    let st' := after_call
                 (TransliterationService.prompt text source_script target_script)
                 w st in
    (exists t d,
       TransliterationService.transliterate text source_script target_script st
       = (inr (true, t, d, PyNone), st'))
    \/ (exists e,
          TransliterationService.transliterate text source_script target_script st
          = (inr (false, PyNone, PyNone,
                  PyStr ("Transliteration failed: " ++ exc_str e)), st')).
Proof.
  unfold TransliterationService.transliterate, try_except, bind, generate_text,
    lift, after_call.
  destruct (generate_content _ (world st)) as [[e|txt] w]; exists w; cbn.
  - right. now exists e.
  - destruct (TransliterationService._parse_response txt) as [e|result].
    + right. now exists e.
    + left. now do 2 eexists.
Qed.

Lemma text_translate_outcome (text source_language target_language : string)
    (st : St) :
  exists w,
    let prompt :=
      TextTranslationService.prompt text source_language target_language in
    let st' := after_call prompt w st in
    (exists txt,
       generate_content prompt (world st) = (inr txt, w)
       /\ TextTranslationService.translate text source_language target_language st
          = (inr (true, PyStr (strip txt), PyNone), st'))
    \/ (exists e,
          generate_content prompt (world st) = (inl e, w)
          /\ TextTranslationService.translate text source_language target_language st
             = (inr (false, PyNone,
                     PyStr ("Text translation failed: " ++ exc_str e)), st')).
Proof.
  unfold TextTranslationService.translate, try_except, bind, generate_text,
    after_call.
  destruct (generate_content _ (world st)) as [[e|txt] w]; exists w; cbn.
  - right. now exists e.
  - left. now exists txt.
Qed.

Lemma unit_float_checked (field : string) (v : PyVal) (x : option float) :
  optional_unit_float field v = inr x ->
  x = None \/ exists f, x = Some f /\ in_unit f = true.
Proof.
  unfold optional_unit_float, in_unit.
  destruct v; try (intros H; inversion H; now left);
    (destruct (float_field _) as [q|]; [|discriminate];
     destruct (PrimFloat.leb 0%float q) eqn:L; [|discriminate];
     destruct (PrimFloat.leb q 1%float) eqn:U; [|discriminate];
     intros H; inversion H; right; exists q; now rewrite L, U).
Qed.

Lemma text_translation_response (success : bool) (s g : string) (t m : PyVal) :
  TextTranslationResponse.new success t (PyStr s) (PyStr g) m =
  match optional_str "translated_text" t, optional_str "error_message" m with
  | inr x, inr y => inr (TextTranslationResponse.mk success x s g y)
  | inl e, inl e' => inl (e ++ e')%list
  | inl e, inr _ => inl e
  | inr _, inl e' => inl e'
  end.
Proof.
  unfold TextTranslationResponse.new. rewrite !required_str_str.
  destruct (optional_str "translated_text" t),
    (optional_str "error_message" m); reflexivity.
Qed.
End SingleCallFacts.

(** X11: the detection, transliteration and text translation services never
    raise and never retry: each makes exactly one call to the provider, with
    its own prompt, and returns either a success tuple or a failure tuple
    whose payload fields are None and whose message is the prefix of the
    service followed by str(e) of the error that occurred. *)
Theorem single_call_services_call_once_and_never_raise {R : Runtime}
    (text a b : string) (st : St) :
  (exists w,
     let st' := after_call (LanguageDetectionService.prompt text) w st in
     (exists l c,
        LanguageDetectionService.detect text st
        = (inr (true, l, c, PyNone), st'))
     \/ (exists e,
           LanguageDetectionService.detect text st
           = (inr (false, PyNone, PyNone,
                   PyStr ("Language detection failed: " ++ exc_str e)), st')))
  /\ (exists w,
        let st' := after_call (TransliterationService.prompt text a b) w st in
        (exists t d,
           TransliterationService.transliterate text a b st
           = (inr (true, t, d, PyNone), st'))
        \/ (exists e,
              TransliterationService.transliterate text a b st
              = (inr (false, PyNone, PyNone,
                      PyStr ("Transliteration failed: " ++ exc_str e)), st')))
  /\ (exists w,
        let st' := after_call (TextTranslationService.prompt text a b) w st in
        (exists translated,
           TextTranslationService.translate text a b st
           = (inr (true, PyStr translated, PyNone), st')
           /\ strip translated = translated)
        \/ (exists e,
              TextTranslationService.translate text a b st
              = (inr (false, PyNone,
                      PyStr ("Text translation failed: " ++ exc_str e)), st'))).
Proof.
  split; [apply detect_outcome|]. split; [apply transliterate_outcome_trace|].
  destruct (text_translate_outcome text a b st) as [w [[txt [_ H]]|[e [_ H]]]];
    exists w; cbn.
  - left. exists (strip txt). split; [exact H | apply strip_idem].
  - right. now exists e.
Qed.

(** X12: POST /detect/language never raises, and the confidence of the
    response it gives is either absent or a number in [0,1]; a response with
    success = false carries no language and no confidence, and it carries an
    error message. *)
Theorem detection_endpoint_answers_with_a_checked_confidence {R : Runtime}
    (request : LanguageDetectionRequest.t) (st : St) :
  exists response st',
    Main.detect_language request st = (inr response, st')
    /\ (LanguageDetectionResponse.confidence response = None
        \/ exists f, LanguageDetectionResponse.confidence response = Some f
                     /\ in_unit f = true)
    /\ (LanguageDetectionResponse.success response = false ->
          LanguageDetectionResponse.detected_language response = None
          /\ LanguageDetectionResponse.confidence response = None
          /\ exists msg,
               LanguageDetectionResponse.error_message response = Some msg).
Proof.
  destruct (detect_outcome (LanguageDetectionRequest.text request) st)
    as [w [[l [c H]]|[e H]]]; cbn in H;
    rewrite (detect_language_after request st H).
  - destruct (validated "LanguageDetectionResponse" _) as [e|resp] eqn:V.
    + do 2 eexists. split; [reflexivity|]. cbn.
      split; [now left|]. intros _. repeat split. now eexists.
    + exists resp. eexists. split; [reflexivity|].
      unfold validated, LanguageDetectionResponse.new in V.
      destruct (both _ _) as [errs|[x [y z]]] eqn:B; [discriminate|].
      inversion V; subst resp; clear V. cbn.
      apply both_inr in B as [_ B]. apply both_inr in B as [B _].
      split; [now apply unit_float_checked in B | discriminate].
  - rewrite detection_failure_response. cbn.
    do 2 eexists. split; [reflexivity|]. cbn.
    split; [now left|]. intros _. repeat split. now eexists.
Qed.

(** X13: POST /transliterate never raises and always answers with the
    target_script of the request; a response with success = false carries no
    transliterated text, and it carries an error message. *)
Theorem transliteration_endpoint_echoes_the_target_script {R : Runtime}
    (request : TransliterationRequest.t) (st : St) :
  exists response st',
    Main.transliterate_text request st = (inr response, st')
    /\ TransliterationResponse.target_script response
       = TransliterationRequest.target_script request
    /\ (TransliterationResponse.success response = false ->
          TransliterationResponse.transliterated_text response = None
          /\ exists msg,
               TransliterationResponse.error_message response = Some msg).
Proof.
  destruct (transliterate_outcome_trace
              (TransliterationRequest.text request)
              (TransliterationRequest.source_script request)
              (TransliterationRequest.target_script request) st)
    as [w [[t [d H]]|[e H]]]; cbn in H;
    rewrite (transliterate_text_after request st H).
  - destruct (validated "TransliterationResponse" _) as [e|resp] eqn:V.
    + do 2 eexists. split; [reflexivity|]. cbn.
      split; [reflexivity|]. intros _. split; [reflexivity | now eexists].
    + exists resp. eexists. split; [reflexivity|].
      unfold validated, TransliterationResponse.new in V.
      destruct (both _ _) as [errs|[x [y [z u]]]] eqn:B; [discriminate|].
      inversion V; subst resp; clear V. cbn.
      apply both_inr in B as [_ B]. apply both_inr in B as [_ B].
      apply both_inr in B as [B _]. rewrite required_str_str in B.
      split; [now inversion B | discriminate].
  - cbn [py_or truthy].
    rewrite transliteration_response, optional_str_str. cbn.
    do 2 eexists. split; [reflexivity|]. cbn.
    split; [reflexivity|]. intros _. split; [reflexivity | now eexists].
Qed.

(** X14: POST /translate/text never raises, makes exactly one call to the
    provider and always echoes the source and target language of the request.
    When the provider returns a text, the response is a success whose
    translated text is that text stripped of surrounding white space; when
    the provider raises, the response is a failure with no translated text
    and the message "Text translation failed: " followed by str(e). *)
Theorem text_translation_endpoint_strips_and_echoes {R : Runtime}
    (request : TextTranslationRequest.t) (st : St) :
  let prompt := TextTranslationService.prompt
                  (TextTranslationRequest.text request)
                  (TextTranslationRequest.source_language request)
                  (TextTranslationRequest.target_language request) in
  exists response w,
    Main.translate_text_gemini request st
    = (inr response, after_call prompt w st)
    /\ TextTranslationResponse.source_language response
       = TextTranslationRequest.source_language request
    /\ TextTranslationResponse.target_language response
       = TextTranslationRequest.target_language request
    /\ ((exists txt,
           generate_content prompt (world st) = (inr txt, w)
           /\ TextTranslationResponse.success response = true
           /\ TextTranslationResponse.translated_text response = Some (strip txt)
           /\ TextTranslationResponse.error_message response = None)
        \/ (exists e,
              generate_content prompt (world st) = (inl e, w)
              /\ TextTranslationResponse.success response = false
              /\ TextTranslationResponse.translated_text response = None
              /\ TextTranslationResponse.error_message response
                 = Some ("Text translation failed: " ++ exc_str e))).
Proof.
  intros prompt.
  destruct (text_translate_outcome
              (TextTranslationRequest.text request)
              (TextTranslationRequest.source_language request)
              (TextTranslationRequest.target_language request) st)
    as [w [[txt [Hg H]]|[e [Hg H]]]]; cbn in H; fold prompt in H, Hg;
    unfold Main.translate_text_gemini, try_except, bind at 1; rewrite H;
    unfold lift; rewrite text_translation_response, optional_str_str; cbn;
    do 2 eexists; (split; [reflexivity|]); cbn; repeat split.
  - left. exists txt. now repeat split.
  - right. exists e. now repeat split.
Qed.

(* ================================================================== *)
(** * Further properties: the validators of the requests *)
(* ================================================================== *)

Section MoreValidationFacts.

Lemma strip_length (v : string) : String.length (strip v) <= String.length v.
Proof.
  unfold strip. pose proof (rstrip_length (lstrip v)) as H1.
  destruct (lstrip_split v) as [u [E _]].
  apply (f_equal String.length) in E. rewrite length_append in E. lia.
Qed.

Lemma nonempty_length (v : string) : v <> "" -> 1 <= String.length v.
Proof. destruct v; [contradiction | simpl; lia]. Qed.

Lemma checked_text_bounds (field msg v r : string) :
  and_then (check_length field 1 5000 v) (strip_validator field msg) = inr r ->
  r = strip v /\ r <> "" /\ String.length v <= 5000.
Proof.
  unfold and_then, check_length.
  destruct (String.length v <? 1)%nat; [discriminate|].
  destruct (Nat.ltb_spec 5000 (String.length v)) as [L|L]; [discriminate|].
  intros H. apply strip_validator_ok in H as [H1 H2]. now repeat split.
Qed.

Lemma checked_text_out_of_bounds (field msg v : string) :
  String.length v = 0 \/ 5000 < String.length v ->
  exists errs,
    and_then (check_length field 1 5000 v) (strip_validator field msg) = inl errs.
Proof.
  intros H. unfold and_then, check_length.
  destruct (Nat.ltb_spec (String.length v) 1); [eexists; reflexivity|].
  destruct (Nat.ltb_spec 5000 (String.length v)); [eexists; reflexivity|]. lia.
Qed.

Lemma strip_validator_again (field msg v : string) :
  strip v <> "" -> strip_validator field msg (strip v) = inr (strip v).
Proof.
  intros H. unfold strip_validator. rewrite strip_idem.
  now destruct (String.eqb_spec (strip v) "").
Qed.

Lemma checked_text_again (field msg v : string) :
  strip v <> "" -> String.length v <= 5000 ->
  and_then (check_length field 1 5000 (strip v)) (strip_validator field msg)
  = inr (strip v).
Proof.
  intros Hne Hlen. unfold and_then, check_length.
  pose proof (strip_length v). pose proof (nonempty_length Hne).
  destruct (Nat.ltb_spec (String.length (strip v)) 1); [lia|].
  destruct (Nat.ltb_spec 5000 (String.length (strip v))); [lia|].
  now apply strip_validator_again.
Qed.
End MoreValidationFacts.

(** X15: the length of a text is checked on the text as it is sent, before
    any trimming: a /translate, /translate/text or /detect/language request
    whose text is empty or longer than 5000 characters is rejected, and the
    text of an accepted request, which is the trimmed one, has between 1 and
    5000 characters. *)
Theorem text_length_is_checked_before_trimming (x : string) :
  (String.length x = 0 \/ 5000 < String.length x ->
     (forall s g, exists errs, TranslationRequest.new x s g = inl errs)
     /\ (forall s g, exists errs, TextTranslationRequest.new x s g = inl errs)
     /\ (exists errs, LanguageDetectionRequest.new x = inl errs))
  /\ (forall s g r, TranslationRequest.new x s g = inr r ->
        1 <= String.length (TranslationRequest.text r) <= 5000)
  /\ (forall s g r, TextTranslationRequest.new x s g = inr r ->
        1 <= String.length (TextTranslationRequest.text r) <= 5000)
  /\ (forall r, LanguageDetectionRequest.new x = inr r ->
        1 <= String.length (LanguageDetectionRequest.text r) <= 5000).
Proof.
  assert (forall msg r,
            and_then (check_length "text" 1 5000 x) (strip_validator "text" msg)
            = inr r -> 1 <= String.length r <= 5000) as Hok.
  { intros msg r H. apply checked_text_bounds in H as [-> [Hne Hlen]].
    pose proof (strip_length x). pose proof (nonempty_length Hne). lia. }
  split; [|split; [|split]].
  - intros H.
    destruct (checked_text_out_of_bounds "text"
                "Text cannot be empty or only whitespace" x H) as [e He].
    split; [|split].
    + intros s g. unfold TranslationRequest.new. cbv zeta.
      replace (and_then (check_length "text" 1 5000 x)
                 TranslationRequest.validate_text)
        with (@inl ErrorDetails string e) by (symmetry; exact He).
      match goal with |- context [both (inl e) ?b] => destruct b end;
        eexists; reflexivity.
    + intros s g. unfold TextTranslationRequest.new.
      replace (and_then (check_length "text" 1 5000 x)
                 TextTranslationRequest.validate_text)
        with (@inl ErrorDetails string e) by (symmetry; exact He).
      destruct (TextTranslationRequest.validate_target_language g);
        eexists; reflexivity.
    + unfold LanguageDetectionRequest.new.
      replace (and_then (check_length "text" 1 5000 x)
                 LanguageDetectionRequest.validate_text)
        with (@inl ErrorDetails string e) by (symmetry; exact He).
      now exists e.
  - intros s g r H. unfold TranslationRequest.new in H.
    destruct (both _ _) as [e|[x' [s' g']]] eqn:E; [discriminate|].
    inversion H; subst r. cbn. apply both_inr in E as [Ex _].
    now apply Hok in Ex.
  - intros s g r H. unfold TextTranslationRequest.new in H.
    destruct (both _ _) as [e|[x' g']] eqn:E; [discriminate|].
    inversion H; subst r. cbn. apply both_inr in E as [Ex _].
    now apply Hok in Ex.
  - intros r H. unfold LanguageDetectionRequest.new in H.
    destruct (and_then _ _) as [e|x'] eqn:E; [discriminate|].
    inversion H; subst r. cbn. now apply Hok in E.
Qed.

Lemma text_length_is_checked_before_trimming_witness :
  (exists errs, LanguageDetectionRequest.new "" = inl errs)
  /\ forall r, LanguageDetectionRequest.new "  Bonjour  " = inr r ->
       1 <= String.length (LanguageDetectionRequest.text r) <= 5000.
Proof.
  split.
  - destruct (text_length_is_checked_before_trimming "") as [H _].
    destruct (H (or_introl eq_refl)) as [_ [_ He]]. exact He.
  - destruct (text_length_is_checked_before_trimming "  Bonjour  ")
      as [_ [_ [_ H]]]. exact H.
Defined.

(** X16: validation is idempotent: the fields of an accepted /translate,
    /translate/text or /detect/language request, validated once more, are
    accepted and give the same request again. *)
Theorem validating_an_accepted_request_again_changes_nothing :
  (forall x s g r,
     TranslationRequest.new x (Some s) (Some g) = inr r ->
     TranslationRequest.new (TranslationRequest.text r)
       (Some (TranslationRequest.source_language r))
       (Some (TranslationRequest.target_language r)) = inr r)
  /\ (forall x s g r,
        TextTranslationRequest.new x s g = inr r ->
        TextTranslationRequest.new (TextTranslationRequest.text r)
          (Some (TextTranslationRequest.source_language r))
          (TextTranslationRequest.target_language r) = inr r)
  /\ (forall x r,
        LanguageDetectionRequest.new x = inr r ->
        LanguageDetectionRequest.new (LanguageDetectionRequest.text r) = inr r).
Proof.
  split; [|split].
  - intros x s g r H. unfold TranslationRequest.new in H.
    destruct (both _ _) as [e|[x' [s' g']]] eqn:E; [discriminate|].
    inversion H; subst r; clear H. cbn.
    apply both_inr in E as [Ex E]. apply both_inr in E as [Es Eg].
    apply checked_text_bounds in Ex as [-> [Hx Hlen]].
    apply strip_validator_ok in Es as [-> Hs], Eg as [-> Hg].
    unfold TranslationRequest.new. cbv zeta.
    replace (and_then (check_length "text" 1 5000 (strip x))
               TranslationRequest.validate_text)
      with (@inr ErrorDetails string (strip x))
      by (symmetry; exact (@checked_text_again "text" _ x Hx Hlen)).
    unfold TranslationRequest.validate_language.
    now rewrite !strip_validator_again.
  - intros x s g r H. unfold TextTranslationRequest.new in H.
    destruct (both _ _) as [e|[x' g']] eqn:E; [discriminate|].
    inversion H; subst r; clear H. cbn.
    apply both_inr in E as [Ex Eg].
    apply checked_text_bounds in Ex as [-> [Hx Hlen]].
    apply strip_validator_ok in Eg as [-> Hg].
    unfold TextTranslationRequest.new.
    replace (and_then (check_length "text" 1 5000 (strip x))
               TextTranslationRequest.validate_text)
      with (@inr ErrorDetails string (strip x))
      by (symmetry; exact (@checked_text_again "text" _ x Hx Hlen)).
    unfold TextTranslationRequest.validate_target_language.
    now rewrite strip_validator_again.
  - intros x r H. unfold LanguageDetectionRequest.new in H.
    destruct (and_then _ _) as [e|x'] eqn:E; [discriminate|].
    inversion H; subst r; clear H. cbn.
    apply checked_text_bounds in E as [-> [Hx Hlen]].
    unfold LanguageDetectionRequest.new.
    now replace (and_then (check_length "text" 1 5000 (strip x))
                   LanguageDetectionRequest.validate_text)
      with (@inr ErrorDetails string (strip x))
      by (symmetry; exact (@checked_text_again "text" _ x Hx Hlen)).
Qed.

Lemma validating_an_accepted_request_again_changes_nothing_witness :
  TranslationRequest.new "Good morning" (Some "English") (Some "Telugu")
  = inr (TranslationRequest.mk "Good morning" "English" "Telugu").
Proof.
  destruct validating_an_accepted_request_again_changes_nothing as [H _].
  exact (H "  Good morning " "English " " Telugu"
           (TranslationRequest.mk "Good morning" "English" "Telugu") eq_refl).
Defined.

(* ================================================================== *)
(** * Further properties: the Chipp translation service *)
(* ================================================================== *)

Section ChippFacts.
Context {W : Web}.
Import TranslationService.

Lemma method_strip_stripped (v : PyVal) (tr : string) :
  method_strip v = inr tr -> exists c, v = PyStr c /\ tr = strip c.
Proof. destruct v; intros H; inversion H. now eexists. Qed.

Lemma method_get_dict (v : PyVal) (key : string) (default x : PyVal) :
  method_get v key default = inr x ->
  exists members,
    v = PyDict members
    /\ x = match dict_get members key with Some y => y | None => default end.
Proof. destruct v; intros H; inversion H. now eexists. Qed.

Lemma first_content_answer (result : PyVal) (tr : string) :
  has_choices result = inr true -> first_content result = inr tr ->
  exists content, answer_with result content /\ tr = strip content.
Proof.
  intros _ H. unfold first_content, and_so in H.
  destruct (subscript_key result "choices") as [e|choices] eqn:E1; [discriminate|].
  destruct (subscript_index choices 0) as [e|choice] eqn:E2; [discriminate|].
  destruct (method_get choice "message" (PyDict [])) as [e|message] eqn:E3;
    [discriminate|].
  destruct (method_get message "content" (PyStr "")) as [e|content] eqn:E4;
    [discriminate|].
  apply method_strip_stripped in H as [c [-> ->]].
  apply method_get_dict in E4 as [mm [-> E4]].
  apply method_get_dict in E3 as [cm [-> E3]].
  destruct result; try discriminate. cbn in E1.
  destruct (dict_get members "choices") as [ch|] eqn:D; [|discriminate].
  inversion E1; subst ch; clear E1.
  destruct choices; try discriminate; cbn in E2.
  - destruct (String.get 0 s); discriminate.
  - destruct items as [|first more]; [discriminate|]. cbn in E2.
    inversion E2; subst first; clear E2.
    exists c. split; [|reflexivity].
    exists members, cm, more, mm. now repeat split.
Qed.

Lemma answer_is_read (result : PyVal) (content : string) :
  answer_with result content ->
  has_choices result = inr true /\ first_content result = inr (strip content).
Proof.
  intros [members [choice [more [message [-> [Hc [Hm Hx]]]]]]].
  unfold has_choices, first_content, and_so. cbn [py_in has_key subscript_key].
  rewrite Hc. cbn [py_len List.length Nat.ltb Nat.leb subscript_index nth_error
                   method_get].
  rewrite Hm. cbn [method_get]. rewrite Hx. split; reflexivity.
Qed.

Lemma on_exception_fails (e : PyExc) :
  exists msg, on_exception e = (false, PyNone, PyStr msg).
Proof.
  unfold on_exception.
  destruct (is_timeout_exception e); [now eexists|].
  destruct (is_request_error e); now eexists.
Qed.

(** What [read_response] returns when it returns. *)
Lemma read_response_shape (response : Httpx.Response) (r : bool * PyVal * PyVal) :
  read_response response = inr r ->
  (exists content result,
     Httpx.status_code response = 200%Z
     /\ Httpx.json response = inr result
     /\ answer_with result content
     /\ r = (true, PyStr (strip content), PyNone))
  \/ (exists msg, r = (false, PyNone, PyStr msg)).
Proof.
  unfold read_response.
  destruct (Z.eqb_spec (Httpx.status_code response) 200) as [Hs|Hs].
  - unfold and_so.
    destruct (Httpx.json response) as [e|result] eqn:J; [discriminate|].
    destruct (has_choices result) as [e|[|]] eqn:Hc; [discriminate| |].
    + destruct (first_content result) as [e|tr] eqn:F; [discriminate|].
      intros H. inversion H; subst r.
      destruct (first_content_answer _ Hc F) as [content [Ha ->]].
      left. now exists content, result.
    + intros H. inversion H. right. now eexists.
  - intros H. inversion H. right. now eexists.
Qed.

(** The service never raises; it succeeds exactly on an answer. *)
Lemma translate_shape (self : t) (text src tgt : string) (net : Net) :
  exists net',
    (exists response result content,
       post (base_url self) (timeout self) (headers self)
         (data self text src tgt) net = (inr response, net')
       /\ Httpx.status_code response = 200%Z
       /\ Httpx.json response = inr result
       /\ answer_with result content
       /\ translate self text src tgt net
          = (inr (true, PyStr (strip content), PyNone), net'))
    \/ (exists msg,
          translate self text src tgt net = (inr (false, PyNone, PyStr msg), net')).
Proof.
  unfold translate.
  destruct (post _ _ _ _ net) as [[e|response] net'] eqn:P; exists net'.
  - right. destruct (on_exception_fails e) as [msg ->]. now exists msg.
  - destruct (read_response response) as [e|r] eqn:Rd.
    + right. destruct (on_exception_fails e) as [msg ->]. now exists msg.
    + apply read_response_shape in Rd
        as [[content [result [Hs [Hj [Ha ->]]]]] | [msg ->]].
      * left. now exists response, result, content.
      * right. now exists msg.
Qed.
End ChippFacts.

(** X17: the Chipp translation service never raises: whatever the network
    and the response do, it returns either (True, text, None) with a text
    that has no surrounding white space, or (False, None, message). *)
Theorem chipp_translate_never_raises {W : Web}
    (self : TranslationService.t) (text source_language target_language : string)
    (net : Net) :
  exists net',
    (exists translated,
       TranslationService.translate self text source_language target_language net
       = (inr (true, PyStr translated, PyNone), net')
       /\ strip translated = translated)
    \/ (exists msg,
          TranslationService.translate self text source_language target_language net
          = (inr (false, PyNone, PyStr msg), net')).
Proof.
  destruct (translate_shape self text source_language target_language net)
    as [net' [[response [result [content [_ [_ [_ [_ H]]]]]]] | [msg H]]];
    exists net'.
  - left. exists (strip content). split; [exact H | apply strip_idem].
  - right. now exists msg.
Qed.

(** X18: the Chipp translation service succeeds exactly when the response
    has status 200 and its body decodes to an object whose "choices" is a
    list starting with an object, whose "message" (the empty object when
    absent) is an object, whose "content" (the empty string when absent) is a
    string; the translation is then that string, stripped. *)
Theorem chipp_translate_succeeds_exactly_on_an_answer {W : Web}
    (self : TranslationService.t) (text source_language target_language : string)
    (net net' : Net) :
  (forall t m,
     TranslationService.translate self text source_language target_language net
     = (inr (true, t, m), net') ->
     exists response result content,
       post (TranslationService.base_url self) (TranslationService.timeout self)
         (TranslationService.headers self)
         (TranslationService.data self text source_language target_language) net
       = (inr response, net')
       /\ Httpx.status_code response = 200%Z
       /\ Httpx.json response = inr result
       /\ answer_with result content
       /\ t = PyStr (strip content) /\ m = PyNone)
  /\ (forall response result content,
        post (TranslationService.base_url self) (TranslationService.timeout self)
          (TranslationService.headers self)
          (TranslationService.data self text source_language target_language) net
        = (inr response, net') ->
        Httpx.status_code response = 200%Z ->
        Httpx.json response = inr result ->
        answer_with result content ->
        TranslationService.translate self text source_language target_language net
        = (inr (true, PyStr (strip content), PyNone), net')).
Proof.
  split.
  - intros t m H.
    destruct (translate_shape self text source_language target_language net)
      as [net0 [[response [result [content [P [Hs [Hj [Ha H0]]]]]]] | [msg H0]]];
      rewrite H0 in H; inversion H; subst.
    now exists response, result, content.
  - intros response result content P Hs Hj Ha.
    unfold TranslationService.translate. rewrite P.
    unfold TranslationService.read_response. rewrite Hs, Hj. cbn [Z.eqb Pos.eqb and_so].
    destruct (answer_is_read Ha) as [-> ->]. reflexivity.
Qed.

Lemma chipp_translate_succeeds_exactly_on_an_answer_witness :
  @TranslationService.translate Mock.web Mock.chipp "Hello" "English" "Telugu"
    [Mock.ok_response (Mock.chipp_answer "  namaskaram ")]
  = (inr (true, PyStr "namaskaram", PyNone), []).
Proof.
  destruct (@chipp_translate_succeeds_exactly_on_an_answer Mock.web Mock.chipp
              "Hello" "English" "Telugu"
              [Mock.ok_response (Mock.chipp_answer "  namaskaram ")] [])
    as [_ H].
  apply (H _ (Mock.chipp_answer "  namaskaram ") "  namaskaram "
           eq_refl eq_refl eq_refl).
  do 4 eexists. repeat split; reflexivity.
Defined.

(** X19: a 200 response whose first choice has no "message", or whose
    message has no "content", counts as a success: the service returns
    (True, "", None), an empty translation. *)
Theorem chipp_missing_content_is_an_empty_translation {W : Web}
    (self : TranslationService.t) (text source_language target_language : string)
    (net net' : Net) (response : Httpx.Response)
    (members choice : list (string * PyVal)) (more : list PyVal) :
  post (TranslationService.base_url self) (TranslationService.timeout self)
    (TranslationService.headers self)
    (TranslationService.data self text source_language target_language) net
  = (inr response, net') ->
  Httpx.status_code response = 200%Z ->
  Httpx.json response = inr (PyDict members) ->
  dict_get members "choices" = Some (PyList (PyDict choice :: more)) ->
  (dict_get choice "message" = None
   \/ exists message, dict_get choice "message" = Some (PyDict message)
                      /\ dict_get message "content" = None) ->
  TranslationService.translate self text source_language target_language net
  = (inr (true, PyStr "", PyNone), net').
Proof.
  intros P Hs Hj Hc Hm.
  assert (answer_with (PyDict members) "") as Ha.
  { destruct Hm as [Hm | [message [Hm Hx]]].
    - exists members, choice, more, []. rewrite Hm. now repeat split.
    - exists members, choice, more, message. rewrite Hm, Hx. now repeat split. }
  unfold TranslationService.translate. rewrite P.
  unfold TranslationService.read_response. rewrite Hs, Hj. cbn [Z.eqb Pos.eqb and_so].
  destruct (answer_is_read Ha) as [-> ->]. reflexivity.
Qed.

Lemma chipp_missing_content_is_an_empty_translation_witness :
  @TranslationService.translate Mock.web Mock.chipp "Hello" "English" "Telugu"
    [Mock.ok_response (PyDict [("choices", PyList [PyDict []])])]
  = (inr (true, PyStr "", PyNone), []).
Proof.
  apply (@chipp_missing_content_is_an_empty_translation Mock.web Mock.chipp
           "Hello" "English" "Telugu"
           [Mock.ok_response (PyDict [("choices", PyList [PyDict []])])] []
           (Httpx.mkResponse 200 "(body)"
              (inr (PyDict [("choices", PyList [PyDict []])])))
           [("choices", PyList [PyDict []])] [] []
           eq_refl eq_refl eq_refl eq_refl).
  now left.
Defined.

(** X20: how the Chipp translation service reports failures.  A response
    whose status is not 200 gives "API call failed with status <code>:
    <body>", whatever the body is; a 200 response whose body is an object
    without "choices", or with an empty list of choices, gives "No
    translation in response: <body>"; a timeout of the request gives
    "Translation request timed out", and any other exception of the request
    gives "Request error: " or "Unexpected error: " followed by str(e). *)
Theorem chipp_failures_are_reported_by_kind {W : Web}
    (self : TranslationService.t) (text source_language target_language : string)
    (net net' : Net) :
  let run := TranslationService.translate self text source_language
               target_language net in
  let sent := post (TranslationService.base_url self)
                (TranslationService.timeout self)
                (TranslationService.headers self)
                (TranslationService.data self text source_language
                   target_language) net in
  (forall response,
     sent = (inr response, net') -> Httpx.status_code response <> 200%Z ->
     run = (inr (false, PyNone,
                 PyStr ("API call failed with status "
                        ++ str_of_Z (Httpx.status_code response) ++ ": "
                        ++ Httpx.text response)), net'))
  /\ (forall response members,
        sent = (inr response, net') -> Httpx.status_code response = 200%Z ->
        Httpx.json response = inr (PyDict members) ->
        dict_get members "choices" = None
        \/ dict_get members "choices" = Some (PyList []) ->
        run = (inr (false, PyNone,
                    PyStr ("No translation in response: "
                           ++ format_value (PyDict members))), net'))
  /\ (forall e,
        sent = (inl e, net') ->
        run = (inr (false, PyNone,
                    PyStr (if is_timeout_exception e
                           then "Translation request timed out"
                           else if is_request_error e
                                then "Request error: " ++ exc_str e
                                else "Unexpected error: " ++ exc_str e)), net')).
Proof.
  intros run sent. subst run sent. unfold TranslationService.translate.
  split; [|split].
  - intros response -> Hs. unfold TranslationService.read_response.
    now destruct (Z.eqb_spec (Httpx.status_code response) 200).
  - intros response members -> Hs Hj Hc.
    unfold TranslationService.read_response. rewrite Hs, Hj.
    cbn [Z.eqb Pos.eqb and_so].
    unfold TranslationService.has_choices, and_so.
    cbn [py_in has_key subscript_key].
    destruct Hc as [-> | ->]; reflexivity.
  - intros e ->. unfold TranslationService.on_exception.
    destruct (is_timeout_exception e); [reflexivity|].
    now destruct (is_request_error e).
Qed.

Lemma chipp_failures_are_reported_by_kind_witness :
  @TranslationService.translate Mock.web Mock.chipp "Hello" "English" "Telugu"
    [inr (Httpx.mkResponse 503 "busy" (inr (Mock.chipp_answer "namaskaram")))]
  = (inr (false, PyNone, PyStr "API call failed with status 503: busy"), [])
  /\ @TranslationService.translate Mock.web Mock.chipp "Hello" "English" "Telugu"
       [inl (mkExc "ReadTimeout" "")]
     = (inr (false, PyNone, PyStr "Translation request timed out"), []).
Proof.
  split.
  - destruct (@chipp_failures_are_reported_by_kind Mock.web Mock.chipp
                "Hello" "English" "Telugu"
                [inr (Httpx.mkResponse 503 "busy"
                        (inr (Mock.chipp_answer "namaskaram")))] [])
      as [H _].
    apply (H (Httpx.mkResponse 503 "busy" (inr (Mock.chipp_answer "namaskaram")))
             eq_refl).
    discriminate.
  - destruct (@chipp_failures_are_reported_by_kind Mock.web Mock.chipp
                "Hello" "English" "Telugu" [inl (mkExc "ReadTimeout" "")] [])
      as [_ [_ H]].
    exact (H (mkExc "ReadTimeout" "") eq_refl).
Defined.

Section TranslateEndpointFacts.
Context {R : Runtime} {W : Web}.

Lemma translation_response (success : bool) (s g o : string) (t m : PyVal) :
  TranslationResponse.new success t (PyStr s) (PyStr g) (PyStr o) m =
  match optional_str "translated_text" t, optional_str "error_message" m with
  | inr x, inr y => inr (TranslationResponse.mk success x s g o y)
  | inl e, inl e' => inl (e ++ e')%list
  | inl e, inr _ => inl e
  | inr _, inl e' => inl e'
  end.
Proof.
  unfold TranslationResponse.new. rewrite !required_str_str.
  destruct (optional_str "translated_text" t),
    (optional_str "error_message" m); reflexivity.
Qed.
End TranslateEndpointFacts.

(** X21: POST /translate never raises the HTTPException of its except
    clause: it always answers with a response that echoes the text and the
    two languages of the request; the response is either a success with a
    translated text free of surrounding white space and no error message, or
    a failure with an error message and no translated text. *)
Theorem translate_endpoint_never_answers_500 {R : Runtime} {W : Web}
    (translation_service : TranslationService.t)
    (request : TranslationRequest.t) (net : Net) :
  exists response net',
    Main.translate_text translation_service request net = (inr response, net')
    /\ TranslationResponse.original_text response = TranslationRequest.text request
    /\ TranslationResponse.source_language response
       = TranslationRequest.source_language request
    /\ TranslationResponse.target_language response
       = TranslationRequest.target_language request
    /\ ((TranslationResponse.success response = true
         /\ TranslationResponse.error_message response = None
         /\ exists translated,
              TranslationResponse.translated_text response = Some translated
              /\ strip translated = translated)
        \/ (TranslationResponse.success response = false
            /\ TranslationResponse.translated_text response = None
            /\ exists msg, TranslationResponse.error_message response = Some msg)).
Proof.
  unfold Main.translate_text.
  destruct (translate_shape translation_service
              (TranslationRequest.text request)
              (TranslationRequest.source_language request)
              (TranslationRequest.target_language request) net)
    as [net' [[response [result [content [_ [_ [_ [_ H]]]]]]] | [msg H]]];
    rewrite H, translation_response, optional_str_str; cbn;
    do 2 eexists; (split; [reflexivity|]); cbn; repeat split.
  - left. repeat split. exists (strip content). split; [reflexivity|].
    apply strip_idem.
  - right. repeat split. now exists msg.
Qed.

(** X22: the services are created when services.py is imported, the Chipp
    one first: the import succeeds exactly when both API_KEY and
    GEMINI_API_KEY are set; with an empty API_KEY it raises "API key is
    required but not provided" even when the Gemini key is set, and with
    only the Gemini key empty it raises "GEMINI_API_KEY is required but not
    provided". *)
Theorem services_need_both_keys (settings : Settings.t) :
  ((exists services, Services.load settings = inr services)
   <-> Settings.api_key settings <> "" /\ Settings.gemini_api_key settings <> "")
  /\ (Settings.api_key settings = "" ->
        Services.load settings
        = inl (ValueError "API key is required but not provided"))
  /\ (Settings.api_key settings <> "" -> Settings.gemini_api_key settings = "" ->
        Services.load settings
        = inl (ValueError "GEMINI_API_KEY is required but not provided")).
Proof.
  unfold Services.load, TranslationService.init, SubtitleTranslationService.init,
    TextTranslationService.init, LanguageDetectionService.init,
    TransliterationService.init, and_so.
  destruct (String.eqb_spec (Settings.api_key settings) "") as [Ha|Ha];
    destruct (String.eqb_spec (Settings.gemini_api_key settings) "") as [Hg|Hg];
    (split; [split|split]);
    try (intros [svc H]; discriminate);
    try (intros [H1 H2]; contradiction);
    try (intros; now eexists);
    try (intros; (reflexivity || contradiction || now split)).
Qed.

Lemma services_need_both_keys_witness :
  Services.load (Settings.mk "" "https://app.chipp.ai/api/v1/chat/completions"
                   "translationforfree-10024994" "gemini-key")
  = inl (ValueError "API key is required but not provided").
Proof.
  destruct (services_need_both_keys
              (Settings.mk "" "https://app.chipp.ai/api/v1/chat/completions"
                 "translationforfree-10024994" "gemini-key")) as [_ [H _]].
  exact (H eq_refl).
Defined.

(** X23: an answer of the wrong shape is retried like any other failure:
    when at each of the three attempts the provider returns a text that
    decodes to a JSON value that is not an array, the retry wrapper makes
    three calls with sleeps of 2 and 4 between them and then raises
    ValueError("Response is not a JSON array"); no translated cue is
    built. *)
Theorem wrong_shaped_answers_exhaust_the_retries {R : Runtime}
    (cues : list SubtitleCue.t) (source_lang target_lang : string) (st : St)
    (w1 w2 w3 : World) (t1 t2 t3 : string) (v1 v2 v3 : PyVal) :
  let prompt := SubtitleTranslationService._build_prompt
                  (map SubtitleCue.text cues) source_lang target_lang in
  generate_content prompt (world st) = (inr t1, w1) ->
  json_loads (clean_response t1) = inr v1 -> is_list v1 = false ->
  generate_content prompt w1 = (inr t2, w2) ->
  json_loads (clean_response t2) = inr v2 -> is_list v2 = false ->
  generate_content prompt w2 = (inr t3, w3) ->
  json_loads (clean_response t3) = inr v3 -> is_list v3 = false ->
  SubtitleTranslationService._translate_batch_with_retry
    SubtitleTranslationService.instance cues source_lang target_lang st
  = (inl (ValueError "Response is not a JSON array"),
     mkSt w3 (trace st ++ [Generate prompt; Sleep 2; Generate prompt;
                           Sleep 4; Generate prompt])).
Proof.
  intros prompt G1 J1 L1 G2 J2 L2 G3 J3 L3.
  assert (forall txt v, json_loads (clean_response txt) = inr v ->
            is_list v = false ->
            SubtitleTranslationService._parse_response txt
            = inl (ValueError "Response is not a JSON array")) as Hparse.
  { intros txt v J L. unfold SubtitleTranslationService._parse_response.
    rewrite J. now destruct v. }
  assert (forall s txt w v,
            generate_content prompt (world s) = (inr txt, w) ->
            json_loads (clean_response txt) = inr v -> is_list v = false ->
            SubtitleTranslationService._translate_batch
              SubtitleTranslationService.instance cues source_lang target_lang s
            = (inl (ValueError "Response is not a JSON array"),
               mkSt w (trace s ++ [Generate prompt]))) as Hattempt.
  { intros s txt w v G J L.
    unfold SubtitleTranslationService._translate_batch, bind, generate_text, lift.
    fold prompt. now rewrite G, (Hparse _ _ J L). }
  unfold SubtitleTranslationService._translate_batch_with_retry.
  change (seq 0 (SubtitleTranslationService.MAX_RETRIES
                   SubtitleTranslationService.instance)) with [0; 1; 2].
  rewrite retry_loop_cons. cbn [Nat.ltb Nat.leb].
  rewrite (Hattempt st t1 w1 v1 G1 J1 L1).
  change (SubtitleTranslationService.non_retryable
            (ValueError "Response is not a JSON array")) with false.
  cbv iota. rewrite retry_loop_cons.
  change (0 <? 1)%nat with true. cbv iota.
  erewrite Hattempt; [|exact G2|exact J2|exact L2].
  change (SubtitleTranslationService.non_retryable
            (ValueError "Response is not a JSON array")) with false.
  cbv iota. rewrite retry_loop_cons.
  change (0 <? 2)%nat with true. cbv iota.
  erewrite Hattempt; [|exact G3|exact J3|exact L3].
  change (SubtitleTranslationService.non_retryable
            (ValueError "Response is not a JSON array")) with false.
  cbv iota.
  cbn [SubtitleTranslationService.retry_loop raise slept trace world
       Nat.pow Nat.mul Nat.add].
  now rewrite <- !app_assoc.
Qed.

Lemma wrong_shaped_answers_exhaust_the_retries_witness :
  exists st',
    SubtitleTranslationService._translate_batch_with_retry
      SubtitleTranslationService.instance Mock.cues "English" "Spanish"
      (Mock.start [inr "42"; inr "42"; inr "42"; Mock.hola_mundo])
    = (inl (ValueError "Response is not a JSON array"), st')
    /\ world st' = [Mock.hola_mundo].
Proof.
  eexists. split.
  - apply (@wrong_shaped_answers_exhaust_the_retries (Mock.runtime Mock.table)
             Mock.cues "English" "Spanish"
             (Mock.start [inr "42"; inr "42"; inr "42"; Mock.hola_mundo])
             [inr "42"; inr "42"; Mock.hola_mundo] [inr "42"; Mock.hola_mundo]
             [Mock.hola_mundo] "42" "42" "42" (PyInt 42) (PyInt 42) (PyInt 42));
      reflexivity.
  - reflexivity.
Defined.
